(** * astro-loader-glob-frontmatter: a shallow embedding and its properties

    The loader wraps Astro's [glob()] loader.  For every content file it
    merges frontmatter found in external YAML/JSON documents underneath the
    file's own frontmatter, and it lifts a leading [# Title] line of the
    markdown body into the [title] field.

    The development follows the source files:
    - [src/merge.ts]            : [deepMerge]
    - [src/h1.ts]               : [extractH1], [stripH1Html]
    - [src/frontmatter-map.ts]  : [flattenToMap], [discoverPerDirFiles],
                                  [loadFrontmatterMap]
    - [src/index.ts]            : the [parseData] and [store.set] wrappers

    Definitions come first (one module per source file), the properties
    follow in modules of their own. *)

From Stdlib Require Import List String Ascii ZArith Bool Arith Lia.
Import ListNotations.

Set Warnings "-register-all".
Open Scope list_scope.
Open Scope string_scope.

(* ================================================================== *)
(** * JavaScript values *)
(* ================================================================== *)

(** [Data = Record<string, unknown>]: the values that a YAML or JSON
    document, or a file's frontmatter, can hold.  A record is kept as the
    list of its own enumerable properties in insertion order; its keys
    are pairwise different (see [wfValue]).  (JavaScript enumerates keys
    that look like array indices first; the properties below are stated
    through [lookup], which does not see the order.)  Numbers are the
    integral ones plus [NaN]; nothing below looks inside a number except
    for its truthiness. *)
Inductive Value : Type :=
| VNull
| VBool (b : bool)
| VNum (n : Z)
| VNaN
| VStr (s : string)
| VArr (items : list Value)
| VObj (props : list (string * Value)).

Definition Data : Type := list (string * Value).

(** Ordered string-keyed tables.  Both a JS object and a JS [Map] keep
    their keys in insertion order; [set] overwrites in place or appends,
    as property assignment and [Map.prototype.set] do. *)
Section Table.
Context {V : Type}.

Fixpoint lookup (k : string) (m : list (string * V)) : option V :=
  match m with
  | [] => None
  | (k', v) :: m' => if String.eqb k k' then Some v else lookup k m'
  end.

Fixpoint set (k : string) (v : V) (m : list (string * V)) : list (string * V) :=
  match m with
  | [] => [(k, v)]
  | (k', v') :: m' =>
      if String.eqb k k' then (k, v) :: m' else (k', v') :: set k v m'
  end.

Definition keys (m : list (string * V)) : list string := map fst m.

Definition has (k : string) (m : list (string * V)) : bool :=
  match lookup k m with Some _ => true | None => false end.

(** [for (const [k, v] of src) dst.set(k, v)] *)
Definition setAll (src dst : list (string * V)) : list (string * V) :=
  fold_left (fun acc kv => set (fst kv) (snd kv) acc) src dst.

End Table.

(** [typeof v === 'object' && v !== null && !Array.isArray(v)] *)
Definition isPlainObject (v : Value) : bool :=
  match v with VObj _ => true | _ => false end.

(** JavaScript truthiness, as used by [!merged.title]. *)
Definition truthy (v : option Value) : bool :=
  match v with
  | None => false
  | Some VNull => false
  | Some (VBool b) => b
  | Some (VNum n) => negb (Z.eqb n 0)
  | Some VNaN => false
  | Some (VStr s) => negb (String.eqb s "")
  | Some (VArr _) => true
  | Some (VObj _) => true
  end.

(** Keys of a record are pairwise different, at every depth: what every
    JS object satisfies. *)
Fixpoint distinct (l : list string) : bool :=
  match l with
  | [] => true
  | k :: l' => negb (existsb (String.eqb k) l') && distinct l'
  end.

Fixpoint wfValue (v : Value) : bool :=
  match v with
  | VArr items => forallb wfValue items
  | VObj props =>
      distinct (map fst props) && forallb (fun kv => wfValue (snd kv)) props
  | _ => true
  end.

Definition wfData (d : Data) : bool := wfValue (VObj d).

(** Induction over values that reaches inside arrays and records. *)
Section ValueInduction.
Variable P : Value -> Prop.
Hypothesis HNull : P VNull.
Hypothesis HBool : forall b, P (VBool b).
Hypothesis HNum : forall n, P (VNum n).
Hypothesis HNaN : P VNaN.
Hypothesis HStr : forall s, P (VStr s).
Hypothesis HArr : forall items, Forall P items -> P (VArr items).
Hypothesis HObj : forall props, Forall (fun kv => P (snd kv)) props -> P (VObj props).

Fixpoint Value_deep_ind (v : Value) : P v :=
  match v with
  | VNull => HNull
  | VBool b => HBool b
  | VNum n => HNum n
  | VNaN => HNaN
  | VStr s => HStr s
  | VArr items =>
      HArr items
        ((fix all (l : list Value) : Forall P l :=
            match l with
            | [] => Forall_nil _
            | x :: l' => Forall_cons x (Value_deep_ind x) (all l')
            end) items)
  | VObj props =>
      HObj props
        ((fix all (l : list (string * Value)) : Forall (fun kv => P (snd kv)) l :=
            match l with
            | [] => Forall_nil _
            | kv :: l' => Forall_cons kv (Value_deep_ind (snd kv)) (all l')
            end) props)
  end.

End ValueInduction.

(* ================================================================== *)
(** * src/merge.ts *)
(* ================================================================== *)

Module Merge.

(** [key === '__proto__' || key === 'constructor'] *)
Definition blocked (key : string) : bool :=
  String.eqb key "__proto__" || String.eqb key "constructor".

(** [deepMerge], with the overlay wrapped as a value so that the recursion
    is structural in it.  [result] starts as the copy [{ ...target }]; the
    inner loop is [for (const key of Object.keys(source))].  The read
    [result[key]] is a [lookup] among the own properties: what it could
    find further up, in [Object.prototype], is a function or sits under
    the skipped [__proto__], never a plain record. *)
Fixpoint mergeInto (result : Data) (source : Value) {struct source} : Data :=
  match source with
  | VObj entries =>
      (fix loop (entries : Data) (result : Data) {struct entries} : Data :=
         match entries with
         | [] => result
         | (key, sVal) :: rest =>
             if blocked key then loop rest result
             else
               match lookup key result, sVal with
               | Some (VObj tVal), VObj _ =>
                   loop rest (set key (VObj (mergeInto tVal sVal)) result)
               | _, _ => loop rest (set key sVal result)
               end
         end) entries result
  | _ => result
  end.

Definition deepMerge (target source : Data) : Data :=
  mergeInto target (VObj source).

(** The value that one iteration of the loop stores at [result[key]]. *)
Definition assign (tVal : option Value) (sVal : Value) : Value :=
  match tVal, sVal with
  | Some (VObj t), VObj s => VObj (deepMerge t s)
  | _, _ => sVal
  end.

(** One iteration of the loop of [deepMerge]. *)
Definition mergeStep (result : Data) (entry : string * Value) : Data :=
  let (key, sVal) := entry in
  if blocked key then result
  else set key (assign (lookup key result) sVal) result.

(** A record free of blocked keys at every depth. *)
Fixpoint deepClean (v : Value) : bool :=
  match v with
  | VArr items => forallb deepClean items
  | VObj props =>
      forallb (fun kv => negb (blocked (fst kv)) && deepClean (snd kv)) props
  | _ => true
  end.

End Merge.

(* ================================================================== *)
(** * Strings and the regular expressions of the loader *)
(* ================================================================== *)

(** A JS string is a sequence of UTF-16 code units.  The model keeps the
    code units below 256, which hold every character that the loader's
    regular expressions name.  Each regular expression is written out as
    the scanner that the backtracking matcher amounts to; the comment of
    each scanner quotes the expression. *)
Module Text.

Definition nl : string := String "010" "".
Definition cr : string := String "013" "".
Definition tab : string := String "009" "".

Definition isNewline (c : ascii) : bool := Ascii.eqb c "010".

(** Line terminators: the characters that [.] does not match. *)
Definition isLineTerminator (c : ascii) : bool :=
  Ascii.eqb c "010" || Ascii.eqb c "013".

(** [.] *)
Definition isDot (c : ascii) : bool := negb (isLineTerminator c).

(** [\s]: tab, line feed, vertical tab, form feed, carriage return,
    space, no-break space. *)
Definition isSpace (c : ascii) : bool :=
  Ascii.eqb c "009" || Ascii.eqb c "010" || Ascii.eqb c "011" ||
  Ascii.eqb c "012" || Ascii.eqb c "013" || Ascii.eqb c " " ||
  Ascii.eqb c "160".

(** "[^\S\n]": white space other than the line feed. *)
Definition isHSpace (c : ascii) : bool := isSpace c && negb (isNewline c).

Definition isNot (x : ascii) (c : ascii) : bool := negb (Ascii.eqb c x).

(** A greedy "[class]*": the longest prefix in the class, and the rest. *)
Fixpoint takeWhile (p : ascii -> bool) (s : string) : string :=
  match s with
  | String c s' => if p c then String c (takeWhile p s') else ""
  | "" => ""
  end.

Fixpoint dropWhile (p : ascii -> bool) (s : string) : string :=
  match s with
  | String c s' => if p c then dropWhile p s' else s
  | "" => ""
  end.

(** A literal at the current position: the rest of the text after it. *)
Fixpoint stripPrefix (lit s : string) : option string :=
  match lit, s with
  | "", _ => Some s
  | String a lit', String b s' =>
      if Ascii.eqb a b then stripPrefix lit' s' else None
  | String _ _, "" => None
  end.

(** A lazy "X*?" followed by the literal [lit], where [X] is the class
    [p]: the shortest run of [p]-characters after which [lit] stands.
    Returns the run and the text after the literal. *)
Fixpoint lazyUntil (p : ascii -> bool) (lit s : string) : option (string * string) :=
  match stripPrefix lit s with
  | Some rest => Some ("", rest)
  | None =>
      match s with
      | String c s' =>
          if p c then
            match lazyUntil p lit s' with
            | Some (run, rest) => Some (String c run, rest)
            | None => None
            end
          else None
      | "" => None
      end
  end.

(** Where a greedy class stops: at the end, or before a character
    outside the class. *)
Definition stopsAt (p : ascii -> bool) (s : string) : bool :=
  match s with
  | "" => true
  | String c _ => negb (p c)
  end.

Definition anyChar (c : ascii) : bool := true.

(** Every character of [s] is in the class [p]. *)
Fixpoint allChars (p : ascii -> bool) (s : string) : bool :=
  match s with
  | String c s' => p c && allChars p s'
  | "" => true
  end.

(** An optional line feed [\n?] (also [String.prototype.replace(/^\n/, '')]). *)
Definition dropNewline (s : string) : string :=
  match s with
  | String c s' => if isNewline c then s' else s
  | "" => ""
  end.

(** [String.prototype.trim] *)
Fixpoint trimEnd (s : string) : string :=
  match s with
  | "" => ""
  | String c s' =>
      match trimEnd s' with
      | "" => if isSpace c then "" else String c ""
      | r => String c r
      end
  end.

Definition trim (s : string) : string := trimEnd (dropWhile isSpace s).

(** [text.replace(re, replacement)] with the [g] flag.  [tryMatch s]
    answers whether [re] matches at the start of [s], and then gives the
    replacement text and what follows the match.  No expression of the
    loader matches the empty string, so [length s] rounds suffice. *)
Fixpoint replaceAllFrom (tryMatch : string -> option (string * string))
  (rounds : nat) (s : string) : string :=
  match rounds with
  | 0 => s
  | S n =>
      match tryMatch s with
      | Some (replacement, rest) => replacement ++ replaceAllFrom tryMatch n rest
      | None =>
          match s with
          | String c s' => String c (replaceAllFrom tryMatch n s')
          | "" => ""
          end
      end
  end.

Definition replaceAll (tryMatch : string -> option (string * string)) (s : string) : string :=
  replaceAllFrom tryMatch (String.length s) s.

(** [text.replace(re, replacement)] without the [g] flag: the leftmost
    match only. *)
Fixpoint replaceFirst (tryMatch : string -> option (string * string)) (s : string) : string :=
  match tryMatch s with
  | Some (replacement, rest) => replacement ++ rest
  | None =>
      match s with
      | String c s' => String c (replaceFirst tryMatch s')
      | "" => ""
      end
  end.

(** A matcher whose every match uses up at least one character. *)
Definition consumes (f : string -> option (string * string)) : Prop :=
  forall s replacement rest,
    f s = Some (replacement, rest) -> String.length rest < String.length s.

(** A matcher that can only succeed on a text whose first character is
    in the class [p]. *)
Definition triggeredBy (f : string -> option (string * string))
  (p : ascii -> bool) : Prop :=
  f "" = None /\ forall c s, p c = false -> f (String c s) = None.

(** No suffix of the text is matched. *)
Fixpoint unmatchedBy (f : string -> option (string * string)) (s : string) : Prop :=
  match s with
  | "" => f "" = None
  | String c s' => f s = None /\ unmatchedBy f s'
  end.

(** [String.prototype.includes] *)
Fixpoint contains (lit s : string) : bool :=
  match stripPrefix lit s with
  | Some _ => true
  | None =>
      match s with
      | String _ s' => contains lit s'
      | "" => false
      end
  end.

(** A matcher whose replacement and rest are pieces of the text, in
    their order. *)
Definition cuts (f : string -> option (string * string)) : Prop :=
  forall s replacement rest,
    f s = Some (replacement, rest) ->
    exists before between, s = before ++ replacement ++ between ++ rest.

(** [a] is what is left of [b] after deleting some of its characters. *)
Inductive Subseq : string -> string -> Prop :=
| Subseq_nil : Subseq "" ""
| Subseq_keep (c : ascii) (a b : string) :
    Subseq a b -> Subseq (String c a) (String c b)
| Subseq_drop (c : ascii) (a b : string) :
    Subseq a b -> Subseq a (String c b).

End Text.

(* ================================================================== *)
(** * src/h1.ts *)
(* ================================================================== *)

Module H1.
Import Text.

(** One round of "(?:[^\S\n]*\n)": a line of white space and its line
    feed. *)
Definition blankLine (s : string) : option string :=
  match dropWhile isHSpace s with
  | String c rest => if isNewline c then Some rest else None
  | "" => None
  end.

(** "(?:[^\S\n]*\n)*", greedy.  Every round consumes a character. *)
Fixpoint skipBlankLinesFrom (rounds : nat) (s : string) : string :=
  match rounds with
  | 0 => s
  | S n =>
      match blankLine s with
      | Some rest => skipBlankLinesFrom n rest
      | None => s
      end
  end.

Definition skipBlankLines (s : string) : string :=
  skipBlankLinesFrom (String.length s) s.

(** [H1_RE], that is "/^(?:[^\S\n]*\n)*# (.+)\n?/".  Returns capture group 1 and
    the text after the whole match ([markdown.slice(match[0].length)]).
    Giving back blank lines never helps the matcher: a blank line starts
    with white space or a line feed, not with [#]. *)
Definition H1_RE_exec (markdown : string) : option (string * string) :=
  match stripPrefix "# " (skipBlankLines markdown) with
  | Some afterMarker =>
      match takeWhile isDot afterMarker with
      | "" => None
      | rawTitle => Some (rawTitle, dropNewline (dropWhile isDot afterMarker))
      end
  | None => None
  end.

(** The image pattern, replaced by [$1]; with blanks between its parts
    it reads   !\[  ( [^\]]* )  \]  \(  [^)]*  \)  . *)
Definition imageAt (s : string) : option (string * string) :=
  match stripPrefix "![" s with
  | Some s1 =>
      match stripPrefix "](" (dropWhile (isNot "]") s1) with
      | Some s2 =>
          match dropWhile (isNot ")") s2 with
          | String _ rest => Some (takeWhile (isNot "]") s1, rest)
          | "" => None
          end
      | None => None
      end
  | None => None
  end.

(** The link pattern, replaced by [$1]; with blanks between its parts
    it reads   \[  ( [^\]]* )  \]  \(  [^)]*  \)  . *)
Definition linkAt (s : string) : option (string * string) :=
  match stripPrefix "[" s with
  | Some s1 =>
      match stripPrefix "](" (dropWhile (isNot "]") s1) with
      | Some s2 =>
          match dropWhile (isNot ")") s2 with
          | String _ rest => Some (takeWhile (isNot "]") s1, rest)
          | "" => None
          end
      | None => None
      end
  | None => None
  end.

(** "delim(.*?)delim", replaced by the text between the delimiters. *)
Definition delimitedAt (delim : string) (s : string) : option (string * string) :=
  match stripPrefix delim s with
  | Some s1 => lazyUntil isDot delim s1
  | None => None
  end.

(** The bold pattern "/(\*\*|__)(.*?)\1/", replaced by [$2]. *)
Definition boldAt (s : string) : option (string * string) :=
  match stripPrefix "**" s with
  | Some _ => delimitedAt "**" s
  | None => delimitedAt "__" s
  end.

(** The italic pattern "/(\*|_)(.*?)\1/", replaced by [$2]. *)
Definition italicAt (s : string) : option (string * string) :=
  match stripPrefix "*" s with
  | Some _ => delimitedAt "*" s
  | None => delimitedAt "_" s
  end.

(** The strikethrough pattern "/~~(.*?)~~/", replaced by [$1]. *)
Definition strikeAt (s : string) : option (string * string) :=
  delimitedAt "~~" s.

(** The inline code pattern "/`([^`]+)`/", replaced by [$1]. *)
Definition codeAt (s : string) : option (string * string) :=
  match stripPrefix "`" s with
  | Some s1 =>
      match takeWhile (isNot "`") s1, dropWhile (isNot "`") s1 with
      | String c inner, String _ rest => Some (String c inner, rest)
      | _, _ => None
      end
  | None => None
  end.

(** Strip bold, italic, code, images, and links down to plain text. *)
Definition flattenInlineMarkdown (text : string) : string :=
  trim
    (replaceAll codeAt
      (replaceAll strikeAt
        (replaceAll italicAt
          (replaceAll boldAt
            (replaceAll linkAt
              (replaceAll imageAt text)))))).

(** [H1_HTML_RE], that is "/<h1[^>]*>[\s\S]*?<\/h1>\n*/", at the start
    of [s]; it is replaced by the empty string. *)
Definition h1ElementAt (s : string) : option (string * string) :=
  match stripPrefix "<h1" s with
  | Some s1 =>
      match dropWhile (isNot ">") s1 with
      | String _ s2 =>
          match lazyUntil anyChar "</h1>" s2 with
          | Some (_, rest) => Some ("", dropWhile isNewline rest)
          | None => None
          end
      | "" => None
      end
  | None => None
  end.

Definition stripH1Html (html : string) : string :=
  replaceFirst h1ElementAt html.

Record H1Result : Type := { title : string; body : string }.

Definition extractH1 (markdown : string) : option H1Result :=
  match H1_RE_exec markdown with
  | None => None
  | Some (rawTitle, afterMatch) =>
      Some {| title := flattenInlineMarkdown rawTitle;
              (* Remove the H1 line and at most one trailing blank line *)
              body := dropNewline afterMatch |}
  end.

(** *** The shape of a leading heading

    The text [blanks] is a run of lines of white space, each ended by a
    line feed. *)
Inductive BlankLines : string -> Prop :=
| BlankLines_nil : BlankLines ""
| BlankLines_cons (ws rest : string) :
    allChars isHSpace ws = true -> BlankLines rest ->
    BlankLines (ws ++ nl ++ rest).

(** The text starts with a line of white space ended by a line feed. *)
Definition startsBlankLine (s : string) : Prop :=
  exists ws rest, allChars isHSpace ws = true /\ s = ws ++ nl ++ rest.

(** The text ends, or goes on with a line terminator. *)
Definition endsLine (tail : string) : bool :=
  match tail with
  | "" => true
  | String c _ => isLineTerminator c
  end.

(** [s] starts with the marker [# ] and the heading text [text]: a
    non-empty run of characters other than line terminators, which stops
    at the end of [s] or at a line terminator; [tail] is what follows. *)
Definition HeadingAt (s text tail : string) : Prop :=
  s = "# " ++ text ++ tail /\
  text <> "" /\ allChars isDot text = true /\ endsLine tail = true.

(** A character that no pattern of [flattenInlineMarkdown] names: not
    one of the marks ! [ ] ( ) * _ ~ and the backquote, and not a line
    terminator. *)
Definition isMark (c : ascii) : bool :=
  Ascii.eqb "!" c || Ascii.eqb "[" c || Ascii.eqb "]" c || Ascii.eqb "(" c ||
  Ascii.eqb ")" c || Ascii.eqb "*" c || Ascii.eqb "_" c || Ascii.eqb "~" c ||
  Ascii.eqb "`" c.

Definition isPlain (c : ascii) : bool := isDot c && negb (isMark c).

Definition plain (s : string) : bool := allChars isPlain s.

(** *** The words of the specification, read literally

    A line ends at a line feed. *)
Definition firstLine (s : string) : string := takeWhile (isNot "010") s.

Definition afterFirstLine (s : string) : string :=
  dropNewline (dropWhile (isNot "010") s).

(** The first line that is not made of white space only, and the text
    after that line. *)
Fixpoint firstNonBlankLineFrom (rounds : nat) (s : string) : option (string * string) :=
  match rounds with
  | 0 => None
  | S n =>
      if allChars isSpace (firstLine s)
      then
        match dropWhile (isNot "010") s with
        | "" => None
        | String _ next => firstNonBlankLineFrom n next
        end
      else Some (firstLine s, afterFirstLine s)
  end.

Definition firstNonBlankLine (s : string) : option (string * string) :=
  firstNonBlankLineFrom (S (String.length s)) s.

(** "The first non-blank line does not begin with [# ]." *)
Definition noLeadingHeading (s : string) : bool :=
  match firstNonBlankLine s with
  | Some (line, _) =>
      match stripPrefix "# " line with Some _ => false | None => true end
  | None => true
  end.

End H1.

(* ================================================================== *)
(** * node:path, node:fs and the parsers *)
(* ================================================================== *)

(** The POSIX flavour of [node:path]. *)
Module Path.

Record ExtnameState : Type := {
  startDot : option nat;
  startPart : nat;
  endPos : option nat;
  matchedSlash : bool;
  preDotState : Z
}.

(** The loop of [extname]: [for (let i = path.length - 1; i >= 0; --i)].
    [pending] holds [path[i]], [path[i-1]], ... *)
Fixpoint extnameScan (pending : list ascii) (i : nat) (st : ExtnameState) : ExtnameState :=
  match pending with
  | [] => st
  | code :: more =>
      if Ascii.eqb code "/" then
        if negb (matchedSlash st) then
          {| startDot := startDot st; startPart := i + 1; endPos := endPos st;
             matchedSlash := matchedSlash st; preDotState := preDotState st |}
        else extnameScan more (i - 1) st
      else
        let st1 :=
          match endPos st with
          | None =>
              {| startDot := startDot st; startPart := startPart st;
                 endPos := Some (i + 1); matchedSlash := false;
                 preDotState := preDotState st |}
          | Some _ => st
          end in
        let st2 :=
          if Ascii.eqb code "." then
            match startDot st1 with
            | None =>
                {| startDot := Some i; startPart := startPart st1;
                   endPos := endPos st1; matchedSlash := matchedSlash st1;
                   preDotState := preDotState st1 |}
            | Some _ =>
                {| startDot := startDot st1; startPart := startPart st1;
                   endPos := endPos st1; matchedSlash := matchedSlash st1;
                   preDotState := 1 |}
            end
          else
            match startDot st1 with
            | Some _ =>
                {| startDot := startDot st1; startPart := startPart st1;
                   endPos := endPos st1; matchedSlash := matchedSlash st1;
                   preDotState := (-1) |}
            | None => st1
            end in
        extnameScan more (i - 1) st2
  end.

Definition extname (path : string) : string :=
  let st :=
    extnameScan (rev (list_ascii_of_string path)) (String.length path - 1)
      {| startDot := None; startPart := 0; endPos := None;
         matchedSlash := true; preDotState := 0 |} in
  match startDot st, endPos st with
  | Some sd, Some e =>
      if Z.eqb (preDotState st) 0
         || (Z.eqb (preDotState st) 1 && Nat.eqb sd (e - 1)
             && Nat.eqb sd (startPart st + 1))
      then ""
      else substring sd (e - sd) path
  | _, _ => ""
  end.

(** [join(dir, name)] for a normalised [dir] and a plain file name. *)
Definition join (dir name : string) : string :=
  if String.eqb dir "" then name else dir ++ "/" ++ name.

(** [relative(from, to)] for normalised paths with [to] at or below
    [from], the only way the loader calls it. *)
Definition relative (from to : string) : string :=
  if String.eqb from to then ""
  else if String.eqb from "." || String.eqb from "" then to
  else
    match Text.stripPrefix (from ++ "/") to with
    | Some below => below
    | None => to
    end.

End Path.

(** What [throw] carries. *)
Inductive Exception : Type :=
| Error (message : string)
| SyntaxError (message : string)
| SystemError (code : string) (path : string).

Definition message (e : Exception) : string :=
  match e with
  | Error m => m
  | SyntaxError m => m
  | SystemError code path => code ++ ": " ++ path
  end.

(** A computation that returns or throws. *)
Inductive Result (A : Type) : Type :=
| Ok (a : A)
| Throw (e : Exception).

Arguments Ok {A} a.
Arguments Throw {A} e.

Definition bind {A B : Type} (r : Result A) (k : A -> Result B) : Result B :=
  match r with
  | Ok a => k a
  | Throw e => Throw e
  end.

Notation "x <- r ;; k" := (bind r (fun x => k))
  (at level 61, r at next level, right associativity).

(** [try { body } catch (e) { throw handler(e) }] *)
Definition tryCatch {A : Type} (body : Result A) (handler : Exception -> Exception) : Result A :=
  match body with
  | Ok a => Ok a
  | Throw e => Throw (handler e)
  end.

(** The file system is a tree.  A function of the loader that takes a
    path takes, next to it, what the file system holds at that path
    ([None]: nothing). *)
Module Fs.

Inductive Node : Type :=
| File (content : string)
| Dir (entries : list (string * Node)).

Definition existsSync (at_path : option Node) : bool :=
  match at_path with Some _ => true | None => false end.

Definition readFileSync (path : string) (at_path : option Node) : Result string :=
  match at_path with
  | Some (File content) => Ok content
  | Some (Dir _) => Throw (SystemError "EISDIR" path)
  | None => Throw (SystemError "ENOENT" path)
  end.

(** Induction over a tree that reaches inside directories. *)
Section NodeInduction.
Variable P : Node -> Prop.
Hypothesis HFile : forall content, P (File content).
Hypothesis HDir :
  forall entries, Forall (fun e => P (snd e)) entries -> P (Dir entries).

Fixpoint Node_deep_ind (n : Node) : P n :=
  match n with
  | File content => HFile content
  | Dir entries =>
      HDir entries
        ((fix all (l : list (string * Node)) : Forall (fun e => P (snd e)) l :=
            match l with
            | [] => Forall_nil _
            | e :: l' => Forall_cons e (Node_deep_ind (snd e)) (all l')
            end) entries)
  end.

End NodeInduction.

(** The path holds a directory rather than a file or nothing. *)
Definition holdsDirectory (at_path : option Node) : bool :=
  match at_path with Some (Dir _) => true | _ => false end.

(** [Dirent.isDirectory()] *)
Definition isDirectory (n : Node) : bool :=
  match n with Dir _ => true | File _ => false end.

End Fs.

(** [JSON.parse] and the [parse] of the [yaml] package.  The casts
    [as Data] of the source are taken at their word: the top level of a
    document is a record; an empty YAML document parses to [null]. *)
Class Parsers : Type := {
  JSON_parse : string -> Result Data;
  parseYaml : string -> Result (option Data)
}.

(* ================================================================== *)
(** * src/frontmatter-map.ts *)
(* ================================================================== *)

Module FrontmatterMap.
Import Fs.

Definition CONTENT_EXTENSIONS : list string := [".md"; ".mdx"; ".mdoc"].
Definition FRONTMATTER_FILENAMES : list string :=
  ["frontmatter.yml"; "frontmatter.yaml"; "frontmatter.json"].

Definition isContentFile (key : string) : bool :=
  existsb (String.eqb (Path.extname key)) CONTENT_EXTENSIONS.

(** [String.prototype.endsWith] *)
Definition endsWith (s suffix : string) : bool :=
  match Text.stripPrefix
          (string_of_list_ascii (rev (list_ascii_of_string suffix)))
          (string_of_list_ascii (rev (list_ascii_of_string s))) with
  | Some _ => true
  | None => false
  end.

(** [String.prototype.startsWith] *)
Definition startsWith (s pre : string) : bool :=
  match Text.stripPrefix pre s with Some _ => true | None => false end.

(** [prefix ? `${prefix}/${key}` : key] *)
Definition under (prefix key : string) : string :=
  if String.eqb prefix "" then key else prefix ++ "/" ++ key.

Section WithParsers.
Context {parsers : Parsers}.

(** The body of the [try] block of [parseDataFile]. *)
Definition parseByExtension (filePath content : string) : Result Data :=
  if endsWith filePath ".json" then JSON_parse content
  else
    parsed <- parseYaml content ;;
    Ok (match parsed with Some data => data | None => [] end).

Definition parseDataFile (filePath : string) (at_path : option Node) : Result Data :=
  content <- readFileSync filePath at_path ;;
  tryCatch (parseByExtension filePath content)
    (fun e => Error ("Failed to parse " ++ filePath ++ ": " ++ message e)).

Definition parseCentralFile (filePath : string) (at_path : option Node) : Result Data :=
  if negb (existsSync at_path) then Ok [] else parseDataFile filePath at_path.

End WithParsers.

(** [flattenToMap], with the document wrapped as a value so that the
    recursion is structural in it. *)
Fixpoint flattenValue (data : Value) (prefix : string) {struct data} : list (string * Data) :=
  match data with
  | VObj entries =>
      (fix loop (entries : Data) (map : list (string * Data)) {struct entries}
         : list (string * Data) :=
         match entries with
         | [] => map
         | (key, value) :: rest =>
             match value with
             | VObj props =>
                 let fullKey := under prefix key in
                 if isContentFile key then loop rest (set fullKey props map)
                 else loop rest (setAll (flattenValue value fullKey) map)
             | _ => loop rest map
             end
         end) entries []
  | _ => []
  end.

Definition flattenToMap (data : Data) (prefix : string) : list (string * Data) :=
  flattenValue (VObj data) prefix.

(** One iteration of the loop of [flattenToMap]. *)
Definition flattenStep (prefix : string) (map : list (string * Data))
  (entry : string * Value) : list (string * Data) :=
  match snd entry with
  | VObj props =>
      let fullKey := under prefix (fst entry) in
      if isContentFile (fst entry) then set fullKey props map
      else setAll (flattenToMap props fullKey) map
  | _ => map
  end.

(** A leaf of a centralized document: a chain of record-valued keys, the
    last with a content extension and the ones before it without, and
    the path that the chain spells under [prefix]. *)
Inductive Leaf : Data -> string -> string -> Data -> Prop :=
| Leaf_here (data : Data) (prefix key : string) (props : Data) :
    In (key, VObj props) data -> isContentFile key = true ->
    Leaf data prefix (under prefix key) props
| Leaf_below (data : Data) (prefix key : string) (props : Data)
    (path : string) (record : Data) :
    In (key, VObj props) data -> isContentFile key = false ->
    Leaf props (under prefix key) path record ->
    Leaf data prefix path record.

(** A leaf contributed by one entry of the document. *)
Definition LeafOf (prefix : string) (entry : string * Value)
  (path : string) (record : Data) : Prop :=
  match snd entry with
  | VObj props =>
      (isContentFile (fst entry) = true /\
       path = under prefix (fst entry) /\ record = props) \/
      (isContentFile (fst entry) = false /\
       Leaf props (under prefix (fst entry)) path record)
  | _ => False
  end.

(** What [walkFrontmatterFiles] yields; [found] is what the file system
    holds at [filePath]. *)
Record Yielded : Type := {
  dir : string;
  filePath : string;
  name : string;
  found : Node
}.

(** The first loop of [walkFrontmatterFiles]: the first of the
    recognised names that exists in the directory. *)
Fixpoint firstFrontmatterFile (d : string) (entries : list (string * Node))
  (names : list string) : list Yielded :=
  match names with
  | [] => []
  | n :: names' =>
      match lookup n entries with
      | Some node =>
          [{| dir := d; filePath := Path.join d n; name := n; found := node |}]
      | None => firstFrontmatterFile d entries names'
      end
  end.

(** The generator, as the list of what it yields.  [readdirSync] throws
    on anything but a directory, and the generator then returns. *)
Fixpoint walkFrontmatterFiles (d : string) (at_dir : Node) {struct at_dir} : list Yielded :=
  match at_dir with
  | File _ => []
  | Dir entries =>
      (firstFrontmatterFile d entries FRONTMATTER_FILENAMES ++
       (fix each (es : list (string * Node)) : list Yielded :=
          match es with
          | [] => []
          | (entryName, child) :: es' =>
              ((if isDirectory child && negb (startsWith entryName ".")
                   && negb (String.eqb entryName "node_modules")
                then walkFrontmatterFiles (Path.join d entryName) child
                else []) ++ each es')%list
          end) entries)%list
  end.

Definition walkFrom (basePath : string) (at_base : option Node) : list Yielded :=
  match at_base with
  | Some node => walkFrontmatterFiles basePath node
  | None => []
  end.

(** The inner loop of [discoverPerDirFiles]: the entries of one document. *)
Definition addEntries (relDir : string) (data : Data) (map : list (string * Data))
  : list (string * Data) :=
  fold_left
    (fun map entry =>
       match snd entry with
       | VObj props => set (under relDir (fst entry)) props map
       | _ => map
       end)
    data map.

Section WithParsers.
Context {parsers : Parsers}.

(** The outer loop of [discoverPerDirFiles]. *)
Fixpoint discoverLoop (basePath : string) (yielded : list Yielded)
  (map : list (string * Data)) : Result (list (string * Data)) :=
  match yielded with
  | [] => Ok map
  | y :: more =>
      data <- parseDataFile (filePath y) (Some (found y)) ;;
      let relDir := Path.relative basePath (dir y) in
      discoverLoop basePath more (addEntries relDir data map)
  end.

(** A document that the walk yields and that parses. *)
Definition Discovered (basePath : string) (yielded : list Yielded)
  (relDir : string) (data : Data) : Prop :=
  exists y, In y yielded /\
            parseDataFile (filePath y) (Some (found y)) = Ok data /\
            relDir = Path.relative basePath (dir y).

Definition discoverPerDirFiles (basePath : string) (at_base : option Node)
  : Result (list (string * Data)) :=
  discoverLoop basePath (walkFrom basePath at_base) [].

(** The loop of [loadFrontmatterMap] over [perDirMap]. *)
Definition overlayPerDir (centralMap perDirMap : list (string * Data))
  : list (string * Data) :=
  fold_left
    (fun merged entry =>
       match lookup (fst entry) merged with
       | Some centralValue =>
           set (fst entry) (Merge.deepMerge centralValue (snd entry)) merged
       | None => set (fst entry) (snd entry) merged
       end)
    perDirMap centralMap.

(** [LoadMapOptions], each path with what the file system holds there. *)
Record LoadMapOptions : Type := {
  centralFile : option string;
  at_centralFile : option Node;
  basePath : string;
  at_basePath : option Node
}.

(** [const centralMap = flattenToMap(centralData)] *)
Definition centralMapOf (opts : LoadMapOptions) : Result (list (string * Data)) :=
  centralData <-
    match centralFile opts with
    | Some file =>
        if String.eqb file "" then Ok []
        else parseCentralFile file (at_centralFile opts)
    | None => Ok []
    end ;;
  Ok (flattenToMap centralData "").

(** [const perDirMap = existsSync(opts.basePath) ? ... : new Map()] *)
Definition perDirMapOf (opts : LoadMapOptions) : Result (list (string * Data)) :=
  if existsSync (at_basePath opts)
  then discoverPerDirFiles (basePath opts) (at_basePath opts)
  else Ok [].

Definition loadFrontmatterMap (opts : LoadMapOptions) : Result (list (string * Data)) :=
  centralMap <- centralMapOf opts ;;
  perDirMap <- perDirMapOf opts ;;
  Ok (overlayPerDir centralMap perDirMap).

End WithParsers.

(** The test of the second loop of [walkFrontmatterFiles]. *)
Definition descends (entry : string * Node) : bool :=
  isDirectory (snd entry) && negb (startsWith (fst entry) ".")
  && negb (String.eqb (fst entry) "node_modules").


(** The directories that [walkFrontmatterFiles] looks into, starting at
    [d]: [d] itself, and what it reaches through entries that are
    directories, do not start with a dot and are not [node_modules]. *)
Inductive Visits : string -> Node -> string -> list (string * Node) -> Prop :=
| Visits_here (d : string) (entries : list (string * Node)) :
    Visits d (Dir entries) d entries
| Visits_below (d : string) (entries : list (string * Node))
    (entryName : string) (child : Node)
    (d' : string) (entries' : list (string * Node)) :
    In (entryName, child) entries ->
    isDirectory child = true ->
    startsWith entryName "." = false ->
    entryName <> "node_modules" ->
    Visits (Path.join d entryName) child d' entries' ->
    Visits d (Dir entries) d' entries'.

(** [collectFrontmatterFilePaths]; [at_base] and [at_central] are what the
    file system holds at [basePath] and at [centralFile]. *)
Definition collectFrontmatterFilePaths (basePath : string) (at_base : option Node)
  (centralFile : option string) (at_central : option Node) : list string :=
  ((match centralFile with
    | Some file =>
        if negb (String.eqb file "") && existsSync at_central then [file] else []
    | None => []
    end)
   ++ map filePath (walkFrom basePath at_base))%list.

End FrontmatterMap.

(* ================================================================== *)
(** * src/index.ts *)
(* ================================================================== *)

Module Loader.
Import Text.

(** The argument of [parseData]. *)
Record ParseDataProps : Type := {
  id : string;
  data : Data;
  filePath : option string
}.

(** The frontmatter fence "/^---\n[\s\S]*?\n---\n?/" at the start of
    [raw]: what follows the match. *)
Definition fenceAt (raw : string) : option string :=
  match stripPrefix ("---" ++ nl) raw with
  | Some inside =>
      match lazyUntil anyChar (nl ++ "---") inside with
      | Some (_, rest) => Some (dropNewline rest)
      | None => None
      end
  | None => None
  end.

(** [fmMatch ? raw.slice(fmMatch[0].length) : raw] *)
Definition bodyOf (raw : string) : string :=
  match fenceAt raw with
  | Some body => body
  | None => raw
  end.

(** The block guarded by [if (!merged.title)]: read the file, skip the
    fence, extract the heading.  A failed read is caught and ignored.
    [at_file] is what the file system holds at
    [resolve(rootDir, props.filePath)]. *)
Definition injectTitle (merged : Data) (path : string) (at_file : option Fs.Node) : Data :=
  match Fs.readFileSync path at_file with
  | Ok raw =>
      match H1.extractH1 (bodyOf raw) with
      | Some h1 => set "title" (VStr (H1.title h1)) merged
      | None => merged
      end
  | Throw _ => merged
  end.

(** [fmMap.get(relative(normalizedBase, props.filePath)) ?? {}] *)
Definition externalDataOf (fmMap : list (string * Data))
  (normalizedBase file : string) : Data :=
  match lookup (Path.relative normalizedBase file) fmMap with
  | Some d => d
  | None => []
  end.

(** The [parseData] of the wrapped context: the argument that it hands to
    the original [parseData]. *)
Definition wrappedParseData (fmMap : list (string * Data))
  (rootDir normalizedBase : string) (at_file : option Fs.Node)
  (props : ParseDataProps) : ParseDataProps :=
  match filePath props with
  | None => props
  | Some file =>
      if String.eqb file "" then props
      else
        let externalData := externalDataOf fmMap normalizedBase file in
        let merged := Merge.deepMerge externalData (data props) in
        let merged :=
          if negb (truthy (lookup "title" merged))
          then injectTitle merged (Path.join rootDir file) at_file
          else merged in
        {| id := id props; data := merged; filePath := filePath props |}
  end.

Record Heading : Type := {
  depth : Z;
  slug : string;
  text : string
}.

Record Metadata : Type := {
  headings : option (list Heading)
}.

Record Rendered : Type := {
  html : string;
  metadata : option Metadata
}.

(** The argument of [store.set]. *)
Record Entry : Type := {
  entryId : string;
  entryData : Data;
  body : option string;
  rendered : option Rendered
}.

(** [if (entry.body) { const h1 = extractH1(entry.body); if (h1) entry.body = h1.body }] *)
Definition stripBody (b : option string) : option string :=
  match b with
  | Some text =>
      if String.eqb text "" then b
      else
        match H1.extractH1 text with
        | Some h1 => Some (H1.body h1)
        | None => b
        end
  | None => None
  end.

(** [if (headings.length > 0 && headings[0].depth === 1) ... headings.slice(1)] *)
Definition stripHeadings (hs : list Heading) : list Heading :=
  match hs with
  | h :: rest => if Z.eqb (depth h) 1 then rest else hs
  | [] => hs
  end.

(** [if (entry.rendered) { ... }] *)
Definition stripRendered (r : Rendered) : Rendered :=
  {| html := H1.stripH1Html (html r);
     metadata :=
       match metadata r with
       | Some m =>
           Some {| headings :=
                     match headings m with
                     | Some hs => Some (stripHeadings hs)
                     | None => None
                     end |}
       | None => None
       end |}.

(** The [set] of the wrapped store: the entry that it hands to the
    original [store.set]. *)
Definition wrappedSet (entry : Entry) : Entry :=
  {| entryId := entryId entry;
     entryData := entryData entry;
     body := stripBody (body entry);
     rendered :=
       match rendered entry with
       | Some r => Some (stripRendered r)
       | None => None
       end |}.

End Loader.

(* ================================================================== *)
(** * A sample site *)
(* ================================================================== *)

(** Documents, a directory tree and parsers in the shape of the test
    fixtures of the repository; the properties below are applied to
    them. *)
Module Samples.
Import Fs.

Definition sampleBase : Data :=
  [("sidebar", VObj [("order", VNum 1); ("label", VStr "Guide")]);
   ("tags", VArr [VStr "a"]);
   ("a", VNum 1)].

Definition sampleOverlay : Data :=
  [("sidebar", VObj [("order", VNum 5)]);
   ("tags", VArr [VStr "b"; VStr "c"]);
   ("a", VNull);
   ("constructor", VStr "bad");
   ("draft", VBool true)].

Definition pollutedOverlay : Data :=
  [("__proto__", VObj [("polluted", VBool true)]);
   ("constructor", VStr "bad");
   ("title", VStr "T")].

Definition installation : Data :=
  [("title", VStr "Installation"); ("sidebar", VObj [("order", VNum 1)])].

Definition centralYaml : string :=
  "{guides: {installation.md: {description: d, sidebar: {order: 9, label: Guide}}}, about.md: {title: About}}".

Definition centralData : Data :=
  [("guides",
    VObj [("installation.md",
           VObj [("description", VStr "d");
                 ("sidebar", VObj [("order", VNum 9); ("label", VStr "Guide")])])]);
   ("about.md", VObj [("title", VStr "About")])].

Definition rootYaml : string :=
  "{README.md: {title: Home}, notes.txt: {pinned: true}, version: 2, tags: [a, b], draft: null}".

Definition rootData : Data :=
  [("README.md", VObj [("title", VStr "Home")]);
   ("notes.txt", VObj [("pinned", VBool true)]);
   ("version", VNum 2);
   ("tags", VArr [VStr "a"; VStr "b"]);
   ("draft", VNull)].

Definition guidesJson : string :=
  "{'installation.md': {'sidebar': {'order': 1}}}".

Definition guidesData : Data :=
  [("installation.md", VObj [("sidebar", VObj [("order", VNum 1)])])].

Definition malformed : string := "{".

Definition knownDocuments : list (string * Data) :=
  [(centralYaml, centralData); (rootYaml, rootData); (guidesJson, guidesData)].

(** Parsers that know the sample documents by their text and reject
    every other text. *)
Definition sampleParsers : Parsers :=
  {| JSON_parse := fun content =>
       match lookup content knownDocuments with
       | Some data => Ok data
       | None => Throw (SyntaxError "Unexpected end of JSON input")
       end;
     parseYaml := fun content =>
       if String.eqb content "" then Ok None
       else
         match lookup content knownDocuments with
         | Some data => Ok (Some data)
         | None => Throw (SyntaxError "Flow map must end with a }")
         end |}.

Definition docsTree : Node :=
  Dir [("frontmatter.yml", File rootYaml);
       ("README.md", File "# Home");
       ("guides",
        Dir [("frontmatter.json", File guidesJson);
             ("installation.md", File "# Installation Guide")]);
       (".git", Dir [("frontmatter.yml", File malformed)]);
       ("node_modules", Dir [("frontmatter.yml", File malformed)])].

Definition sampleOptions : FrontmatterMap.LoadMapOptions :=
  {| FrontmatterMap.centralFile := Some "/site/frontmatter.yml";
     FrontmatterMap.at_centralFile := Some (File centralYaml);
     FrontmatterMap.basePath := "/site/docs";
     FrontmatterMap.at_basePath := Some docsTree |}.

(** The entries that the loader test hands to [store.set]. *)
Definition withH1Entry : Loader.Entry :=
  {| Loader.entryId := "guides/with-h1";
     Loader.entryData := [("draft", VBool true)];
     Loader.body :=
       Some ("# Installation Guide" ++ Text.nl ++ Text.nl
             ++ "Follow these steps to install.");
     Loader.rendered :=
       Some {| Loader.html :=
                 "<h1>Installation Guide</h1>" ++ Text.nl
                 ++ "<p>Follow these steps to install.</p>";
               Loader.metadata :=
                 Some {| Loader.headings :=
                   Some [ {| Loader.depth := 1;
                             Loader.slug := "installation-guide";
                             Loader.text := "Installation Guide" |};
                          {| Loader.depth := 2;
                             Loader.slug := "step-one";
                             Loader.text := "Step One" |} ] |} |} |}.

Definition buriedBody : string :=
  "Some intro text." ++ Text.nl ++ Text.nl ++ "# Buried Heading"
  ++ Text.nl ++ Text.nl ++ "More content.".

Definition buriedHtml : string :=
  "<p>Some intro text.</p>" ++ Text.nl ++ "<h1>Buried Heading</h1>"
  ++ Text.nl ++ "<p>More content.</p>".

Definition buriedHeading : Loader.Heading :=
  {| Loader.depth := 1; Loader.slug := "buried-heading";
     Loader.text := "Buried Heading" |}.

Definition buriedEntry : Loader.Entry :=
  {| Loader.entryId := "buried-h1";
     Loader.entryData := [("title", VStr "Has Buried H1")];
     Loader.body := Some buriedBody;
     Loader.rendered :=
       Some {| Loader.html := buriedHtml;
               Loader.metadata :=
                 Some {| Loader.headings := Some [buriedHeading] |} |} |}.

(** A content file with a leading heading, and a [parseData] argument
    whose title is the empty string. *)
Definition withH1File : string :=
  "---" ++ Text.nl ++ "title: ''" ++ Text.nl ++ "draft: true" ++ Text.nl
  ++ "---" ++ Text.nl ++ Text.nl
  ++ "# Installation Guide" ++ Text.nl ++ Text.nl ++ "Steps.".

Definition emptyTitleProps : Loader.ParseDataProps :=
  {| Loader.id := "guides/with-h1";
     Loader.data := [("title", VStr ""); ("draft", VBool true)];
     Loader.filePath := Some "docs/guides/with-h1.md" |}.

Definition untitledProps : Loader.ParseDataProps :=
  {| Loader.id := "guides/with-h1";
     Loader.data := [("draft", VBool true)];
     Loader.filePath := Some "docs/guides/with-h1.md" |}.

Definition sampleMap : list (string * Data) :=
  [("guides/with-h1.md",
    [("description", VStr "d"); ("sidebar", VObj [("order", VNum 1)])])].


Definition flatYaml : string :=
  "{guides/installation.md: {title: Flat}, README.md: {title: Home}}".

Definition flatData : Data :=
  [("guides/installation.md", VObj [("title", VStr "Flat")]);
   ("README.md", VObj [("title", VStr "Home")])].

Definition overridingParsers : Parsers :=
  {| JSON_parse := fun content =>
       match lookup content ((flatYaml, flatData) :: knownDocuments) with
       | Some data => Ok data
       | None => Throw (SyntaxError "Unexpected end of JSON input")
       end;
     parseYaml := fun content =>
       match lookup content ((flatYaml, flatData) :: knownDocuments) with
       | Some data => Ok (Some data)
       | None => Throw (SyntaxError "Flow map must end with a }")
       end |}.

Definition overridingTree : Node :=
  Dir [("frontmatter.yaml", File flatYaml);
       ("guides", Dir [("frontmatter.json", File guidesJson)])].

End Samples.

(* ================================================================== *)
(** * Properties of tables and values *)
(* ================================================================== *)

Section TableFacts.
Context {V : Type}.
Implicit Types (m : list (string * V)) (k : string) (v : V).

Lemma lookup_set_eq k v m : lookup k (set k v m) = Some v.
Proof.
  induction m as [|[k' v'] m IH]; simpl.
  - now rewrite String.eqb_refl.
  - destruct (String.eqb k k') eqn:E; simpl.
    + now rewrite String.eqb_refl.
    + now rewrite E.
Qed.

Lemma lookup_set_ne k k' v m : k <> k' -> lookup k (set k' v m) = lookup k m.
Proof.
  intros Hne. induction m as [|[k0 v0] m IH]; simpl.
  - apply String.eqb_neq in Hne. now rewrite Hne.
  - destruct (String.eqb k' k0) eqn:E; simpl.
    + apply String.eqb_eq in E. subst k0.
      apply String.eqb_neq in Hne. now rewrite Hne.
    + destruct (String.eqb k k0); [reflexivity | apply IH].
Qed.

Lemma lookup_set k k' v m :
  lookup k (set k' v m) = if String.eqb k k' then Some v else lookup k m.
Proof.
  destruct (String.eqb k k') eqn:E.
  - apply String.eqb_eq in E. subst. apply lookup_set_eq.
  - apply String.eqb_neq in E. now apply lookup_set_ne.
Qed.

Lemma set_same k v m : lookup k m = Some v -> set k v m = m.
Proof.
  induction m as [|[k' v'] m IH]; simpl; [discriminate|].
  destruct (String.eqb k k') eqn:E.
  - apply String.eqb_eq in E. intros [= ->]. now subst.
  - intros H. now rewrite IH.
Qed.

Lemma lookup_In k v m : lookup k m = Some v -> In (k, v) m.
Proof.
  induction m as [|[k' v'] m IH]; simpl; [discriminate|].
  destruct (String.eqb k k') eqn:E.
  - apply String.eqb_eq in E. intros [= ->]. left. now subst.
  - intros H. right. now apply IH.
Qed.

Lemma lookup_None k m : lookup k m = None <-> ~ In k (keys m).
Proof.
  induction m as [|[k' v'] m IH]; simpl.
  - tauto.
  - destruct (String.eqb k k') eqn:E.
    + apply String.eqb_eq in E. subst. split; [discriminate | tauto].
    + apply String.eqb_neq in E. rewrite IH. split.
      * intros H [Heq | Hin]; [now subst | tauto].
      * tauto.
Qed.

Lemma lookup_Some_keys k v m : lookup k m = Some v -> In k (keys m).
Proof.
  intros H. apply lookup_In in H. now apply (in_map fst) in H.
Qed.

Lemma has_In k m : has k m = true <-> In k (keys m).
Proof.
  unfold has. destruct (lookup k m) eqn:E.
  - split; [intros _ | reflexivity]. now apply lookup_Some_keys in E.
  - split; [discriminate|]. intros H. now apply lookup_None in E.
Qed.

Lemma distinct_NoDup (l : list string) : distinct l = true <-> NoDup l.
Proof.
  induction l as [|k l IH]; simpl.
  - split; [constructor | reflexivity].
  - rewrite andb_true_iff, negb_true_iff, IH. split.
    + intros [Hk Hl]. constructor; [|assumption].
      intros Hin. apply not_true_iff_false in Hk. apply Hk.
      apply existsb_exists. exists k. split; [assumption | apply String.eqb_refl].
    + intros Hnd. inversion Hnd as [|? ? Hk Hl]; subst. split; [|assumption].
      apply not_true_iff_false. intros Hex.
      apply existsb_exists in Hex. destruct Hex as [x [Hin Hx]].
      apply String.eqb_eq in Hx. now subst.
Qed.

Lemma In_lookup k v m : NoDup (keys m) -> In (k, v) m -> lookup k m = Some v.
Proof.
  induction m as [|[k' v'] m IH]; simpl; [tauto|].
  intros Hnd [Heq | Hin].
  - injection Heq as -> ->. now rewrite String.eqb_refl.
  - inversion Hnd as [|? ? Hk Hl]; subst.
    destruct (String.eqb k k') eqn:E.
    + apply String.eqb_eq in E. subst. exfalso. apply Hk.
      now apply (in_map fst) in Hin.
    + now apply IH.
Qed.

Lemma keys_set k v m :
  keys (set k v m) = if has k m then keys m else (keys m ++ [k])%list.
Proof.
  unfold has. induction m as [|[k' v'] m IH]; simpl; [reflexivity|].
  destruct (String.eqb k k') eqn:E; simpl.
  - apply String.eqb_eq in E. now subst.
  - rewrite IH. now destruct (lookup k m).
Qed.

Lemma NoDup_set k v m : NoDup (keys m) -> NoDup (keys (set k v m)).
Proof.
  intros Hnd. rewrite keys_set. destruct (has k m) eqn:E; [assumption|].
  apply NoDup_app; [assumption | repeat constructor; simpl; tauto |].
  intros x Hx [<- | []].
  apply has_In in Hx. congruence.
Qed.

Lemma fold_left_fixed {A B : Type} (f : A -> B -> A) (l : list B) (a : A) :
  (forall x, In x l -> f a x = a) -> fold_left f l a = a.
Proof.
  induction l as [|x l IH]; simpl; intros H; [reflexivity|].
  rewrite (H x) by now left. apply IH. intros y Hy. apply H. now right.
Qed.

End TableFacts.

Lemma wfData_inv (d : Data) :
  wfData d = true ->
  NoDup (keys d) /\ forall k v, In (k, v) d -> wfValue v = true.
Proof.
  unfold wfData. simpl. rewrite andb_true_iff. intros [Hd Hall]. split.
  - now apply distinct_NoDup.
  - intros k v Hin. rewrite forallb_forall in Hall. apply (Hall (k, v) Hin).
Qed.

(* ================================================================== *)
(** * Properties of the scanners *)
(* ================================================================== *)

Module TextFacts.
Import Text.

Lemma app_assoc (a b c : string) : (a ++ b) ++ c = a ++ b ++ c.
Proof. induction a as [|x a IH]; simpl; [reflexivity | now rewrite IH]. Qed.

Lemma app_empty_r (a : string) : a ++ "" = a.
Proof. induction a as [|x a IH]; simpl; [reflexivity | now rewrite IH]. Qed.

Lemma length_app (a b : string) :
  String.length (a ++ b) = String.length a + String.length b.
Proof. induction a as [|x a IH]; simpl; [reflexivity | now rewrite IH]. Qed.

Lemma app_inv_head (a b c : string) : a ++ b = a ++ c -> b = c.
Proof.
  induction a as [|x a IH]; simpl; intros H; [exact H|].
  injection H as H. now apply IH.
Qed.

Lemma allChars_app (p : ascii -> bool) (a b : string) :
  allChars p (a ++ b) = allChars p a && allChars p b.
Proof.
  induction a as [|x a IH]; simpl; [reflexivity|].
  now rewrite IH, andb_assoc.
Qed.

Lemma allChars_weaken (p q : ascii -> bool) (s : string) :
  (forall c, p c = true -> q c = true) ->
  allChars p s = true -> allChars q s = true.
Proof.
  intros Hpq. induction s as [|x s IH]; simpl; [reflexivity|].
  rewrite !andb_true_iff. intros [Hx Hs]. split; [now apply Hpq | now apply IH].
Qed.

Lemma takeWhile_dropWhile (p : ascii -> bool) (s : string) :
  takeWhile p s ++ dropWhile p s = s.
Proof.
  induction s as [|x s IH]; simpl; [reflexivity|].
  destruct (p x); simpl; [now rewrite IH | reflexivity].
Qed.

Lemma allChars_takeWhile (p : ascii -> bool) (s : string) :
  allChars p (takeWhile p s) = true.
Proof.
  induction s as [|x s IH]; simpl; [reflexivity|].
  destruct (p x) eqn:E; simpl; [now rewrite E | reflexivity].
Qed.

Lemma stopsAt_dropWhile (p : ascii -> bool) (s : string) :
  stopsAt p (dropWhile p s) = true.
Proof.
  induction s as [|x s IH]; simpl; [reflexivity|].
  destruct (p x) eqn:E; simpl; [exact IH | now rewrite E].
Qed.

Lemma takeWhile_stop (p : ascii -> bool) (s : string) :
  stopsAt p s = true -> takeWhile p s = "".
Proof.
  destruct s as [|x s]; simpl; [reflexivity|].
  now destruct (p x).
Qed.

Lemma dropWhile_stop (p : ascii -> bool) (s : string) :
  stopsAt p s = true -> dropWhile p s = s.
Proof.
  destruct s as [|x s]; simpl; [reflexivity|].
  now destruct (p x).
Qed.

Lemma takeWhile_app (p : ascii -> bool) (a s : string) :
  allChars p a = true -> takeWhile p (a ++ s) = a ++ takeWhile p s.
Proof.
  induction a as [|x a IH]; simpl; [reflexivity|].
  rewrite andb_true_iff. intros [-> Ha]. now rewrite IH.
Qed.

Lemma dropWhile_app (p : ascii -> bool) (a s : string) :
  allChars p a = true -> dropWhile p (a ++ s) = dropWhile p s.
Proof.
  induction a as [|x a IH]; simpl; [reflexivity|].
  rewrite andb_true_iff. intros [-> Ha]. now apply IH.
Qed.

(** A greedy class splits the text in one way only. *)
Lemma takeWhile_split (p : ascii -> bool) (a s : string) :
  allChars p a = true -> stopsAt p s = true ->
  takeWhile p (a ++ s) = a /\ dropWhile p (a ++ s) = s.
Proof.
  intros Ha Hs. rewrite takeWhile_app, dropWhile_app by assumption.
  rewrite takeWhile_stop, dropWhile_stop by assumption.
  now rewrite app_empty_r.
Qed.

Lemma stripPrefix_app (lit s : string) : stripPrefix lit (lit ++ s) = Some s.
Proof.
  induction lit as [|x lit IH]; simpl; [now destruct s|].
  now rewrite Ascii.eqb_refl.
Qed.

Lemma stripPrefix_Some (lit s rest : string) :
  stripPrefix lit s = Some rest <-> s = lit ++ rest.
Proof.
  split.
  - revert s. induction lit as [|x lit IH]; intros s; simpl.
    + destruct s; now intros [= ->].
    + destruct s as [|y s]; [discriminate|].
      destruct (Ascii.eqb x y) eqn:E; [|discriminate].
      apply Ascii.eqb_eq in E. subst y. intros H. now rewrite (IH _ H).
  - intros ->. apply stripPrefix_app.
Qed.

Lemma length_dropNewline (s : string) :
  String.length (dropNewline s) <= String.length s.
Proof.
  destruct s as [|c s]; simpl; [lia|]. destruct (isNewline c); simpl; lia.
Qed.

Lemma length_dropWhile (p : ascii -> bool) (s : string) :
  String.length (dropWhile p s) <= String.length s.
Proof.
  induction s as [|c s IH]; simpl; [lia|]. destruct (p c); simpl; lia.
Qed.

Lemma length_stripPrefix (lit s rest : string) :
  stripPrefix lit s = Some rest ->
  String.length s = String.length lit + String.length rest.
Proof. intros H. apply stripPrefix_Some in H. subst. apply length_app. Qed.

Lemma lazyUntil_Some (p : ascii -> bool) (lit s run rest : string) :
  lazyUntil p lit s = Some (run, rest) -> s = run ++ lit ++ rest.
Proof.
  revert run. induction s as [|c s IH]; intros run; cbn [lazyUntil].
  - destruct (stripPrefix lit "") as [r|] eqn:E; [|discriminate].
    intros [= <- <-]. now apply stripPrefix_Some in E.
  - destruct (stripPrefix lit (String c s)) as [r|] eqn:E.
    + intros [= <- <-]. now apply stripPrefix_Some in E.
    + destruct (p c); [|discriminate].
      destruct (lazyUntil p lit s) as [[run' rest']|]; [|discriminate].
      intros [= <- <-]. simpl. f_equal. now apply IH.
Qed.

(** With matchers that use up characters, [length s] rounds are as good
    as any larger number of rounds. *)
Lemma replaceAllFrom_rounds (f : string -> option (string * string)) :
  consumes f ->
  forall n m s,
    String.length s <= n -> String.length s <= m ->
    replaceAllFrom f n s = replaceAllFrom f m s.
Proof.
  intros Hf. induction n as [|n IH]; intros m s Hn Hm.
  - destruct s; [|simpl in Hn; lia]. destruct m; [reflexivity|]. simpl.
    destruct (f "") as [[r rest]|] eqn:E; [|reflexivity].
    apply Hf in E. simpl in E. lia.
  - destruct m as [|m].
    + destruct s; [|simpl in Hm; lia]. simpl.
      destruct (f "") as [[r rest]|] eqn:E; [|reflexivity].
      apply Hf in E. simpl in E. lia.
    + simpl. destruct (f s) as [[r rest]|] eqn:E.
      * apply Hf in E. f_equal. apply IH; lia.
      * destruct s as [|c s]; [reflexivity|]. simpl in Hn, Hm.
        f_equal. apply IH; lia.
Qed.

Lemma isNewline_eq (c : ascii) : isNewline c = true -> c = "010"%char.
Proof. apply Ascii.eqb_eq. Qed.

Lemma isHSpace_nl : isHSpace "010" = false.
Proof. reflexivity. Qed.

Lemma isDot_stops (tail : string) :
  stopsAt isDot tail = match tail with
                       | "" => true
                       | String c _ => isLineTerminator c
                       end.
Proof. destruct tail as [|c t]; simpl; [reflexivity|]. unfold isDot. now rewrite negb_involutive. Qed.

End TextFacts.

(* ================================================================== *)
(** * Properties of [deepMerge] *)
(* ================================================================== *)

Module MergeSpec.
Import Merge.

(** [deepMerge] is its loop: the copy of [target], then one [mergeStep]
    per entry of [source]. *)
Lemma deepMerge_loop (target source : Data) :
  deepMerge target source = fold_left mergeStep source target.
Proof.
  unfold deepMerge. simpl.
  revert target. induction source as [|[key sVal] rest IH]; intros target.
  - reflexivity.
  - simpl. destruct (blocked key) eqn:Hb.
    + apply IH.
    + unfold assign, deepMerge.
      destruct (lookup key target) as [[| | | | | |tVal]|]; try apply IH;
      destruct sVal; apply IH.
Qed.

Lemma lookup_mergeStep k (result : Data) (key : string) (sVal : Value) :
  lookup k (mergeStep result (key, sVal)) =
  if String.eqb k key && negb (blocked key)
  then Some (assign (lookup key result) sVal)
  else lookup k result.
Proof.
  unfold mergeStep. destruct (blocked key); simpl.
  - now rewrite andb_false_r.
  - rewrite andb_true_r. apply lookup_set.
Qed.

(** What the merged record holds under a key. *)
Lemma lookup_deepMerge (target source : Data) (k : string) :
  NoDup (keys source) ->
  lookup k (deepMerge target source) =
  match lookup k source with
  | Some sVal =>
      if blocked k then lookup k target
      else Some (assign (lookup k target) sVal)
  | None => lookup k target
  end.
Proof.
  rewrite deepMerge_loop. revert target.
  induction source as [|[key sVal] rest IH]; intros target Hnd.
  - reflexivity.
  - inversion Hnd as [|? ? Hkey Hrest]; subst.
    cbn [fold_left]. rewrite (IH _ Hrest). cbn [lookup].
    rewrite !lookup_mergeStep.
    destruct (String.eqb k key) eqn:E.
    + apply String.eqb_eq in E. subst key.
      assert (Hnone : lookup k rest = None) by now apply lookup_None.
      rewrite Hnone. simpl. now destruct (blocked k).
    + simpl. reflexivity.
Qed.

(** A blocked key of the overlay is never written: under a blocked key
    the result holds what the base holds. *)
Lemma lookup_deepMerge_blocked (target source : Data) (k : string) :
  blocked k = true -> lookup k (deepMerge target source) = lookup k target.
Proof.
  intros Hb. rewrite deepMerge_loop. revert target.
  induction source as [|[key sVal] rest IH]; intros target; [reflexivity|].
  cbn [fold_left]. rewrite IH, lookup_mergeStep.
  destruct (String.eqb k key) eqn:E; [|reflexivity].
  apply String.eqb_eq in E. subst key. now rewrite Hb.
Qed.

Lemma has_mergeStep k (result : Data) (entry : string * Value) :
  has k result = true -> has k (mergeStep result entry) = true.
Proof.
  destruct entry as [key sVal]. unfold has. rewrite lookup_mergeStep.
  now destruct (String.eqb k key && negb (blocked key)).
Qed.

Lemma has_fold_mergeStep k (source result : Data) :
  has k result = true -> has k (fold_left mergeStep source result) = true.
Proof.
  revert result. induction source as [|entry rest IH]; intros result H.
  - exact H.
  - apply IH. now apply has_mergeStep.
Qed.

(** Keys of the base stay. *)
Lemma has_deepMerge_target k (target source : Data) :
  has k target = true -> has k (deepMerge target source) = true.
Proof. rewrite deepMerge_loop. apply has_fold_mergeStep. Qed.

(** Keys of the overlay that are not blocked arrive. *)
Lemma has_deepMerge_source k (target source : Data) :
  has k source = true -> blocked k = false ->
  has k (deepMerge target source) = true.
Proof.
  rewrite deepMerge_loop. revert target.
  induction source as [|[key sVal] rest IH]; intros target Hk Hb.
  - discriminate.
  - cbn [fold_left]. destruct (String.eqb k key) eqn:E.
    + apply String.eqb_eq in E. subst key.
      apply has_fold_mergeStep. unfold has.
      rewrite lookup_mergeStep, String.eqb_refl, Hb. reflexivity.
    + apply IH; [|assumption]. unfold has in *. simpl in Hk.
      now rewrite E in Hk.
Qed.

(** No key comes from anywhere else. *)
Lemma has_deepMerge_inv k (target source : Data) :
  has k (deepMerge target source) = true ->
  has k target = true \/ (has k source = true /\ blocked k = false).
Proof.
  rewrite deepMerge_loop. revert target.
  induction source as [|[key sVal] rest IH]; intros target H.
  - now left.
  - cbn [fold_left] in H. apply IH in H. destruct H as [H | [H Hb]].
    + unfold has in H. rewrite lookup_mergeStep in H.
      destruct (String.eqb k key) eqn:E; simpl in H.
      * apply String.eqb_eq in E. subst key.
        destruct (blocked k) eqn:Hb; simpl in H; [now left|].
        right. split; [|reflexivity]. unfold has. simpl.
        now rewrite String.eqb_refl.
      * now left.
    + right. split; [|assumption]. unfold has in *. simpl.
      now destruct (String.eqb k key).
Qed.

(** Merging a record over itself changes nothing, and merging the same
    overlay a second time changes nothing. *)
Lemma deepMerge_again_value (v : Value) :
  match v with
  | VObj source =>
      wfData source = true ->
      deepMerge source source = source /\
      forall target,
        deepMerge (deepMerge target source) source = deepMerge target source
  | _ => True
  end.
Proof.
  induction v as [| | | | | |source IH] using Value_deep_ind; try exact I.
  intros Hwf. destruct (wfData_inv _ Hwf) as [Hnd Hvals].
  rewrite Forall_forall in IH.
  assert (Hself : forall sVal, (exists k, In (k, sVal) source) ->
                  assign (Some sVal) sVal = sVal).
  { intros sVal [k Hin]. destruct sVal; try reflexivity. simpl.
    specialize (IH _ Hin). simpl in IH.
    destruct (IH (Hvals _ _ Hin)) as [-> _]. reflexivity. }
  split.
  - rewrite deepMerge_loop. apply fold_left_fixed.
    intros [key sVal] Hin. unfold mergeStep.
    destruct (blocked key); [reflexivity|].
    rewrite (In_lookup _ _ _ Hnd Hin), Hself by eauto.
    apply set_same. now apply In_lookup.
  - intros target. rewrite (deepMerge_loop (deepMerge target source)).
    apply fold_left_fixed. intros [key sVal] Hin. unfold mergeStep.
    destruct (blocked key) eqn:Hb; [reflexivity|].
    assert (Hres : lookup key (deepMerge target source)
                   = Some (assign (lookup key target) sVal)).
    { rewrite lookup_deepMerge by assumption.
      now rewrite (In_lookup _ _ _ Hnd Hin), Hb. }
    rewrite Hres. apply set_same. rewrite Hres. f_equal. symmetry.
    destruct (lookup key target) as [[| | | | | |t]|];
      try (cbn [assign]; apply Hself; eauto).
    destruct sVal as [| | | | | |s]; try reflexivity.
    cbn [assign]. specialize (IH _ Hin). cbn [snd] in IH.
    destruct (IH (Hvals _ _ Hin)) as [_ Hagain]. now rewrite Hagain.
Qed.

Lemma deepClean_set (k : string) (v : Value) (m : Data) :
  blocked k = false -> deepClean v = true -> deepClean (VObj m) = true ->
  deepClean (VObj (set k v m)) = true.
Proof.
  intros Hk Hv. simpl. induction m as [|[k' v'] m IH]; simpl.
  - now rewrite Hk, Hv.
  - rewrite andb_true_iff. intros [H1 H2].
    destruct (String.eqb k k'); simpl.
    + now rewrite Hk, Hv, H2.
    + now rewrite H1, IH.
Qed.

Lemma deepClean_lookup (k : string) (v : Value) (m : Data) :
  deepClean (VObj m) = true -> lookup k m = Some v -> deepClean v = true.
Proof.
  simpl. rewrite forallb_forall. intros H Hl. apply lookup_In in Hl.
  specialize (H _ Hl). simpl in H. now apply andb_true_iff in H.
Qed.

Lemma deepClean_deepMerge_value (v : Value) :
  match v with
  | VObj source =>
      (forall k sVal, In (k, sVal) source -> blocked k = false ->
                      deepClean sVal = true) ->
      forall target, deepClean (VObj target) = true ->
                     deepClean (VObj (deepMerge target source)) = true
  | _ => True
  end.
Proof.
  induction v as [| | | | | |source IH] using Value_deep_ind; try exact I.
  intros Hsrc target. rewrite deepMerge_loop. revert target.
  induction source as [|[key sVal] rest IHrest]; intros target Ht.
  - exact Ht.
  - cbn [fold_left]. inversion IH as [|? ? IHhead IHtail]; subst.
    apply IHrest; [assumption | intros; eapply Hsrc; [right|]; eassumption |].
    unfold mergeStep. destruct (blocked key) eqn:Hb; [assumption|].
    assert (HsVal : deepClean sVal = true) by (eapply Hsrc; [left|]; eauto).
    apply deepClean_set; [assumption| |assumption].
    unfold assign.
    destruct (lookup key target) as [[| | | | | |t]|] eqn:Hl; try exact HsVal.
    destruct sVal as [| | | | | |s]; try exact HsVal.
    cbn [snd] in IHhead. apply IHhead.
    + intros k v Hin _. simpl in HsVal. rewrite forallb_forall in HsVal.
      specialize (HsVal _ Hin). now apply andb_true_iff in HsVal.
    + exact (deepClean_lookup key _ target Ht Hl).
Qed.

(** ** The claims about [deepMerge] *)

(** C1.  Result guarantee of [deepMerge(base, overlay)]: every key of
    [base] and every key of [overlay] that is not blocked is a key of the
    result.  Under a key that both hold (and that is not blocked, blocked
    keys of the overlay being skipped), the result holds the recursive
    merge when both values are plain records, and the overlay's value as
    it is otherwise: an array replaces an array, and an explicit [null]
    overwrites what the base holds. *)
Theorem deepMerge_result_guarantee (base overlay : Data) :
  distinct (keys overlay) = true ->
  (forall k, has k base = true -> has k (deepMerge base overlay) = true) /\
  (forall k, has k overlay = true -> blocked k = false ->
             has k (deepMerge base overlay) = true) /\
  (forall k b o,
      blocked k = false ->
      lookup k base = Some (VObj b) -> lookup k overlay = Some (VObj o) ->
      lookup k (deepMerge base overlay) = Some (VObj (deepMerge b o))) /\
  (forall k bVal oVal,
      blocked k = false ->
      lookup k base = Some bVal -> lookup k overlay = Some oVal ->
      isPlainObject bVal && isPlainObject oVal = false ->
      lookup k (deepMerge base overlay) = Some oVal) /\
  (forall old new,
      deepMerge [("tags", VArr old)] [("tags", VArr new)] = [("tags", VArr new)]) /\
  (forall v, deepMerge [("a", v)] [("a", VNull)] = [("a", VNull)]).
Proof.
  intros Hd. apply distinct_NoDup in Hd.
  split; [|split; [|split; [|split; [|split]]]].
  - intros k. apply has_deepMerge_target.
  - intros k. apply has_deepMerge_source.
  - intros k b o Hb Hbase Hover.
    now rewrite lookup_deepMerge, Hover, Hb, Hbase by assumption.
  - intros k bVal oVal Hb Hbase Hover Hplain.
    rewrite lookup_deepMerge, Hover, Hb, Hbase by assumption.
    f_equal. destruct bVal; try reflexivity.
    destruct oVal; try reflexivity. discriminate.
  - reflexivity.
  - intros v. rewrite deepMerge_loop. cbn. now destruct v.
Qed.

Lemma deepMerge_result_guarantee_witness :
  distinct (keys Samples.sampleOverlay) = true /\
  has "draft" (deepMerge Samples.sampleBase Samples.sampleOverlay) = true /\
  lookup "sidebar" (deepMerge Samples.sampleBase Samples.sampleOverlay)
    = Some (VObj (deepMerge [("order", VNum 1); ("label", VStr "Guide")]
                            [("order", VNum 5)])) /\
  lookup "a" (deepMerge Samples.sampleBase Samples.sampleOverlay) = Some VNull.
Proof.
  destruct (deepMerge_result_guarantee Samples.sampleBase Samples.sampleOverlay eq_refl)
    as (_ & Hsrc & Hrec & Hrepl & _).
  split; [reflexivity|]. split; [|split].
  - apply Hsrc; reflexivity.
  - apply Hrec; reflexivity.
  - apply (Hrepl "a" (VNum 1) VNull); reflexivity.
Defined.

(** C2, as the code has it.  A blocked key ([__proto__], [constructor])
    of the overlay is never copied and never recursed into: under a
    blocked key the result holds exactly what the base holds there.  So
    when the base is free of blocked keys at every depth, and so are the
    values that the overlay holds under its keys that are not blocked,
    the result is free of them at every depth, whatever blocked keys the
    overlay has.  Blocked keys of the base itself are kept. *)
Theorem deepMerge_blocked_keys (A B : Data) (k : string) :
  blocked k = true ->
  lookup k (deepMerge A B) = lookup k A /\
  (deepClean (VObj A) = true ->
   forallb (fun kv => blocked (fst kv) || deepClean (snd kv)) B = true ->
   deepClean (VObj (deepMerge A B)) = true).
Proof.
  intros Hb. split.
  - now apply lookup_deepMerge_blocked.
  - intros HA HB. apply (deepClean_deepMerge_value (VObj B)); [|assumption].
    intros key sVal Hin Hkey. rewrite forallb_forall in HB.
    specialize (HB _ Hin). simpl in HB. now rewrite Hkey in HB.
Qed.

Lemma deepMerge_blocked_keys_witness :
  blocked "__proto__" = true /\
  lookup "__proto__" (deepMerge [("a", VNum 1)] Samples.pollutedOverlay) = None /\
  deepClean (VObj (deepMerge [("a", VNum 1)] Samples.pollutedOverlay)) = true.
Proof.
  destruct (deepMerge_blocked_keys [("a", VNum 1)] Samples.pollutedOverlay "__proto__" eq_refl)
    as [Hkept Hclean].
  split; [reflexivity|]. split.
  - exact Hkept.
  - apply Hclean; reflexivity.
Defined.

(** C2 as the specification words it fails: a blocked key of the base is
    copied by the spread [{ ...target }], and a blocked key nested in an
    overlay value that is copied as it is arrives with that value. *)
Lemma deepMerge_blocked_keys_counterexample :
  has "constructor" (deepMerge [("constructor", VStr "kept")] []) = true /\
  deepMerge [] [("a", VObj [("__proto__", VObj [("polluted", VBool true)])])]
    = [("a", VObj [("__proto__", VObj [("polluted", VBool true)])])] /\
  ~ (forall A B : Data, deepClean (VObj (deepMerge A B)) = true).
Proof.
  split; [reflexivity|]. split; [reflexivity|].
  intros H. specialize (H [("constructor", VStr "kept")] []). discriminate H.
Qed.

(** C3.  Applying the same overlay a second time changes nothing:
    [deepMerge(deepMerge(A, B), B)] equals [deepMerge(A, B)]. *)
Theorem deepMerge_idempotent (A B : Data) :
  wfData B = true ->
  deepMerge (deepMerge A B) B = deepMerge A B.
Proof.
  intros Hwf. destruct (deepMerge_again_value (VObj B) Hwf) as [_ H]. apply H.
Qed.

Lemma deepMerge_idempotent_witness :
  wfData Samples.sampleOverlay = true /\
  deepMerge (deepMerge Samples.sampleBase Samples.sampleOverlay) Samples.sampleOverlay
    = deepMerge Samples.sampleBase Samples.sampleOverlay.
Proof.
  split; [reflexivity | apply (deepMerge_idempotent Samples.sampleBase Samples.sampleOverlay); reflexivity].
Defined.

End MergeSpec.

(* ================================================================== *)
(** * Properties of the frontmatter map *)
(* ================================================================== *)

Module FrontmatterMapSpec.
Import Fs FrontmatterMap.

Section SetAllFacts.
Context {V : Type}.
Implicit Types (src dst : list (string * V)).

Lemma has_set_old k k' (v : V) dst :
  has k dst = true -> has k (set k' v dst) = true.
Proof.
  unfold has. rewrite lookup_set. now destruct (String.eqb k k').
Qed.

Lemma has_set_new k (v : V) dst : has k (set k v dst) = true.
Proof. unfold has. now rewrite lookup_set_eq. Qed.

Lemma has_setAll_dst k src dst :
  has k dst = true -> has k (setAll src dst) = true.
Proof.
  unfold setAll. revert dst. induction src as [|[k' v'] src IH]; intros dst H.
  - exact H.
  - simpl. apply IH. now apply has_set_old.
Qed.

Lemma has_setAll_src k src dst :
  has k src = true -> has k (setAll src dst) = true.
Proof.
  unfold setAll. revert dst. induction src as [|[k' v'] src IH]; intros dst H.
  - discriminate.
  - simpl. unfold has in H. simpl in H. destruct (String.eqb k k') eqn:E.
    + apply String.eqb_eq in E. subst k'.
      apply (has_setAll_dst k src). apply has_set_new.
    + apply IH. exact H.
Qed.

Lemma lookup_setAll_inv k (v : V) src dst :
  lookup k (setAll src dst) = Some v ->
  lookup k dst = Some v \/ In (k, v) src.
Proof.
  unfold setAll. revert dst. induction src as [|[k' v'] src IH]; intros dst H.
  - now left.
  - simpl in H. apply IH in H. destruct H as [H | H]; [|right; now right].
    rewrite lookup_set in H. destruct (String.eqb k k') eqn:E.
    + apply String.eqb_eq in E. injection H as ->. subst. right. now left.
    + now left.
Qed.

Lemma NoDup_setAll src dst : NoDup (keys dst) -> NoDup (keys (setAll src dst)).
Proof.
  unfold setAll. revert dst. induction src as [|[k v] src IH]; intros dst H.
  - exact H.
  - simpl. apply IH. now apply NoDup_set.
Qed.

End SetAllFacts.

(** ** [flattenToMap] *)

Lemma flattenToMap_loop (data : Data) (prefix : string) :
  flattenToMap data prefix = fold_left (flattenStep prefix) data [].
Proof.
  unfold flattenToMap. simpl. generalize (@nil (string * Data)).
  induction data as [|[key value] rest IH]; intros map.
  - reflexivity.
  - simpl. destruct value; try apply IH.
    unfold flattenStep. simpl. destruct (isContentFile key); apply IH.
Qed.

Lemma NoDup_fold_flattenStep (prefix : string) (entries : Data)
  (map : list (string * Data)) :
  NoDup (keys map) -> NoDup (keys (fold_left (flattenStep prefix) entries map)).
Proof.
  revert map. induction entries as [|[k v] es IH]; intros map Hm; [exact Hm|].
  cbn [fold_left]. apply IH. unfold flattenStep. cbn [fst snd].
  destruct v; try exact Hm.
  destruct (isContentFile k); [now apply NoDup_set | now apply NoDup_setAll].
Qed.

(** The map is a map: no path occurs twice. *)
Lemma NoDup_flattenToMap (data : Data) (prefix : string) :
  NoDup (keys (flattenToMap data prefix)).
Proof.
  rewrite flattenToMap_loop. apply NoDup_fold_flattenStep. constructor.
Qed.

Lemma Leaf_LeafOf (data : Data) (prefix path : string) (record : Data) :
  Leaf data prefix path record <->
  exists entry, In entry data /\ LeafOf prefix entry path record.
Proof.
  split.
  - intros H. destruct H as [data prefix key props Hin Hc
                            | data prefix key props path record Hin Hc Hl].
    + exists (key, VObj props). split; [assumption|]. left. auto.
    + exists (key, VObj props). split; [assumption|]. right. auto.
  - intros [[key value] [Hin H]]. unfold LeafOf in H. simpl in H.
    destruct value; try contradiction.
    destruct H as [(Hc & -> & ->) | (Hc & Hl)].
    + now apply Leaf_here.
    + now apply (Leaf_below data prefix key props).
Qed.

(** Every entry of the map is a leaf of the document. *)
Lemma flattenToMap_sound_value (v : Value) :
  match v with
  | VObj data =>
      forall prefix path record,
        lookup path (flattenToMap data prefix) = Some record ->
        Leaf data prefix path record
  | _ => True
  end.
Proof.
  induction v as [| | | | | |data IH] using Value_deep_ind; try exact I.
  intros prefix path record. rewrite flattenToMap_loop.
  assert (Hgen : forall map,
    lookup path (fold_left (flattenStep prefix) data map) = Some record ->
    lookup path map = Some record \/
    exists entry, In entry data /\ LeafOf prefix entry path record).
  { induction data as [|[key value] rest IHrest]; intros map H.
    - now left.
    - inversion IH as [|? ? IHhead IHtail]; subst.
      cbn [fold_left] in H. apply (IHrest IHtail) in H.
      destruct H as [H | [entry [Hin Hl]]].
      + unfold flattenStep in H. cbn [fst snd] in H.
        destruct value; try (now left).
        destruct (isContentFile key) eqn:Hc.
        * rewrite lookup_set in H.
          destruct (String.eqb path (under prefix key)) eqn:E; [|now left].
          apply String.eqb_eq in E. injection H as ->.
          right. exists (key, VObj record). split; [now left|].
          left. auto.
        * apply lookup_setAll_inv in H. destruct H as [H | H]; [now left|].
          right. exists (key, VObj props). split; [now left|]. right.
          split; [assumption|]. cbn [snd] in IHhead. apply IHhead.
          apply In_lookup; [apply NoDup_flattenToMap | assumption].
      + right. exists entry. split; [now right | assumption]. }
  intros H. apply Hgen in H. destruct H as [H | H]; [discriminate|].
  now apply Leaf_LeafOf.
Qed.

Lemma has_flattenStep_old (prefix path : string) (map : list (string * Data))
  (entry : string * Value) :
  has path map = true -> has path (flattenStep prefix map entry) = true.
Proof.
  intros H. unfold flattenStep. destruct (snd entry); try exact H.
  destruct (isContentFile (fst entry)).
  - now apply has_set_old.
  - now apply has_setAll_dst.
Qed.

Lemma has_fold_flattenStep (prefix path : string) (entries : Data)
  (map : list (string * Data)) :
  has path map = true ->
  has path (fold_left (flattenStep prefix) entries map) = true.
Proof.
  revert map. induction entries as [|entry rest IH]; intros map H.
  - exact H.
  - apply IH. now apply has_flattenStep_old.
Qed.

(** Every leaf of the document, at any depth, has its entry in the map. *)
Lemma flattenToMap_complete (data : Data) (prefix path : string) (record : Data) :
  Leaf data prefix path record -> has path (flattenToMap data prefix) = true.
Proof.
  intros H.
  induction H as [data prefix key props Hin Hc
                 | data prefix key props path record Hin Hc Hl IH];
    rewrite flattenToMap_loop; generalize (@nil (string * Data)).
  - induction data as [|entry rest IHrest]; intros map; [contradiction|].
    cbn [fold_left]. destruct Hin as [-> | Hin]; [|now apply IHrest].
    apply has_fold_flattenStep. unfold flattenStep. cbn [fst snd].
    rewrite Hc. apply has_set_new.
  - induction data as [|entry rest IHrest]; intros map; [contradiction|].
    cbn [fold_left]. destruct Hin as [-> | Hin]; [|now apply IHrest].
    apply has_fold_flattenStep. unfold flattenStep. cbn [fst snd].
    rewrite Hc. now apply has_setAll_src.
Qed.


(** ** [parseDataFile] and [parseCentralFile] *)

Section WithParsers.
Context {parsers : Parsers}.

Lemma parseDataFile_file (filePath content : string) :
  parseDataFile filePath (Some (File content)) =
  match parseByExtension filePath content with
  | Ok data => Ok data
  | Throw cause =>
      Throw (Error ("Failed to parse " ++ filePath ++ ": " ++ message cause))
  end.
Proof. reflexivity. Qed.

(** ** The per-directory documents *)

Lemma has_addEntries_old (relDir path : string) (data : Data)
  (map : list (string * Data)) :
  has path map = true -> has path (addEntries relDir data map) = true.
Proof.
  unfold addEntries. revert map.
  induction data as [|[key value] rest IH]; intros map H; [exact H|].
  cbn [fold_left]. apply IH. cbn [fst snd].
  destruct value; try exact H. now apply has_set_old.
Qed.

Lemma has_addEntries_new (relDir key : string) (props : Data) (data : Data)
  (map : list (string * Data)) :
  In (key, VObj props) data ->
  has (under relDir key) (addEntries relDir data map) = true.
Proof.
  unfold addEntries. revert map.
  induction data as [|entry rest IH]; intros map Hin; [contradiction|].
  cbn [fold_left]. destruct Hin as [-> | Hin]; [|now apply IH].
  cbn [fst snd]. apply (has_addEntries_old relDir _ rest). apply has_set_new.
Qed.

Lemma lookup_addEntries_inv (relDir path : string) (record : Data) (data : Data)
  (map : list (string * Data)) :
  lookup path (addEntries relDir data map) = Some record ->
  lookup path map = Some record \/
  exists key, In (key, VObj record) data /\ path = under relDir key.
Proof.
  unfold addEntries. revert map.
  induction data as [|[key value] rest IH]; intros map H; [now left|].
  cbn [fold_left] in H. apply IH in H.
  destruct H as [H | [k [Hin ->]]]; [|right; exists k; split; [now right | reflexivity]].
  cbn [fst snd] in H. destruct value; try (now left).
  rewrite lookup_set in H.
  destruct (String.eqb path (under relDir key)) eqn:E; [|now left].
  apply String.eqb_eq in E. injection H as ->.
  right. exists key. split; [now left | assumption].
Qed.

Lemma NoDup_addEntries (relDir : string) (data : Data) (map : list (string * Data)) :
  NoDup (keys map) -> NoDup (keys (addEntries relDir data map)).
Proof.
  unfold addEntries. revert map.
  induction data as [|[key value] rest IH]; intros map H; [exact H|].
  cbn [fold_left]. apply IH. cbn [fst snd].
  destruct value; try exact H. now apply NoDup_set.
Qed.

Lemma discoverLoop_returns (basePath : string) (yielded : list Yielded)
  (map : list (string * Data)) :
  (forall y, In y yielded ->
             exists data, parseDataFile (filePath y) (Some (found y)) = Ok data) ->
  exists result, discoverLoop basePath yielded map = Ok result.
Proof.
  revert map. induction yielded as [|y more IH]; intros map H.
  - now exists map.
  - simpl. destruct (H y (or_introl eq_refl)) as [data ->]. simpl.
    apply IH. intros y' Hy'. apply H. now right.
Qed.

Lemma discoverLoop_has (basePath : string) (yielded : list Yielded)
  (map result : list (string * Data)) :
  discoverLoop basePath yielded map = Ok result ->
  forall path,
    (has path map = true \/
     exists relDir data key props,
       Discovered basePath yielded relDir data /\
       In (key, VObj props) data /\ path = under relDir key) ->
    has path result = true.
Proof.
  revert map. induction yielded as [|y more IH]; intros map Hres path H.
  - injection Hres as <-. destruct H as [H | (relDir & data & key & props & [y [[] _]] & _)].
    exact H.
  - simpl in Hres.
    destruct (parseDataFile (filePath y) (Some (found y))) as [data|e] eqn:Hp;
      [|discriminate].
    simpl in Hres. apply (IH _ Hres).
    destruct H as [H | (relDir & data' & key & props & [y' (Hy' & Hp' & Hrel)] & Hin & ->)].
    + left. now apply has_addEntries_old.
    + destruct Hy' as [<- | Hy'].
      * left. rewrite Hp in Hp'. injection Hp' as <-. subst relDir.
        now apply (has_addEntries_new _ key props).
      * right. exists relDir, data', key, props.
        split; [exists y'; auto | auto].
Qed.

Lemma discoverLoop_inv (basePath : string) (yielded : list Yielded)
  (map result : list (string * Data)) :
  discoverLoop basePath yielded map = Ok result ->
  forall path record,
    lookup path result = Some record ->
    lookup path map = Some record \/
    exists relDir data key,
      Discovered basePath yielded relDir data /\
      In (key, VObj record) data /\ path = under relDir key.
Proof.
  revert map. induction yielded as [|y more IH]; intros map Hres path record H.
  - injection Hres as <-. now left.
  - simpl in Hres.
    destruct (parseDataFile (filePath y) (Some (found y))) as [data|e] eqn:Hp;
      [|discriminate].
    simpl in Hres. destruct (IH _ Hres _ _ H) as [H' | (relDir & data' & key & [y' (Hy' & Hp' & Hrel)] & Hin & ->)].
    + apply lookup_addEntries_inv in H'. destruct H' as [H' | [key [Hin ->]]]; [now left|].
      right. exists (Path.relative basePath (dir y)), data, key.
      split; [exists y; split; [now left | auto] | auto].
    + right. exists relDir, data', key.
      split; [exists y'; split; [now right | auto] | auto].
Qed.

Lemma discoverLoop_NoDup (basePath : string) (yielded : list Yielded)
  (map result : list (string * Data)) :
  NoDup (keys map) ->
  discoverLoop basePath yielded map = Ok result -> NoDup (keys result).
Proof.
  revert map. induction yielded as [|y more IH]; intros map Hnd Hres.
  - now injection Hres as <-.
  - simpl in Hres.
    destruct (parseDataFile (filePath y) (Some (found y))) as [data|e];
      [|discriminate].
    simpl in Hres. apply (IH _ (NoDup_addEntries _ data _ Hnd) Hres).
Qed.

Lemma perDirMapOf_NoDup (opts : LoadMapOptions) (perDirMap : list (string * Data)) :
  perDirMapOf opts = Ok perDirMap -> NoDup (keys perDirMap).
Proof.
  unfold perDirMapOf, discoverPerDirFiles.
  destruct (existsSync (at_basePath opts)).
  - apply discoverLoop_NoDup. constructor.
  - intros [= <-]. constructor.
Qed.

(** What the combined map holds under a path. *)
Lemma lookup_overlayPerDir (centralMap perDirMap : list (string * Data)) (path : string) :
  NoDup (keys perDirMap) ->
  lookup path (overlayPerDir centralMap perDirMap) =
  match lookup path centralMap, lookup path perDirMap with
  | Some centralValue, Some perDirValue =>
      Some (Merge.deepMerge centralValue perDirValue)
  | Some centralValue, None => Some centralValue
  | None, Some perDirValue => Some perDirValue
  | None, None => None
  end.
Proof.
  unfold overlayPerDir. revert centralMap.
  induction perDirMap as [|[key perDirValue] rest IH]; intros centralMap Hnd.
  - simpl. now destruct (lookup path centralMap).
  - inversion Hnd as [|? ? Hkey Hrest]; subst.
    cbn [fold_left fst snd]. rewrite (IH _ Hrest). cbn [lookup].
    destruct (String.eqb path key) eqn:E.
    + apply String.eqb_eq in E. subst key.
      assert (Hnone : lookup path rest = None) by now apply lookup_None.
      rewrite Hnone.
      destruct (lookup path centralMap); now rewrite lookup_set_eq.
    + assert (Hne : path <> key) by now apply String.eqb_neq.
      destruct (lookup key centralMap); now rewrite lookup_set_ne.
Qed.

End WithParsers.


(** ** Where the walk goes *)

Lemma relative_same (base : string) : Path.relative base base = "".
Proof. unfold Path.relative. now rewrite String.eqb_refl. Qed.

Lemma relative_below (base sub : string) :
  base <> "" -> base <> "." ->
  Path.relative base (base ++ "/" ++ sub) = sub.
Proof.
  intros Hne Hdot. unfold Path.relative.
  assert (Hdiff : String.eqb base (base ++ "/" ++ sub) = false).
  { apply String.eqb_neq. intros Heq.
    apply (f_equal String.length) in Heq.
    rewrite !TextFacts.length_app in Heq. simpl in Heq. lia. }
  rewrite Hdiff.
  apply String.eqb_neq in Hne. apply String.eqb_neq in Hdot.
  rewrite Hne, Hdot. cbn [orb].
  rewrite <- TextFacts.app_assoc. now rewrite TextFacts.stripPrefix_app.
Qed.

Lemma firstFrontmatterFile_dir (d : string) (entries : list (string * Node))
  (names : list string) (y : Yielded) :
  In y (firstFrontmatterFile d entries names) -> dir y = d.
Proof.
  induction names as [|n names IH]; simpl; [contradiction|].
  destruct (lookup n entries); [|exact IH].
  intros [<- | []]. reflexivity.
Qed.

(** A directory without any of the recognised documents contributes
    nothing. *)
Lemma firstFrontmatterFile_missing (d : string) (entries : list (string * Node))
  (names : list string) :
  (forall n, In n names -> lookup n entries = None) ->
  firstFrontmatterFile d entries names = [].
Proof.
  induction names as [|n names IH]; intros H; [reflexivity|].
  simpl. rewrite (H n) by now left. apply IH. intros m Hm. apply H. now right.
Qed.

(** Every yielded directory is the directory walked or lies below it. *)
Lemma walkFrontmatterFiles_dir (at_dir : Node) :
  forall d y,
    d <> "" -> In y (walkFrontmatterFiles d at_dir) ->
    dir y = d \/ exists sub, dir y = d ++ "/" ++ sub.
Proof.
  induction at_dir as [content|entries IH] using Node_deep_ind;
    intros d y Hd Hin; [contradiction|].
  cbn [walkFrontmatterFiles] in Hin. apply in_app_or in Hin.
  destruct Hin as [Hin | Hin]; [left; now apply firstFrontmatterFile_dir in Hin|].
  right. induction entries as [|[entryName child] rest IHrest]; [contradiction|].
  inversion IH as [|? ? IHchild IHtail]; subst.
  apply in_app_or in Hin. destruct Hin as [Hin | Hin]; [|now apply IHrest].
  destruct (isDirectory child && negb (startsWith entryName ".")
            && negb (String.eqb entryName "node_modules")); [|contradiction].
  assert (Hjoin : Path.join d entryName = d ++ "/" ++ entryName).
  { unfold Path.join. apply String.eqb_neq in Hd. now rewrite Hd. }
  rewrite Hjoin in Hin. cbn [snd] in IHchild.
  destruct (IHchild (d ++ "/" ++ entryName) y) as [Hy | [sub Hy]];
    [now destruct d | exact Hin | |].
  - now exists entryName.
  - exists (entryName ++ "/" ++ sub). rewrite Hy.
    now rewrite !TextFacts.app_assoc.
Qed.

(** ** The claims about the frontmatter map *)

(** C7.  [flattenToMap] treats a record-valued key as a leaf exactly when
    its extension is [.md], [.mdx] or [.mdoc], at any depth, and recurses
    into every other record-valued key: the paths of the map are the
    leaves of the document.  A hierarchical document [guides] /
    [installation.md] and a flat document [guides/installation.md] with the
    same record give the same map. *)
Theorem flattenToMap_leaves (data : Data) (prefix path : string) (record : Data) :
  (lookup path (flattenToMap data prefix) = Some record ->
   Leaf data prefix path record) /\
  (Leaf data prefix path record ->
   has path (flattenToMap data prefix) = true) /\
  (forall r : Data,
     flattenToMap [("guides", VObj [("installation.md", VObj r)])] ""
     = flattenToMap [("guides/installation.md", VObj r)] "" /\
     flattenToMap [("guides/installation.md", VObj r)] ""
     = [("guides/installation.md", r)]).
Proof.
  split; [|split].
  - apply (flattenToMap_sound_value (VObj data)).
  - apply flattenToMap_complete.
  - intros r. split; reflexivity.
Qed.

Lemma flattenToMap_leaves_witness :
  Leaf Samples.centralData "" "guides/installation.md"
    [("description", VStr "d");
     ("sidebar", VObj [("order", VNum 9); ("label", VStr "Guide")])] /\
  has "about.md" (flattenToMap Samples.centralData "") = true.
Proof.
  split.
  - apply (flattenToMap_leaves Samples.centralData "" "guides/installation.md").
    reflexivity.
  - apply (flattenToMap_leaves Samples.centralData "" "about.md"
             [("title", VStr "About")]).
    apply (Leaf_here Samples.centralData "" "about.md");
      [right; left; reflexivity | reflexivity].
Defined.

Section WithParsers.
Context {parsers : Parsers}.

(** C8.  The map that [loadFrontmatterMap] returns holds, under a path
    that both the centralized map and the per-directory map have, the
    deep merge of the two records with the per-directory record as
    overlay; under a path that only one of them has, that map's record as
    it is; and nothing under any other path.  The result is a function of
    the options and of what the file system holds. *)
Theorem loadFrontmatterMap_combination (opts : LoadMapOptions)
  (centralMap perDirMap : list (string * Data)) :
  centralMapOf opts = Ok centralMap ->
  perDirMapOf opts = Ok perDirMap ->
  exists merged,
    loadFrontmatterMap opts = Ok merged /\
    (forall path,
       lookup path merged =
       match lookup path centralMap, lookup path perDirMap with
       | Some centralValue, Some perDirValue =>
           Some (Merge.deepMerge centralValue perDirValue)
       | Some centralValue, None => Some centralValue
       | None, Some perDirValue => Some perDirValue
       | None, None => None
       end) /\
    (forall opts', opts' = opts ->
                   loadFrontmatterMap opts' = loadFrontmatterMap opts).
Proof.
  intros Hc Hp. exists (overlayPerDir centralMap perDirMap).
  split; [|split].
  - unfold loadFrontmatterMap. now rewrite Hc, Hp.
  - intros path. apply lookup_overlayPerDir. now apply perDirMapOf_NoDup with opts.
  - now intros opts' ->.
Qed.

(** C9.  For a path that holds a file or nothing: [parseCentralFile]
    throws exactly when the file is there and its text does not parse
    (as JSON for a [.json] path, as YAML otherwise); what it throws is
    [Failed to parse <path>: <cause>], which names the path; a missing
    file gives the empty record.  [parseDataFile] behaves the same on a
    file that is there; a directory that has none of the recognised
    documents, or a base directory that is missing, contributes nothing
    and throws nothing. *)
Theorem parseCentralFile_errors (filePath : string) (at_path : option Node) :
  holdsDirectory at_path = false ->
  (at_path = None -> parseCentralFile filePath at_path = Ok []) /\
  (forall e,
     parseCentralFile filePath at_path = Throw e <->
     exists content cause,
       at_path = Some (File content) /\
       parseByExtension filePath content = Throw cause /\
       e = Error ("Failed to parse " ++ filePath ++ ": " ++ message cause)) /\
  (forall e,
     parseCentralFile filePath at_path = Throw e ->
     exists before after : string, message e = before ++ filePath ++ after) /\
  (forall content,
     at_path = Some (File content) ->
     parseDataFile filePath at_path = parseCentralFile filePath at_path) /\
  (forall d entries,
     (forall n, In n FRONTMATTER_FILENAMES -> lookup n entries = None) ->
     firstFrontmatterFile d entries FRONTMATTER_FILENAMES = []) /\
  (forall basePath, discoverPerDirFiles basePath None = Ok []).
Proof.
  intros Hdir.
  assert (Hiff : forall e,
     parseCentralFile filePath at_path = Throw e <->
     exists content cause,
       at_path = Some (File content) /\
       parseByExtension filePath content = Throw cause /\
       e = Error ("Failed to parse " ++ filePath ++ ": " ++ message cause)).
  { intros e. destruct at_path as [[content|entries]|]; try discriminate.
    - unfold parseCentralFile. cbn [existsSync negb].
      rewrite parseDataFile_file. split.
      + destruct (parseByExtension filePath content) as [data|cause] eqn:Hp;
          [discriminate|].
        intros [= <-]. now exists content, cause.
      + intros (content' & cause & [= <-] & Hp & ->). now rewrite Hp.
    - split; [discriminate|]. now intros (content & cause & [=] & _). }
  split; [|split; [|split; [|split; [|split]]]].
  - now intros ->.
  - exact Hiff.
  - intros e He. apply Hiff in He. destruct He as (content & cause & _ & _ & ->).
    now exists "Failed to parse ", (": " ++ message cause).
  - now intros content ->.
  - intros d entries. apply firstFrontmatterFile_missing.
  - reflexivity.
Qed.

(** C10.  [discoverPerDirFiles] never consults the content extensions.
    When every document that the walk yields parses, it returns a map;
    the map has an entry for every top-level key with a plain record of
    every such document, under the key prefixed with the document's
    directory relative to the base (no prefix at the base itself, the
    directories walked down to below it); and every entry of the map
    comes from such a key.  A key whose value is a
    scalar, an array or [null] adds nothing and raises nothing. *)
Theorem discoverPerDirFiles_entries (basePath : string) (at_base : option Node) :
  (forall y, In y (walkFrom basePath at_base) ->
             exists data, parseDataFile (filePath y) (Some (found y)) = Ok data) ->
  exists map,
    discoverPerDirFiles basePath at_base = Ok map /\
    (forall relDir data key props,
       Discovered basePath (walkFrom basePath at_base) relDir data ->
       In (key, VObj props) data ->
       has (under relDir key) map = true) /\
    (forall path record,
       lookup path map = Some record ->
       exists relDir data key,
         Discovered basePath (walkFrom basePath at_base) relDir data /\
         In (key, VObj record) data /\ path = under relDir key) /\
    (forall relDir key value m,
       isPlainObject value = false -> addEntries relDir [(key, value)] m = m) /\
    (forall key, under (Path.relative basePath basePath) key = key) /\
    (basePath <> "" -> basePath <> "." ->
     forall y, In y (walkFrom basePath at_base) ->
       (dir y = basePath /\ Path.relative basePath (dir y) = "") \/
       (exists sub, dir y = basePath ++ "/" ++ sub /\
                    Path.relative basePath (dir y) = sub)).
Proof.
  intros Hparse.
  destruct (discoverLoop_returns basePath _ [] Hparse) as [map Hmap].
  exists map. split; [exact Hmap|]. split; [|split; [|split; [|split]]].
  - intros relDir data key props Hd Hin.
    apply (discoverLoop_has _ _ _ _ Hmap). right.
    now exists relDir, data, key, props.
  - intros path record Hl.
    destruct (discoverLoop_inv _ _ _ _ Hmap _ _ Hl) as [H | H];
      [discriminate | exact H].
  - intros relDir key value m Hv. now destruct value.
  - intros key. now rewrite relative_same.
  - intros Hne Hdot y Hy. destruct at_base as [node|]; [|contradiction].
    destruct (walkFrontmatterFiles_dir node basePath y Hne Hy) as [-> | [sub ->]].
    + left. split; [reflexivity | apply relative_same].
    + right. exists sub. split; [reflexivity | now apply relative_below].
Qed.

End WithParsers.

Lemma loadFrontmatterMap_combination_witness :
  exists merged,
    loadFrontmatterMap (parsers := Samples.sampleParsers) Samples.sampleOptions
      = Ok merged /\
    lookup "guides/installation.md" merged
      = Some [("description", VStr "d");
              ("sidebar", VObj [("order", VNum 1); ("label", VStr "Guide")])] /\
    lookup "about.md" merged = Some [("title", VStr "About")] /\
    lookup "README.md" merged = Some [("title", VStr "Home")].
Proof.
  destruct (loadFrontmatterMap_combination (parsers := Samples.sampleParsers)
              Samples.sampleOptions _ _ eq_refl eq_refl)
    as (merged & Hload & Hlookup & _).
  exists merged. split; [exact Hload|].
  split; [|split]; rewrite Hlookup; reflexivity.
Defined.

Lemma parseCentralFile_errors_witness :
  holdsDirectory (Some (File Samples.malformed)) = false /\
  parseCentralFile (parsers := Samples.sampleParsers)
    "/site/frontmatter.yml" (Some (File Samples.malformed))
  = Throw (Error "Failed to parse /site/frontmatter.yml: Flow map must end with a }").
Proof.
  split; [reflexivity|].
  apply (parseCentralFile_errors (parsers := Samples.sampleParsers)
           "/site/frontmatter.yml" (Some (File Samples.malformed)) eq_refl).
  exists Samples.malformed, (SyntaxError "Flow map must end with a }").
  repeat split.
Defined.

Lemma discoverPerDirFiles_entries_witness :
  isContentFile "notes.txt" = false /\
  exists map,
    discoverPerDirFiles (parsers := Samples.sampleParsers)
      "/site/docs" (Some Samples.docsTree) = Ok map /\
    has "notes.txt" map = true /\
    has "guides/installation.md" map = true.
Proof.
  split; [reflexivity|].
  destruct (discoverPerDirFiles_entries (parsers := Samples.sampleParsers)
              "/site/docs" (Some Samples.docsTree)) as (map & Hmap & Hhas & _).
  - intros y Hy. simpl in Hy.
    destruct Hy as [<- | [<- | []]]; eexists; reflexivity.
  - exists map. split; [exact Hmap|]. split.
    + apply (Hhas "" Samples.rootData "notes.txt" [("pinned", VBool true)]).
      * eexists. split; [left; reflexivity | split; reflexivity].
      * right. left. reflexivity.
    + apply (Hhas "guides" Samples.guidesData "installation.md"
               [("sidebar", VObj [("order", VNum 1)])]).
      * eexists. split; [right; left; reflexivity | split; reflexivity].
      * left. reflexivity.
Defined.

End FrontmatterMapSpec.

(* ================================================================== *)
(** * Properties of [extractH1] and [stripH1Html] *)
(* ================================================================== *)

Module H1Spec.
Import Text TextFacts H1.

Lemma blankLine_Some (s rest : string) :
  blankLine s = Some rest <->
  exists ws, allChars isHSpace ws = true /\ s = ws ++ nl ++ rest.
Proof.
  unfold blankLine. split.
  - intros H. exists (takeWhile isHSpace s). split; [apply allChars_takeWhile|].
    rewrite <- (takeWhile_dropWhile isHSpace s) at 1. f_equal.
    destruct (dropWhile isHSpace s) as [|c r]; [discriminate|].
    destruct (isNewline c) eqn:E; [|discriminate].
    apply isNewline_eq in E. subst c. now injection H as ->.
  - intros (ws & Hws & ->). now rewrite dropWhile_app.
Qed.

Lemma blankLine_None (s : string) :
  blankLine s = None <-> ~ startsBlankLine s.
Proof.
  split.
  - intros H (ws & rest & Hws & Hs).
    assert (Hsome : blankLine s = Some rest) by (apply blankLine_Some; eauto).
    congruence.
  - intros H. destruct (blankLine s) as [rest|] eqn:E; [|reflexivity].
    exfalso. apply H. apply blankLine_Some in E. destruct E as (ws & Hws & Hs).
    now exists ws, rest.
Qed.

Lemma blankLine_shorter (s rest : string) :
  blankLine s = Some rest -> String.length rest < String.length s.
Proof.
  intros H. apply blankLine_Some in H. destruct H as (ws & _ & ->).
  rewrite !length_app. simpl. lia.
Qed.

(** The loop stops in front of a text that does not start with a blank
    line, whatever blank lines it went through. *)
Lemma skipBlankLinesFrom_decomposed (blanks rest : string) :
  BlankLines blanks -> ~ startsBlankLine rest ->
  forall n, String.length (blanks ++ rest) <= n ->
            skipBlankLinesFrom n (blanks ++ rest) = rest.
Proof.
  intros Hb Hrest. apply blankLine_None in Hrest.
  induction Hb as [|ws more Hws Hmore IH]; intros n Hn.
  - simpl. destruct n; simpl; [reflexivity | now rewrite Hrest].
  - destruct n as [|n].
    + rewrite !length_app in Hn. simpl in Hn. lia.
    + cbn [skipBlankLinesFrom].
      assert (Hline : blankLine ((ws ++ nl ++ more) ++ rest) = Some (more ++ rest)).
      { apply blankLine_Some. exists ws. split; [assumption|].
        now rewrite !app_assoc. }
      rewrite Hline. apply IH.
      rewrite !length_app in *. simpl in Hn. lia.
Qed.

(** Every text splits into its leading blank lines and a rest that does
    not start with a blank line. *)
Lemma skipBlankLinesFrom_splits (n : nat) (s : string) :
  String.length s <= n ->
  exists blanks,
    s = blanks ++ skipBlankLinesFrom n s /\ BlankLines blanks /\
    ~ startsBlankLine (skipBlankLinesFrom n s).
Proof.
  revert s. induction n as [|n IH]; intros s Hn.
  - destruct s; [|simpl in Hn; lia]. exists "". simpl.
    split; [reflexivity|]. split; [constructor|].
    apply blankLine_None. reflexivity.
  - cbn [skipBlankLinesFrom]. destruct (blankLine s) as [rest|] eqn:E.
    + pose proof (blankLine_shorter _ _ E) as Hlen.
      destruct (IH rest ltac:(lia)) as (blanks & Hsplit & Hb & Hstop).
      apply blankLine_Some in E. destruct E as (ws & Hws & ->).
      exists (ws ++ nl ++ blanks). split; [|split].
      * rewrite !app_assoc. do 2 f_equal. exact Hsplit.
      * now constructor.
      * exact Hstop.
    + exists "". split; [reflexivity|]. split; [constructor|].
      now apply blankLine_None.
Qed.

Lemma decomposition_exists (markdown : string) :
  exists blanks rest,
    markdown = blanks ++ rest /\ BlankLines blanks /\ ~ startsBlankLine rest.
Proof.
  destruct (skipBlankLinesFrom_splits (String.length markdown) markdown (le_n _))
    as (blanks & H1 & H2 & H3).
  now exists blanks, (skipBlankLinesFrom (String.length markdown) markdown).
Qed.

Lemma skipBlankLines_decomposed (blanks rest : string) :
  BlankLines blanks -> ~ startsBlankLine rest ->
  skipBlankLines (blanks ++ rest) = rest.
Proof.
  intros Hb Hr. unfold skipBlankLines.
  now apply skipBlankLinesFrom_decomposed.
Qed.

(** A heading at the start of [rest] is what [H1_RE] captures. *)
Lemma H1_RE_exec_heading (blanks rest text tail : string) :
  BlankLines blanks -> ~ startsBlankLine rest -> HeadingAt rest text tail ->
  H1_RE_exec (blanks ++ rest) = Some (text, dropNewline tail).
Proof.
  intros Hb Hr (-> & Hne & Hdot & Hend).
  unfold H1_RE_exec. rewrite skipBlankLines_decomposed by assumption.
  rewrite stripPrefix_app.
  assert (Hstop : stopsAt isDot tail = true) by now rewrite isDot_stops.
  destruct (takeWhile_split isDot text tail Hdot Hstop) as [-> ->].
  destruct text; [contradiction | reflexivity].
Qed.

(** What [H1_RE] captures is a heading at the start of [rest]. *)
Lemma H1_RE_exec_inv (blanks rest rawTitle afterMatch : string) :
  BlankLines blanks -> ~ startsBlankLine rest ->
  H1_RE_exec (blanks ++ rest) = Some (rawTitle, afterMatch) ->
  exists tail, HeadingAt rest rawTitle tail /\ afterMatch = dropNewline tail.
Proof.
  intros Hb Hr. unfold H1_RE_exec.
  rewrite skipBlankLines_decomposed by assumption.
  destruct (stripPrefix "# " rest) as [afterMarker|] eqn:Hm; [|discriminate].
  apply stripPrefix_Some in Hm.
  destruct (takeWhile isDot afterMarker) as [|c t] eqn:Ht; [discriminate|].
  intros [= <- <-]. exists (dropWhile isDot afterMarker).
  split; [|reflexivity]. repeat split.
  - rewrite Hm. do 2 f_equal. rewrite <- Ht. symmetry. apply takeWhile_dropWhile.
  - discriminate.
  - rewrite <- Ht. apply allChars_takeWhile.
  - unfold endsLine. rewrite <- isDot_stops. apply stopsAt_dropWhile.
Qed.

(** ** [flattenInlineMarkdown] *)

Lemma replaceAllFrom_untriggered f p :
  triggeredBy f p ->
  forall n s, allChars (fun c => negb (p c)) s = true ->
              replaceAllFrom f n s = s.
Proof.
  intros [Hnil Hcons]. induction n as [|n IH]; intros s Hs; [reflexivity|].
  destruct s as [|c s]; simpl.
  - now rewrite Hnil.
  - simpl in Hs. apply andb_true_iff in Hs. destruct Hs as [Hc Hs].
    apply negb_true_iff in Hc. rewrite (Hcons _ _ Hc). now rewrite IH.
Qed.

Lemma replaceAll_untriggered f p s :
  triggeredBy f p -> allChars (fun c => negb (p c)) s = true ->
  replaceAll f s = s.
Proof. intros Hf Hs. now apply (replaceAllFrom_untriggered f p). Qed.

Ltac first_char_differs :=
  split; [reflexivity|];
  let c := fresh "c" in let s := fresh "s" in let H := fresh "H" in
  intros c s H;
  unfold imageAt, linkAt, boldAt, italicAt, strikeAt, codeAt, delimitedAt;
  cbn [stripPrefix];
  repeat match goal with
         | H : (_ || _)%bool = false |- _ =>
             apply orb_false_iff in H; destruct H
         end;
  repeat match goal with
         | H : Ascii.eqb _ c = false |- _ => rewrite H
         end;
  reflexivity.

Lemma imageAt_trigger : triggeredBy imageAt (Ascii.eqb "!").
Proof. first_char_differs. Qed.

Lemma linkAt_trigger : triggeredBy linkAt (Ascii.eqb "[").
Proof. first_char_differs. Qed.

Lemma boldAt_trigger :
  triggeredBy boldAt (fun c => Ascii.eqb "*" c || Ascii.eqb "_" c).
Proof. first_char_differs. Qed.

Lemma italicAt_trigger :
  triggeredBy italicAt (fun c => Ascii.eqb "*" c || Ascii.eqb "_" c).
Proof. first_char_differs. Qed.

Lemma strikeAt_trigger : triggeredBy strikeAt (Ascii.eqb "~").
Proof. first_char_differs. Qed.

Lemma codeAt_trigger : triggeredBy codeAt (Ascii.eqb "`").
Proof. first_char_differs. Qed.

Lemma plain_free (p : ascii -> bool) (s : string) :
  (forall c, isPlain c = true -> p c = false) ->
  plain s = true -> allChars (fun c => negb (p c)) s = true.
Proof.
  intros Hp. apply allChars_weaken. intros c Hc.
  apply negb_true_iff. now apply Hp.
Qed.

Ltac plain_char :=
  let c := fresh "c" in let H := fresh "H" in
  intros c H; unfold isPlain, isMark in H;
  apply andb_true_iff in H; destruct H as [_ H];
  apply negb_true_iff in H;
  repeat (apply orb_false_iff in H; destruct H as [H ?]);
  repeat match goal with
         | H : Ascii.eqb _ c = false |- _ => rewrite H
         end;
  reflexivity.

Lemma passes_plain (s : string) :
  plain s = true ->
  replaceAll imageAt s = s /\ replaceAll linkAt s = s /\
  replaceAll boldAt s = s /\ replaceAll italicAt s = s /\
  replaceAll strikeAt s = s /\ replaceAll codeAt s = s.
Proof.
  intros Hp. repeat split.
  - apply (replaceAll_untriggered imageAt _ s imageAt_trigger).
    apply plain_free; [plain_char | assumption].
  - apply (replaceAll_untriggered linkAt _ s linkAt_trigger).
    apply plain_free; [plain_char | assumption].
  - apply (replaceAll_untriggered boldAt _ s boldAt_trigger).
    apply plain_free; [plain_char | assumption].
  - apply (replaceAll_untriggered italicAt _ s italicAt_trigger).
    apply plain_free; [plain_char | assumption].
  - apply (replaceAll_untriggered strikeAt _ s strikeAt_trigger).
    apply plain_free; [plain_char | assumption].
  - apply (replaceAll_untriggered codeAt _ s codeAt_trigger).
    apply plain_free; [plain_char | assumption].
Qed.

(** Plain text goes through the six replacements as it is, [#] included;
    only [trim] touches it. *)
Lemma flattenInlineMarkdown_plain (text : string) :
  plain text = true -> flattenInlineMarkdown text = trim text.
Proof.
  intros Hp. unfold flattenInlineMarkdown.
  destruct (passes_plain text Hp) as (E1 & E2 & E3 & E4 & E5 & E6).
  now rewrite E1, E2, E3, E4, E5, E6.
Qed.

(** Every pattern of [flattenInlineMarkdown] uses up characters, so the
    rounds of [replaceAll] never run out. *)
Lemma bracketed_consumes (s s1 s2 rest : string) (c : ascii) (lit : string) :
  stripPrefix lit s = Some s1 ->
  stripPrefix "](" (dropWhile (isNot "]") s1) = Some s2 ->
  dropWhile (isNot ")") s2 = String c rest ->
  String.length rest < String.length s.
Proof.
  intros H1 H2 H3.
  apply length_stripPrefix in H1. apply length_stripPrefix in H2.
  pose proof (length_dropWhile (isNot "]") s1).
  pose proof (length_dropWhile (isNot ")") s2) as H4.
  rewrite H3 in H4. simpl in *. lia.
Qed.

Lemma imageAt_consumes : consumes imageAt.
Proof.
  intros s r rest. unfold imageAt.
  destruct (stripPrefix "![" s) as [s1|] eqn:E1; [|discriminate].
  destruct (stripPrefix "](" (dropWhile (isNot "]") s1)) as [s2|] eqn:E2;
    [|discriminate].
  destruct (dropWhile (isNot ")") s2) as [|c rest'] eqn:E3; [discriminate|].
  intros [= _ <-]. exact (bracketed_consumes s s1 s2 rest' c _ E1 E2 E3).
Qed.

Lemma linkAt_consumes : consumes linkAt.
Proof.
  intros s r rest. unfold linkAt.
  destruct (stripPrefix "[" s) as [s1|] eqn:E1; [|discriminate].
  destruct (stripPrefix "](" (dropWhile (isNot "]") s1)) as [s2|] eqn:E2;
    [|discriminate].
  destruct (dropWhile (isNot ")") s2) as [|c rest'] eqn:E3; [discriminate|].
  intros [= _ <-]. exact (bracketed_consumes s s1 s2 rest' c _ E1 E2 E3).
Qed.

Lemma delimitedAt_consumes (x : ascii) (lit : string) :
  consumes (delimitedAt (String x lit)).
Proof.
  intros s r rest. unfold delimitedAt.
  destruct (stripPrefix (String x lit) s) as [s1|] eqn:E1; [|discriminate].
  intros E2. apply length_stripPrefix in E1. apply lazyUntil_Some in E2.
  subst s1. rewrite !length_app in E1. simpl in E1. lia.
Qed.

Lemma boldAt_consumes : consumes boldAt.
Proof.
  intros s r rest. unfold boldAt.
  destruct (stripPrefix "**" s); apply delimitedAt_consumes.
Qed.

Lemma italicAt_consumes : consumes italicAt.
Proof.
  intros s r rest. unfold italicAt.
  destruct (stripPrefix "*" s); apply delimitedAt_consumes.
Qed.

Lemma strikeAt_consumes : consumes strikeAt.
Proof. apply delimitedAt_consumes. Qed.

Lemma codeAt_consumes : consumes codeAt.
Proof.
  intros s r rest. unfold codeAt.
  destruct (stripPrefix "`" s) as [s1|] eqn:E1; [|discriminate].
  destruct (takeWhile (isNot "`") s1) as [|c inner]; [discriminate|].
  destruct (dropWhile (isNot "`") s1) as [|c' rest'] eqn:E2; [discriminate|].
  intros [= _ <-]. apply length_stripPrefix in E1.
  pose proof (length_dropWhile (isNot "`") s1) as H. rewrite E2 in H.
  simpl in *. lia.
Qed.

(** The lazy run stops at the first occurrence of the literal. *)
Lemma lazyUntil_found (p : ascii -> bool) (x : ascii) (lit t rest : string) :
  allChars (fun c => p c && negb (Ascii.eqb x c)) t = true ->
  lazyUntil p (String x lit) (t ++ String x lit ++ rest) = Some (t, rest).
Proof.
  induction t as [|c t IH]; intros Ht.
  - cbn [append lazyUntil]. change (String x (lit ++ rest)) with (String x lit ++ rest).
    rewrite stripPrefix_app. destruct (lit ++ rest); reflexivity.
  - simpl in Ht. rewrite !andb_true_iff, negb_true_iff in Ht.
    destruct Ht as [[Hp Hx] Ht].
    cbn [append lazyUntil stripPrefix]. rewrite Hx, Hp.
    cbn [append] in IH. now rewrite (IH Ht).
Qed.

Lemma lazyUntil_none (p : ascii -> bool) (x : ascii) (lit t : string) :
  allChars (fun c => negb (Ascii.eqb x c)) t = true ->
  lazyUntil p (String x lit) t = None.
Proof.
  induction t as [|c t IH]; intros Ht; [reflexivity|].
  simpl in Ht. rewrite andb_true_iff, negb_true_iff in Ht.
  destruct Ht as [Hx Ht]. cbn [lazyUntil stripPrefix]. rewrite Hx.
  rewrite (IH Ht). now destruct (p c).
Qed.

(** *** What each pattern does where it stands *)

Lemma imageAt_found (alt url rest : string) :
  allChars (isNot "]") alt = true -> allChars (isNot ")") url = true ->
  imageAt ("![" ++ alt ++ "](" ++ url ++ ")" ++ rest) = Some (alt, rest).
Proof.
  intros Halt Hurl. unfold imageAt. rewrite stripPrefix_app.
  destruct (takeWhile_split (isNot "]") alt ("](" ++ url ++ ")" ++ rest) Halt eq_refl)
    as [-> ->].
  rewrite stripPrefix_app.
  destruct (takeWhile_split (isNot ")") url (")" ++ rest) Hurl eq_refl) as [_ ->].
  reflexivity.
Qed.

Lemma linkAt_found (label url rest : string) :
  allChars (isNot "]") label = true -> allChars (isNot ")") url = true ->
  linkAt ("[" ++ label ++ "](" ++ url ++ ")" ++ rest) = Some (label, rest).
Proof.
  intros Hl Hurl. unfold linkAt. rewrite stripPrefix_app.
  destruct (takeWhile_split (isNot "]") label ("](" ++ url ++ ")" ++ rest) Hl eq_refl)
    as [-> ->].
  rewrite stripPrefix_app.
  destruct (takeWhile_split (isNot ")") url (")" ++ rest) Hurl eq_refl) as [_ ->].
  reflexivity.
Qed.

Lemma delimitedAt_found (x : ascii) (lit inner rest : string) :
  allChars (fun c => isDot c && negb (Ascii.eqb x c)) inner = true ->
  delimitedAt (String x lit) (String x lit ++ inner ++ String x lit ++ rest)
  = Some (inner, rest).
Proof.
  intros H. unfold delimitedAt. rewrite stripPrefix_app.
  now apply lazyUntil_found.
Qed.

Lemma codeAt_found (code rest : string) :
  code <> "" -> allChars (isNot "`") code = true ->
  codeAt ("`" ++ code ++ "`" ++ rest) = Some (code, rest).
Proof.
  intros Hne Hc. unfold codeAt. rewrite stripPrefix_app.
  destruct (takeWhile_split (isNot "`") code ("`" ++ rest) Hc eq_refl) as [-> ->].
  destruct code; [contradiction | reflexivity].
Qed.

Lemma plain_inner (x : ascii) (s : string) :
  isPlain x = false -> plain s = true ->
  allChars (fun c => isDot c && negb (Ascii.eqb x c)) s = true.
Proof.
  intros Hx. apply allChars_weaken. intros c Hc.
  rewrite andb_true_iff, negb_true_iff. split.
  - unfold isPlain in Hc. now apply andb_true_iff in Hc.
  - destruct (Ascii.eqb x c) eqn:E; [|reflexivity].
    apply Ascii.eqb_eq in E. subst. congruence.
Qed.

Lemma plain_isNot (x : ascii) (s : string) :
  isPlain x = false -> plain s = true -> allChars (isNot x) s = true.
Proof.
  intros Hx. apply allChars_weaken. intros c Hc. unfold isNot.
  apply negb_true_iff. destruct (Ascii.eqb c x) eqn:E; [|reflexivity].
  apply Ascii.eqb_eq in E. subst. congruence.
Qed.

(** *** One construct in otherwise plain text *)

Lemma replaceAllFrom_skip f p (a : string) :
  triggeredBy f p -> allChars (fun c => negb (p c)) a = true ->
  forall n s,
    replaceAllFrom f (String.length a + n) (a ++ s) = a ++ replaceAllFrom f n s.
Proof.
  intros [_ Hcons]. induction a as [|c a IH]; intros Ha n s; [reflexivity|].
  simpl in Ha. apply andb_true_iff in Ha. destruct Ha as [Hc Ha].
  apply negb_true_iff in Hc. cbn [String.length plus replaceAllFrom append].
  rewrite (Hcons _ _ Hc). now rewrite IH.
Qed.

Lemma replaceAll_one f p (a construct inner b : string) :
  triggeredBy f p ->
  allChars (fun c => negb (p c)) a = true ->
  allChars (fun c => negb (p c)) b = true ->
  construct <> "" ->
  f (construct ++ b) = Some (inner, b) ->
  replaceAll f (a ++ construct ++ b) = a ++ inner ++ b.
Proof.
  intros Hf Ha Hb Hne Hm. unfold replaceAll. rewrite !length_app.
  rewrite (replaceAllFrom_skip f p a Hf Ha).
  destruct construct as [|c construct]; [contradiction|].
  cbn [String.length plus replaceAllFrom]. rewrite Hm.
  now rewrite (replaceAllFrom_untriggered f p Hf).
Qed.

Lemma plain_app (a b : string) :
  plain (a ++ b) = plain a && plain b.
Proof. apply allChars_app. Qed.

Ltac plain_parts :=
  repeat rewrite allChars_app;
  repeat (apply andb_true_intro; split);
  first [ reflexivity | apply plain_free; [plain_char | assumption] ].

Ltac later_passes H :=
  let E1 := fresh in let E2 := fresh in let E3 := fresh in
  let E4 := fresh in let E5 := fresh in let E6 := fresh in
  destruct (passes_plain _ H) as (E1 & E2 & E3 & E4 & E5 & E6);
  rewrite ?E1, ?E2, ?E3, ?E4, ?E5, ?E6; reflexivity.

Lemma flatten_image (a alt url b : string) :
  plain a = true -> plain alt = true -> plain url = true -> plain b = true ->
  flattenInlineMarkdown (a ++ "![" ++ alt ++ "](" ++ url ++ ")" ++ b)
  = trim (a ++ alt ++ b).
Proof.
  intros Ha Halt Hurl Hb.
  assert (Hp : plain (a ++ alt ++ b) = true)
    by (now rewrite !plain_app, Ha, Halt, Hb).
  assert (Himg : replaceAll imageAt (a ++ "![" ++ alt ++ "](" ++ url ++ ")" ++ b)
                 = a ++ alt ++ b).
  { replace ("![" ++ alt ++ "](" ++ url ++ ")" ++ b)
      with (("![" ++ alt ++ "](" ++ url ++ ")") ++ b)
      by (now rewrite !app_assoc).
    apply (replaceAll_one imageAt _ a _ alt b imageAt_trigger);
      try (apply plain_free; [plain_char | assumption]); [discriminate|].
    rewrite !app_assoc.
    apply imageAt_found; (apply plain_isNot; [reflexivity | assumption]). }
  unfold flattenInlineMarkdown. rewrite Himg. later_passes Hp.
Qed.

Lemma flatten_link (a label url b : string) :
  plain a = true -> plain label = true -> plain url = true -> plain b = true ->
  flattenInlineMarkdown (a ++ "[" ++ label ++ "](" ++ url ++ ")" ++ b)
  = trim (a ++ label ++ b).
Proof.
  intros Ha Hl Hurl Hb.
  assert (Hp : plain (a ++ label ++ b) = true)
    by (now rewrite !plain_app, Ha, Hl, Hb).
  assert (Hlink : replaceAll linkAt (a ++ "[" ++ label ++ "](" ++ url ++ ")" ++ b)
                  = a ++ label ++ b).
  { replace ("[" ++ label ++ "](" ++ url ++ ")" ++ b)
      with (("[" ++ label ++ "](" ++ url ++ ")") ++ b)
      by (now rewrite !app_assoc).
    apply (replaceAll_one linkAt _ a _ label b linkAt_trigger);
      try (apply plain_free; [plain_char | assumption]); [discriminate|].
    rewrite !app_assoc.
    apply linkAt_found; (apply plain_isNot; [reflexivity | assumption]). }
  unfold flattenInlineMarkdown.
  rewrite (replaceAll_untriggered imageAt _ _ imageAt_trigger) by plain_parts.
  rewrite Hlink. later_passes Hp.
Qed.

(** Bold ([**] or [__]) and strikethrough ([~~]): a doubled mark [x]. *)
Lemma flatten_doubled (x : ascii) (a inner b : string) :
  x = "*"%char \/ x = "_"%char \/ x = "~"%char ->
  plain a = true -> plain inner = true -> plain b = true ->
  flattenInlineMarkdown
    (a ++ String x (String x "") ++ inner ++ String x (String x "") ++ b)
  = trim (a ++ inner ++ b).
Proof.
  intros Hx Ha Hi Hb.
  assert (Hp : plain (a ++ inner ++ b) = true)
    by (now rewrite !plain_app, Ha, Hi, Hb).
  set (d := String x (String x "")).
  assert (Hfound : delimitedAt d ((d ++ inner ++ d) ++ b) = Some (inner, b)).
  { rewrite !app_assoc. apply delimitedAt_found. apply plain_inner; [|assumption].
    destruct Hx as [-> | [-> | ->]]; reflexivity. }
  assert (Hd : d ++ inner ++ d ++ b = (d ++ inner ++ d) ++ b)
    by (now rewrite !app_assoc).
  unfold flattenInlineMarkdown.
  rewrite (replaceAll_untriggered imageAt _ _ imageAt_trigger)
    by (destruct Hx as [-> | [-> | ->]]; plain_parts).
  rewrite (replaceAll_untriggered linkAt _ _ linkAt_trigger)
    by (destruct Hx as [-> | [-> | ->]]; plain_parts).
  destruct Hx as [-> | [-> | ->]].
  - rewrite Hd.
    rewrite (replaceAll_one boldAt _ a _ inner b boldAt_trigger);
      try (apply plain_free; [plain_char | assumption]);
      [later_passes Hp | discriminate | exact Hfound].
  - rewrite Hd.
    rewrite (replaceAll_one boldAt _ a _ inner b boldAt_trigger);
      try (apply plain_free; [plain_char | assumption]);
      [later_passes Hp | discriminate | exact Hfound].
  - rewrite (replaceAll_untriggered boldAt _ _ boldAt_trigger) by plain_parts.
    rewrite (replaceAll_untriggered italicAt _ _ italicAt_trigger) by plain_parts.
    rewrite Hd.
    rewrite (replaceAll_one strikeAt _ a _ inner b strikeAt_trigger);
      try (apply plain_free; [plain_char | assumption]);
      [later_passes Hp | discriminate | exact Hfound].
Qed.

Lemma flatten_code (a code b : string) :
  code <> "" ->
  plain a = true -> plain code = true -> plain b = true ->
  flattenInlineMarkdown (a ++ "`" ++ code ++ "`" ++ b) = trim (a ++ code ++ b).
Proof.
  intros Hne Ha Hc Hb.
  assert (Hp : plain (a ++ code ++ b) = true)
    by (now rewrite !plain_app, Ha, Hc, Hb).
  assert (Hcode : replaceAll codeAt (a ++ "`" ++ code ++ "`" ++ b)
                  = a ++ code ++ b).
  { replace ("`" ++ code ++ "`" ++ b) with (("`" ++ code ++ "`") ++ b)
      by (now rewrite !app_assoc).
    apply (replaceAll_one codeAt _ a _ code b codeAt_trigger);
      try (apply plain_free; [plain_char | assumption]); [discriminate|].
    rewrite !app_assoc.
    apply codeAt_found; [assumption | apply plain_isNot; [reflexivity | assumption]]. }
  unfold flattenInlineMarkdown.
  rewrite (replaceAll_untriggered imageAt _ _ imageAt_trigger) by plain_parts.
  rewrite (replaceAll_untriggered linkAt _ _ linkAt_trigger) by plain_parts.
  rewrite (replaceAll_untriggered boldAt _ _ boldAt_trigger) by plain_parts.
  rewrite (replaceAll_untriggered italicAt _ _ italicAt_trigger) by plain_parts.
  rewrite (replaceAll_untriggered strikeAt _ _ strikeAt_trigger) by plain_parts.
  now rewrite Hcode.
Qed.

Lemma replaceAllFrom_unmatched f (s : string) :
  unmatchedBy f s -> forall n, replaceAllFrom f n s = s.
Proof.
  induction s as [|c s IH]; intros H n; destruct n; try reflexivity; simpl.
  - simpl in H. now rewrite H.
  - destruct H as [H Hs]. rewrite H. now rewrite IH.
Qed.

Lemma unmatchedBy_plain f p (a s : string) :
  triggeredBy f p -> allChars (fun c => negb (p c)) a = true ->
  unmatchedBy f s -> unmatchedBy f (a ++ s).
Proof.
  intros [_ Hcons]. induction a as [|c a IH]; intros Ha Hs; [exact Hs|].
  simpl in Ha. apply andb_true_iff in Ha. destruct Ha as [Hc Ha].
  apply negb_true_iff in Hc. cbn [append unmatchedBy]. split.
  - now apply Hcons.
  - now apply IH.
Qed.

Lemma unmatchedBy_untriggered f p (s : string) :
  triggeredBy f p -> allChars (fun c => negb (p c)) s = true ->
  unmatchedBy f s.
Proof.
  intros Hf Hs. rewrite <- (app_empty_r s).
  apply (unmatchedBy_plain f p); [assumption | assumption | apply Hf].
Qed.

Lemma plain_head (c : ascii) (s : string) :
  plain (String c s) = true ->
  Ascii.eqb "*" c = false /\ Ascii.eqb "_" c = false /\ plain s = true.
Proof.
  unfold plain. simpl. rewrite andb_true_iff. intros [Hc Hs].
  unfold isPlain, isMark in Hc.
  apply andb_true_iff in Hc. destruct Hc as [_ Hc]. apply negb_true_iff in Hc.
  repeat (apply orb_false_iff in Hc; destruct Hc as [Hc ?]). auto.
Qed.

Lemma stripPrefix_differs (x c : ascii) (lit s : string) :
  Ascii.eqb x c = false -> stripPrefix (String x lit) (String c s) = None.
Proof. intros H. cbn [stripPrefix]. now rewrite H. Qed.

Lemma stripPrefix_same (x : ascii) (lit s : string) :
  stripPrefix (String x lit) (String x s) = stripPrefix lit s.
Proof. cbn [stripPrefix]. now rewrite Ascii.eqb_refl. Qed.

Ltac strip_marks :=
  unfold boldAt, delimitedAt;
  repeat first [ rewrite stripPrefix_same
               | rewrite stripPrefix_differs by (assumption || reflexivity) ];
  cbn [stripPrefix].

(** The bold pattern does not fire on a single mark. *)
Lemma boldAt_single (x : ascii) (inner b : string) :
  x = "*"%char \/ x = "_"%char ->
  plain inner = true -> plain b = true ->
  boldAt (String x (inner ++ String x b)) = None /\
  boldAt (String x b) = None.
Proof.
  intros Hx Hi Hb.
  assert (Hstar : lazyUntil isDot "**" b = None).
  { apply lazyUntil_none. apply plain_free; [plain_char | assumption]. }
  assert (Hunder : lazyUntil isDot "__" b = None).
  { apply lazyUntil_none. apply plain_free; [plain_char | assumption]. }
  assert (Hlast : boldAt (String x b) = None).
  { destruct b as [|c b].
    - destruct Hx as [-> | ->]; reflexivity.
    - destruct (plain_head _ _ Hb) as (H1 & H2 & _).
      destruct Hx as [-> | ->]; strip_marks; reflexivity. }
  split; [|exact Hlast].
  destruct inner as [|c inner].
  - cbn [append]. destruct Hx as [-> | ->]; strip_marks; assumption.
  - destruct (plain_head _ _ Hi) as (H1 & H2 & _).
    cbn [append]. destruct Hx as [-> | ->]; strip_marks; reflexivity.
Qed.

(** Italics: a single mark [*] or [_]. *)
Lemma flatten_single (x : ascii) (a inner b : string) :
  x = "*"%char \/ x = "_"%char ->
  plain a = true -> plain inner = true -> plain b = true ->
  flattenInlineMarkdown (a ++ String x "" ++ inner ++ String x "" ++ b)
  = trim (a ++ inner ++ b).
Proof.
  intros Hx Ha Hi Hb.
  assert (Hp : plain (a ++ inner ++ b) = true)
    by (now rewrite !plain_app, Ha, Hi, Hb).
  set (d := String x "").
  assert (Hbold : replaceAll boldAt (a ++ d ++ inner ++ d ++ b)
                  = a ++ d ++ inner ++ d ++ b).
  { apply replaceAllFrom_unmatched.
    destruct (boldAt_single x inner b Hx Hi Hb) as [K1 K2].
    apply (unmatchedBy_plain boldAt _ a _ boldAt_trigger);
      [apply plain_free; [plain_char | assumption]|].
    subst d. cbn [append unmatchedBy]. split; [exact K1|].
    apply (unmatchedBy_plain boldAt _ inner _ boldAt_trigger);
      [apply plain_free; [plain_char | assumption]|].
    cbn [unmatchedBy]. split; [exact K2|].
    apply (unmatchedBy_untriggered boldAt _ b boldAt_trigger).
    apply plain_free; [plain_char | assumption]. }
  assert (Hfound : italicAt ((d ++ inner ++ d) ++ b) = Some (inner, b)).
  { assert (Hdel : delimitedAt d ((d ++ inner ++ d) ++ b) = Some (inner, b)).
    { rewrite !app_assoc. apply delimitedAt_found.
      apply plain_inner; [|assumption].
      destruct Hx as [-> | ->]; reflexivity. }
    destruct Hx as [-> | ->]; exact Hdel. }
  assert (Hd : d ++ inner ++ d ++ b = (d ++ inner ++ d) ++ b)
    by (now rewrite !app_assoc).
  unfold flattenInlineMarkdown.
  rewrite (replaceAll_untriggered imageAt _ _ imageAt_trigger)
    by (destruct Hx as [-> | ->]; plain_parts).
  rewrite (replaceAll_untriggered linkAt _ _ linkAt_trigger)
    by (destruct Hx as [-> | ->]; plain_parts).
  rewrite Hbold, Hd.
  rewrite (replaceAll_one italicAt _ a _ inner b italicAt_trigger);
    try (apply plain_free; [plain_char | assumption]);
    [later_passes Hp | discriminate | exact Hfound].
Qed.

(** ** The claim about [extractH1] *)

Lemma dropNewline_twice (tail : string) :
  exists dropped,
    tail = dropped ++ dropNewline (dropNewline tail) /\
    (dropped = "" \/ dropped = nl \/ dropped = nl ++ nl).
Proof.
  destruct tail as [|c t]; [exists ""; auto|].
  cbn [dropNewline]. destruct (isNewline c) eqn:E.
  - apply isNewline_eq in E. subst c.
    destruct t as [|c' t']; [exists nl; auto|].
    cbn [dropNewline]. destruct (isNewline c') eqn:E'.
    + apply isNewline_eq in E'. subst c'. exists (nl ++ nl). auto.
    + exists nl. auto.
  - cbn [dropNewline]. rewrite E. exists "". auto.
Qed.

Lemma extractH1_decomposed (blanks rest : string) :
  BlankLines blanks -> ~ startsBlankLine rest ->
  (extractH1 (blanks ++ rest) = None <->
   ~ exists text tail, HeadingAt rest text tail) /\
  (forall text tail,
     HeadingAt rest text tail ->
     extractH1 (blanks ++ rest)
     = Some {| title := flattenInlineMarkdown text;
               body := dropNewline (dropNewline tail) |}).
Proof.
  intros Hb Hr.
  assert (Hfound : forall text tail,
     HeadingAt rest text tail ->
     extractH1 (blanks ++ rest)
     = Some {| title := flattenInlineMarkdown text;
               body := dropNewline (dropNewline tail) |}).
  { intros text tail Hh. unfold extractH1.
    now rewrite (H1_RE_exec_heading blanks rest text tail Hb Hr Hh). }
  split; [|exact Hfound]. split.
  - intros Hnone (text & tail & Hh). rewrite (Hfound _ _ Hh) in Hnone.
    discriminate.
  - intros Hno. unfold extractH1.
    destruct (H1_RE_exec (blanks ++ rest)) as [[rawTitle afterMatch]|] eqn:E;
      [|reflexivity].
    exfalso. apply Hno.
    destruct (H1_RE_exec_inv _ _ _ _ Hb Hr E) as (tail & Hh & _).
    now exists rawTitle, tail.
Qed.

(** C6, as the code has it.  Take the leading lines of white space, each
    ended by a line feed, off the markdown.  [extractH1] returns absent
    exactly when what is left does not begin with [# ] followed by at
    least one character other than a line terminator.  The heading text
    is the run of such characters after [# ]; the title is that text
    flattened; the body is what follows the heading text, less the line
    feed that ends the heading line and less one more line feed when one
    follows at once (so at most two line feeds are dropped, nothing else,
    and later [# ] lines stay as they are); it is empty when the heading
    is the only content.  Flattening leaves plain text alone ([#]
    included) up to [trim], and replaces an image by its alt text, a link
    by its link text, and bold, italic, strikethrough and inline code by
    what they enclose. *)
Theorem extractH1_leading_heading :
  (forall markdown,
     (exists blanks rest,
        markdown = blanks ++ rest /\ BlankLines blanks /\ ~ startsBlankLine rest) /\
     (forall blanks rest,
        markdown = blanks ++ rest -> BlankLines blanks -> ~ startsBlankLine rest ->
        (extractH1 markdown = None <->
         ~ exists text tail, HeadingAt rest text tail) /\
        (forall text tail,
           HeadingAt rest text tail ->
           extractH1 markdown
           = Some {| title := flattenInlineMarkdown text;
                     body := dropNewline (dropNewline tail) |} /\
           exists dropped,
             tail = dropped ++ dropNewline (dropNewline tail) /\
             (dropped = "" \/ dropped = nl \/ dropped = nl ++ nl)))) /\
  (forall blanks text tail,
     BlankLines blanks -> HeadingAt ("# " ++ text ++ tail) text tail ->
     extractH1 (blanks ++ "# " ++ text ++ tail)
     = Some {| title := flattenInlineMarkdown text;
               body := dropNewline (dropNewline tail) |}) /\
  (forall text,
     text <> "" -> allChars isDot text = true ->
     extractH1 ("# " ++ text)
     = Some {| title := flattenInlineMarkdown text; body := "" |}) /\
  (forall text, plain text = true -> flattenInlineMarkdown text = trim text) /\
  (forall a alt url b,
     plain a = true -> plain alt = true -> plain url = true -> plain b = true ->
     flattenInlineMarkdown (a ++ "![" ++ alt ++ "](" ++ url ++ ")" ++ b)
     = trim (a ++ alt ++ b)) /\
  (forall a label url b,
     plain a = true -> plain label = true -> plain url = true -> plain b = true ->
     flattenInlineMarkdown (a ++ "[" ++ label ++ "](" ++ url ++ ")" ++ b)
     = trim (a ++ label ++ b)) /\
  (forall mark a inner b,
     In mark ["**"; "__"; "*"; "_"; "~~"] ->
     plain a = true -> plain inner = true -> plain b = true ->
     flattenInlineMarkdown (a ++ mark ++ inner ++ mark ++ b)
     = trim (a ++ inner ++ b)) /\
  (forall a code b,
     code <> "" -> plain a = true -> plain code = true -> plain b = true ->
     flattenInlineMarkdown (a ++ "`" ++ code ++ "`" ++ b)
     = trim (a ++ code ++ b)) /\
  (extractH1 ("# Title" ++ nl ++ nl ++ "Body.")
     = Some {| title := "Title"; body := "Body." |} /\
   extractH1 ("## Sub" ++ nl ++ nl ++ "Body") = None /\
   extractH1 ("Text." ++ nl ++ nl ++ "# Title") = None /\
   extractH1 ("# First" ++ nl ++ nl ++ "# Second" ++ nl ++ nl ++ "Body")
     = Some {| title := "First"; body := "# Second" ++ nl ++ nl ++ "Body" |} /\
   extractH1 ("# C# Guide" ++ nl ++ nl ++ "Body")
     = Some {| title := "C# Guide"; body := "Body" |}).
Proof.
  split; [|split; [|split; [|split; [|split; [|split; [|split; [|split]]]]]]].
  - intros markdown. split; [apply decomposition_exists|].
    intros blanks rest -> Hb Hr.
    destruct (extractH1_decomposed blanks rest Hb Hr) as [Hiff Hfound].
    split; [exact Hiff|].
    intros text tail Hh. split; [now apply Hfound | apply dropNewline_twice].
  - intros blanks text tail Hb Hh.
    assert (Hr : ~ startsBlankLine ("# " ++ text ++ tail))
      by (apply blankLine_None; reflexivity).
    destruct (extractH1_decomposed blanks _ Hb Hr) as [_ Hfound].
    now apply Hfound.
  - intros text Hne Hdot.
    assert (Hr : ~ startsBlankLine ("# " ++ text))
      by (apply blankLine_None; reflexivity).
    destruct (extractH1_decomposed "" ("# " ++ text) BlankLines_nil Hr) as [_ Hfound].
    apply (Hfound text ""). repeat split; try assumption.
    now rewrite app_empty_r.
  - apply flattenInlineMarkdown_plain.
  - apply flatten_image.
  - apply flatten_link.
  - intros mark a inner b Hmark Ha Hi Hb. simpl in Hmark.
    destruct Hmark as [<- | [<- | [<- | [<- | [<- | []]]]]].
    + apply (flatten_doubled "*"); auto.
    + apply (flatten_doubled "_"); auto.
    + apply (flatten_single "*"); auto.
    + apply (flatten_single "_"); auto.
    + apply (flatten_doubled "~"); auto.
  - apply flatten_code.
  - repeat split; reflexivity.
Qed.

Lemma extractH1_leading_heading_witness :
  HeadingAt ("# My **Bold** Title" ++ nl ++ nl ++ "Content.")
    "My **Bold** Title" (nl ++ nl ++ "Content.") /\
  extractH1 (nl ++ " " ++ nl ++ "# My **Bold** Title" ++ nl ++ nl ++ "Content.")
  = Some {| title := "My Bold Title"; body := "Content." |}.
Proof.
  assert (Hh : HeadingAt ("# My **Bold** Title" ++ nl ++ nl ++ "Content.")
                 "My **Bold** Title" (nl ++ nl ++ "Content."))
    by (repeat split; discriminate).
  split; [exact Hh|].
  destruct extractH1_leading_heading as (Hmain & _).
  destruct (Hmain (nl ++ " " ++ nl ++ "# My **Bold** Title" ++ nl ++ nl ++ "Content."))
    as [_ Hdec].
  destruct (Hdec (nl ++ " " ++ nl)
                 ("# My **Bold** Title" ++ nl ++ nl ++ "Content.")) as [_ Hfound].
  - reflexivity.
  - apply (BlankLines_cons "" (" " ++ nl)); [reflexivity|].
    apply (BlankLines_cons " " ""); [reflexivity | constructor].
  - apply blankLine_None. reflexivity.
  - destruct (Hfound _ _ Hh) as [-> _]. f_equal.
Defined.

(** C6 as the specification words it fails twice.  A first non-blank
    line that is just [# ] begins with [# ], and the result is absent.
    And with a carriage return before the line feed the heading text
    stops at the carriage return: the body keeps the end of the heading
    line, where the text after that line is [Body.]. *)
Lemma extractH1_words_counterexample :
  (extractH1 "# " = None /\ noLeadingHeading "# " = false) /\
  (extractH1 ("# Title" ++ cr ++ nl ++ "Body.")
   = Some {| title := "Title"; body := cr ++ nl ++ "Body." |} /\
   firstNonBlankLine ("# Title" ++ cr ++ nl ++ "Body.")
   = Some ("# Title" ++ cr, "Body.")).
Proof. repeat split; reflexivity. Qed.

End H1Spec.

(* ================================================================== *)
(** * Properties of the loader *)
(* ================================================================== *)

Module LoaderSpec.
Import Text Loader.

Lemma truthy_false (v : option Value) :
  truthy v = false <->
  v = None \/ v = Some VNull \/ v = Some (VBool false) \/
  v = Some (VNum 0) \/ v = Some VNaN \/ v = Some (VStr "").
Proof.
  split.
  - destruct v as [[|b|n| |s|items|props]|]; simpl; intros H;
      try discriminate; try tauto.
    + subst b. tauto.
    + apply negb_false_iff, Z.eqb_eq in H. subst n. tauto.
    + apply negb_false_iff, String.eqb_eq in H. subst s. tauto.
  - intros [-> | [-> | [-> | [-> | [-> | ->]]]]]; reflexivity.
Qed.

(** C5, as the code has it.  The guard of the title injection is
    [!merged.title]: the injection is tried exactly when the merged
    record's [title] is absent or falsy, that is [null], [false], [0],
    [NaN] or the empty string.  A truthy title is never overwritten.  With
    a falsy title, a readable file and a leading heading the title
    becomes the heading text; with an unreadable file or no leading
    heading the merged record goes on as it is. *)
Theorem wrappedParseData_title (fmMap : list (string * Data))
  (rootDir normalizedBase : string) (at_file : option Fs.Node)
  (props : ParseDataProps) (file : string) :
  filePath props = Some file -> file <> "" ->
  let merged :=
    Merge.deepMerge (externalDataOf fmMap normalizedBase file) (data props) in
  let passed :=
    data (wrappedParseData fmMap rootDir normalizedBase at_file props) in
  (truthy (lookup "title" merged) = true -> passed = merged) /\
  (truthy (lookup "title" merged) = false ->
   forall raw h1,
     at_file = Some (Fs.File raw) -> H1.extractH1 (bodyOf raw) = Some h1 ->
     passed = set "title" (VStr (H1.title h1)) merged) /\
  (truthy (lookup "title" merged) = false ->
   (forall raw, at_file = Some (Fs.File raw) -> H1.extractH1 (bodyOf raw) = None) ->
   passed = merged) /\
  (truthy (lookup "title" merged) = false <->
   lookup "title" merged = None \/ lookup "title" merged = Some VNull \/
   lookup "title" merged = Some (VBool false) \/
   lookup "title" merged = Some (VNum 0) \/
   lookup "title" merged = Some VNaN \/ lookup "title" merged = Some (VStr "")).
Proof.
  intros Hfile Hne merged passed. subst passed. unfold wrappedParseData.
  rewrite Hfile. apply String.eqb_neq in Hne. rewrite Hne.
  fold merged. cbn [data].
  split; [|split; [|split]].
  - now intros ->.
  - intros -> raw h1 -> Hh1. cbn [negb]. unfold injectTitle. simpl.
    now rewrite Hh1.
  - intros -> Hnone. cbn [negb]. unfold injectTitle.
    destruct at_file as [[raw|entries]|]; simpl; try reflexivity.
    now rewrite (Hnone raw eq_refl).
  - apply truthy_false.
Qed.

Lemma wrappedParseData_title_witness :
  Loader.filePath Samples.untitledProps = Some "docs/guides/with-h1.md" /\
  data (wrappedParseData Samples.sampleMap "/site" "docs"
          (Some (Fs.File Samples.withH1File)) Samples.untitledProps)
  = [("description", VStr "d"); ("sidebar", VObj [("order", VNum 1)]);
     ("draft", VBool true); ("title", VStr "Installation Guide")].
Proof.
  split; [reflexivity|].
  destruct (wrappedParseData_title Samples.sampleMap "/site" "docs"
              (Some (Fs.File Samples.withH1File)) Samples.untitledProps
              "docs/guides/with-h1.md" eq_refl) as (_ & Hinject & _).
  - discriminate.
  - rewrite (Hinject eq_refl Samples.withH1File
               {| H1.title := "Installation Guide"; H1.body := "Steps." |}
               eq_refl eq_refl).
    reflexivity.
Defined.

(** C5 as the specification words it fails: a title that is the empty
    string is present in the merged record, and the heading text replaces
    it. *)
Lemma wrappedParseData_empty_title_counterexample :
  has "title" (Merge.deepMerge (externalDataOf Samples.sampleMap "docs"
                                  "docs/guides/with-h1.md")
                 (data Samples.emptyTitleProps)) = true /\
  lookup "title"
    (data (wrappedParseData Samples.sampleMap "/site" "docs"
             (Some (Fs.File Samples.withH1File)) Samples.emptyTitleProps))
  = Some (VStr "Installation Guide").
Proof. split; reflexivity. Qed.

(** What the wrapped [store.set] does to the rendered part does not
    depend on the body. *)
Lemma wrappedSet_rendered (entry : Entry) (r : Rendered) :
  rendered entry = Some r ->
  rendered (wrappedSet entry) = Some (stripRendered r).
Proof. intros H. unfold wrappedSet. cbn [rendered]. now rewrite H. Qed.

(** C4 at the entry of the loader test "does not strip H1 from rendered
    HTML when H1 is not first content".  [extractH1] finds no leading
    heading in the body, and the wrapped [store.set] still removes the
    level-1 heading element from the rendered HTML and the depth-1 entry
    from the headings: the stripping of the rendered part is not gated on
    the body.  On the entry with a leading heading all three are
    stripped, as the claim says. *)
Theorem wrappedSet_buried_heading :
  H1.extractH1 Samples.buriedBody = None /\
  wrappedSet Samples.buriedEntry
  = {| entryId := "buried-h1";
       entryData := [("title", VStr "Has Buried H1")];
       body := Some Samples.buriedBody;
       rendered :=
         Some {| html := "<p>Some intro text.</p>" ++ nl ++ "<p>More content.</p>";
                 metadata := Some {| headings := Some [] |} |} |} /\
  wrappedSet Samples.withH1Entry
  = {| entryId := "guides/with-h1";
       entryData := [("draft", VBool true)];
       body := Some "Follow these steps to install.";
       rendered :=
         Some {| html := "<p>Follow these steps to install.</p>";
                 metadata :=
                   Some {| headings :=
                     Some [ {| depth := 2; slug := "step-one";
                               text := "Step One" |} ] |} |} |}.
Proof. repeat split; reflexivity. Qed.

End LoaderSpec.

(* ================================================================== *)
(** * The test suite of the repository, replayed on the model *)
(* ================================================================== *)

Module RepositoryTests.
Import Text.

(** test/h1.test.ts, [extractH1] *)
Example extracts_H1_and_strips_it_from_body :
  H1.extractH1 ("# My Title" ++ nl ++ nl ++ "Some content here.")
  = Some {| H1.title := "My Title"; H1.body := "Some content here." |}.
Proof. reflexivity. Qed.

Example handles_leading_blank_lines_before_H1 :
  H1.extractH1 (nl ++ nl ++ "# My Title" ++ nl ++ nl ++ "Content.")
  = Some {| H1.title := "My Title"; H1.body := "Content." |}.
Proof. reflexivity. Qed.

Example strips_single_trailing_blank_line_after_H1 :
  H1.extractH1 ("# Title" ++ nl ++ nl ++ "Paragraph one." ++ nl ++ nl
                ++ "Paragraph two.")
  = Some {| H1.title := "Title";
            H1.body := "Paragraph one." ++ nl ++ nl ++ "Paragraph two." |}.
Proof. reflexivity. Qed.

Example returns_null_when_no_H1_present :
  H1.extractH1 ("## Subtitle" ++ nl ++ nl ++ "Content.") = None.
Proof. reflexivity. Qed.

Example returns_null_when_H1_is_not_the_first_content :
  H1.extractH1 ("Some text first." ++ nl ++ nl ++ "# Title After Content") = None.
Proof. reflexivity. Qed.

Example only_extracts_the_first_H1 :
  H1.extractH1 ("# First" ++ nl ++ nl ++ "# Second" ++ nl ++ nl ++ "Content.")
  = Some {| H1.title := "First";
            H1.body := "# Second" ++ nl ++ nl ++ "Content." |}.
Proof. reflexivity. Qed.

Example flattens_inline_markdown :
  H1.extractH1 ("# My **Bold** and *Italic* Title" ++ nl ++ nl ++ "Content.")
  = Some {| H1.title := "My Bold and Italic Title"; H1.body := "Content." |}.
Proof. reflexivity. Qed.

Example flattens_inline_code :
  H1.extractH1 ("# Using `async/await` in Node" ++ nl ++ nl ++ "Content.")
  = Some {| H1.title := "Using async/await in Node"; H1.body := "Content." |}.
Proof. reflexivity. Qed.

Example flattens_links :
  H1.extractH1 ("# The [Astro](https://astro.build) Loader" ++ nl ++ nl ++ "Content.")
  = Some {| H1.title := "The Astro Loader"; H1.body := "Content." |}.
Proof. reflexivity. Qed.

Example returns_empty_body_when_file_is_only_an_H1 :
  H1.extractH1 "# Just a Title" = Some {| H1.title := "Just a Title"; H1.body := "" |}.
Proof. reflexivity. Qed.

Example preserves_body_when_H1_has_no_trailing_blank_line :
  H1.extractH1 ("# Title" ++ nl ++ "Immediate content.")
  = Some {| H1.title := "Title"; H1.body := "Immediate content." |}.
Proof. reflexivity. Qed.

Example handles_whitespace_only_lines_before_H1 :
  H1.extractH1 ("   " ++ nl ++ tab ++ nl ++ "# Title" ++ nl ++ nl ++ "Content.")
  = Some {| H1.title := "Title"; H1.body := "Content." |}.
Proof. reflexivity. Qed.

Example preserves_hash_character_in_title_text :
  H1.extractH1 ("# C# Programming Guide" ++ nl ++ nl ++ "Content.")
  = Some {| H1.title := "C# Programming Guide"; H1.body := "Content." |}.
Proof. reflexivity. Qed.

(** test/h1.test.ts, [stripH1Html] *)
Example removes_first_h1_tag :
  H1.stripH1Html ("<h1>My Title</h1>" ++ nl ++ "<p>Content.</p>")
  = "<p>Content.</p>".
Proof. reflexivity. Qed.

Example only_removes_the_first_h1 :
  H1.stripH1Html ("<h1>First</h1>" ++ nl ++ "<h1>Second</h1>" ++ nl ++ "<p>Content.</p>")
  = "<h1>Second</h1>" ++ nl ++ "<p>Content.</p>".
Proof. reflexivity. Qed.

Example handles_h1_with_attributes :
  H1.stripH1Html ("<h1 id='title' class='big'>Title</h1>" ++ nl ++ "<p>Rest.</p>")
  = "<p>Rest.</p>".
Proof. reflexivity. Qed.

Example handles_h1_with_inline_elements :
  H1.stripH1Html ("<h1>My <strong>Bold</strong> Title</h1>" ++ nl ++ "<p>Rest.</p>")
  = "<p>Rest.</p>".
Proof. reflexivity. Qed.

Example returns_html_unchanged_without_h1 :
  H1.stripH1Html ("<h2>Subtitle</h2>" ++ nl ++ "<p>Content.</p>")
  = "<h2>Subtitle</h2>" ++ nl ++ "<p>Content.</p>".
Proof. reflexivity. Qed.

Example strips_trailing_newlines_after_h1 :
  H1.stripH1Html ("<h1>Title</h1>" ++ nl ++ nl ++ "<p>Content.</p>")
  = "<p>Content.</p>".
Proof. reflexivity. Qed.

(** test/merge.test.ts *)
Example merges_flat_objects :
  Merge.deepMerge [("a", VNum 1)] [("b", VNum 2)] = [("a", VNum 1); ("b", VNum 2)].
Proof. reflexivity. Qed.

Example overwrites_scalar_values :
  Merge.deepMerge [("a", VNum 1)] [("a", VNum 2)] = [("a", VNum 2)].
Proof. reflexivity. Qed.

Example deep_merges_nested_objects :
  Merge.deepMerge
    [("sidebar", VObj [("order", VNum 1); ("label", VStr "Guide")])]
    [("sidebar", VObj [("order", VNum 5)])]
  = [("sidebar", VObj [("order", VNum 5); ("label", VStr "Guide")])].
Proof. reflexivity. Qed.

Example overwrites_arrays :
  Merge.deepMerge [("tags", VArr [VStr "a"])] [("tags", VArr [VStr "b"; VStr "c"])]
  = [("tags", VArr [VStr "b"; VStr "c"])].
Proof. reflexivity. Qed.

Example handles_empty_objects :
  Merge.deepMerge [] [("a", VNum 1)] = [("a", VNum 1)] /\
  Merge.deepMerge [("a", VNum 1)] [] = [("a", VNum 1)].
Proof. split; reflexivity. Qed.

Example handles_null_values_in_source :
  Merge.deepMerge [("a", VNum 1)] [("a", VNull)] = [("a", VNull)].
Proof. reflexivity. Qed.

Example skips_blocked_keys_of_the_source :
  Merge.deepMerge [] [("constructor", VStr "bad")] = [].
Proof. reflexivity. Qed.

(** test/frontmatter-map.test.ts *)
Example handles_mixed_nested_and_flat_keys :
  FrontmatterMap.flattenToMap
    [("guides/installation.md", VObj [("title", VStr "Flat")]);
     ("components", VObj [("accordion.md", VObj [("title", VStr "Nested")])])] ""
  = [("guides/installation.md", [("title", VStr "Flat")]);
     ("components/accordion.md", [("title", VStr "Nested")])].
Proof. reflexivity. Qed.

Example returns_empty_map_for_empty_input :
  FrontmatterMap.flattenToMap [] "" = [].
Proof. reflexivity. Qed.

Example returns_empty_object_for_missing_file :
  FrontmatterMap.parseCentralFile (parsers := Samples.sampleParsers)
    "/nonexistent/file.yml" None = Ok [].
Proof. reflexivity. Qed.

Example returns_empty_map_when_neither_source_exists :
  FrontmatterMap.loadFrontmatterMap (parsers := Samples.sampleParsers)
    {| FrontmatterMap.centralFile := None;
       FrontmatterMap.at_centralFile := None;
       FrontmatterMap.basePath := "/nonexistent";
       FrontmatterMap.at_basePath := None |}
  = Ok [].
Proof. reflexivity. Qed.

(** The documentation of [path.extname] *)
Example extname_of_the_node_documentation :
  map Path.extname
    ["index.html"; "index.coffee.md"; "index."; "index"; ".index"; ".index.md"]
  = [".html"; ".md"; "."; ""; ""; ".md"].
Proof. reflexivity. Qed.

(** test/loader.test.ts *)
Example file_data_wins_over_external_frontmatter :
  Loader.data
    (Loader.wrappedParseData
       [("guides/installation.md",
         [("title", VStr "Installation"); ("sidebar", VObj [("order", VNum 1)])])]
       "/site" "docs" None
       {| Loader.id := "guides/installation";
          Loader.data := [("title", VStr "From File"); ("draft", VBool true)];
          Loader.filePath := Some "docs/guides/installation.md" |})
  = [("title", VStr "From File"); ("sidebar", VObj [("order", VNum 1)]);
     ("draft", VBool true)].
Proof. reflexivity. Qed.

Example injects_H1_as_title_when_frontmatter_has_no_title :
  lookup "title"
    (Loader.data
       (Loader.wrappedParseData Samples.sampleMap "/site" "docs"
          (Some (Fs.File Samples.withH1File)) Samples.untitledProps))
  = Some (VStr "Installation Guide").
Proof. reflexivity. Qed.

Example handles_entries_with_no_body :
  Loader.body
    (Loader.wrappedSet
       {| Loader.entryId := "no-body";
          Loader.entryData := [("title", VStr "No Body")];
          Loader.body := None;
          Loader.rendered := None |})
  = None.
Proof. reflexivity. Qed.

End RepositoryTests.

(* ================================================================== *)
(** * Further properties of [deepMerge] *)
(* ================================================================== *)

Module MergeMore.
Import Merge MergeSpec.

Section TableMore.
Context {V : Type}.
Implicit Types (m : list (string * V)) (k : string) (v : V).

Lemma In_set_inv k v k' v' m :
  In (k', v') (set k v m) -> (k', v') = (k, v) \/ In (k', v') m.
Proof.
  induction m as [|[k0 v0] m IH]; simpl.
  - intros [H | []]. left. now symmetry.
  - destruct (String.eqb k k0); simpl.
    + intros [H | H]; [left; now symmetry | right; now right].
    + intros [H | H]; [right; now left|].
      destruct (IH H) as [H' | H']; [now left | right; now right].
Qed.

Lemma set_fresh k v m : lookup k m = None -> set k v m = (m ++ [(k, v)])%list.
Proof.
  induction m as [|[k0 v0] m IH]; simpl; [reflexivity|].
  destruct (String.eqb k k0); [discriminate|]. intros H. now rewrite IH.
Qed.

Lemma lookup_app_fresh k k' v' m :
  k <> k' -> lookup k m = None -> lookup k (m ++ [(k', v')])%list = None.
Proof.
  intros Hne. induction m as [|[k0 v0] m IH]; simpl.
  - apply String.eqb_neq in Hne. now rewrite Hne.
  - destruct (String.eqb k k0); [discriminate | exact IH].
Qed.

End TableMore.

Lemma wfData_intro (d : Data) :
  NoDup (keys d) -> (forall k v, In (k, v) d -> wfValue v = true) ->
  wfData d = true.
Proof.
  intros Hnd Hv. unfold wfData. simpl. apply andb_true_intro. split.
  - now apply distinct_NoDup.
  - apply forallb_forall. intros [k v] Hin. now apply (Hv k v).
Qed.

Lemma wfData_set (k : string) (v : Value) (d : Data) :
  wfData d = true -> wfValue v = true -> wfData (set k v d) = true.
Proof.
  intros Hd Hv. destruct (wfData_inv _ Hd) as [Hnd Hvals].
  apply wfData_intro; [now apply NoDup_set|].
  intros k' v' Hin. apply In_set_inv in Hin.
  destruct Hin as [[= -> ->] | Hin]; [assumption | now apply (Hvals k')].
Qed.

Lemma wfData_deepMerge_value (v : Value) :
  match v with
  | VObj source =>
      wfData source = true ->
      forall target, wfData target = true ->
                     wfData (deepMerge target source) = true
  | _ => True
  end.
Proof.
  induction v as [| | | | | |source IH] using Value_deep_ind; try exact I.
  intros Hs. destruct (wfData_inv _ Hs) as [_ Hvals]. clear Hs.
  intros target. rewrite deepMerge_loop. revert target.
  induction source as [|[key sVal] rest IHrest]; intros target Ht; [exact Ht|].
  inversion IH as [|? ? IHhead IHtail]; subst.
  cbn [fold_left]. apply IHrest; [assumption | |].
  - intros k v Hin. apply (Hvals k v). now right.
  - unfold mergeStep. destruct (blocked key); [assumption|].
    apply wfData_set; [assumption|].
    assert (HsVal : wfValue sVal = true) by (apply (Hvals key); now left).
    unfold assign.
    destruct (lookup key target) as [[| | | | | |t]|] eqn:Hl; try exact HsVal.
    destruct sVal as [| | | | | |s]; try exact HsVal.
    cbn [snd] in IHhead. apply (IHhead HsVal).
    destruct (wfData_inv _ Ht) as [_ Htv]. apply (Htv key).
    now apply lookup_In.
Qed.

(** X1.  [deepMerge] never invents a key: the keys of the result are the
    keys of the base and the keys of the overlay that are not blocked,
    and no others. *)
Theorem deepMerge_keys (base overlay : Data) (k : string) :
  has k (deepMerge base overlay) = true <->
  has k base = true \/ (has k overlay = true /\ blocked k = false).
Proof.
  split.
  - apply has_deepMerge_inv.
  - intros [H | [H Hb]];
      [now apply has_deepMerge_target | now apply has_deepMerge_source].
Qed.

(** X2.  Keys that only one side has pass through: the result holds the
    base's value under a key that the overlay lacks, and the overlay's
    value, as it is, under a key that is not blocked and that the base
    lacks. *)
Theorem deepMerge_passthrough (base overlay : Data) (k : string) :
  distinct (keys overlay) = true ->
  (lookup k overlay = None ->
   lookup k (deepMerge base overlay) = lookup k base) /\
  (lookup k base = None -> blocked k = false ->
   lookup k (deepMerge base overlay) = lookup k overlay).
Proof.
  intros Hd. apply distinct_NoDup in Hd. split.
  - intros Ho. now rewrite lookup_deepMerge, Ho.
  - intros Hb Hk. rewrite lookup_deepMerge by assumption.
    rewrite Hb, Hk. now destruct (lookup k overlay).
Qed.

Lemma deepMerge_passthrough_witness :
  distinct (keys Samples.sampleOverlay) = true /\
  lookup "draft" (deepMerge Samples.sampleBase Samples.sampleOverlay)
  = Some (VBool true).
Proof.
  split; [reflexivity|].
  destruct (deepMerge_passthrough Samples.sampleBase Samples.sampleOverlay
              "draft" eq_refl) as [_ H].
  rewrite H; reflexivity.
Defined.

(** X3.  [deepMerge] keeps records well formed: when no key occurs twice
    in the base or in the overlay, at any depth, none occurs twice in the
    result. *)
Theorem deepMerge_wellFormed (base overlay : Data) :
  wfData base = true -> wfData overlay = true ->
  wfData (deepMerge base overlay) = true.
Proof.
  intros Hb Ho. exact (wfData_deepMerge_value (VObj overlay) Ho base Hb).
Qed.

Lemma deepMerge_wellFormed_witness :
  wfData Samples.sampleBase = true /\ wfData Samples.sampleOverlay = true /\
  wfData (deepMerge Samples.sampleBase Samples.sampleOverlay) = true.
Proof.
  split; [reflexivity|]. split; [reflexivity|].
  apply (deepMerge_wellFormed Samples.sampleBase Samples.sampleOverlay);
    reflexivity.
Defined.

Lemma fold_mergeStep_fresh (source acc : Data) :
  NoDup (keys source) ->
  (forall k, In k (keys source) -> lookup k acc = None) ->
  fold_left mergeStep source acc
  = (acc ++ filter (fun kv => negb (blocked (fst kv))) source)%list.
Proof.
  revert acc. induction source as [|[key sVal] rest IH]; intros acc Hnd Hfresh.
  - simpl. now rewrite app_nil_r.
  - inversion Hnd as [|? ? Hkey Hrest]; subst.
    cbn [fold_left filter fst]. unfold mergeStep at 2.
    destruct (blocked key) eqn:Hb; cbn [negb].
    + apply IH; [assumption|]. intros k Hk. apply Hfresh. now right.
    + assert (Hnone : lookup key acc = None) by (apply Hfresh; now left).
      rewrite Hnone. cbn [assign]. rewrite (set_fresh _ _ _ Hnone).
      rewrite IH; [now rewrite <- app_assoc | assumption |].
      intros k Hk. apply lookup_app_fresh.
      * intros ->. contradiction.
      * apply Hfresh. now right.
Qed.

(** X4.  The empty record is neutral on the right, and on the left up to
    the guard: merging nothing changes nothing, and merging into the
    empty record gives the overlay less its top-level blocked keys, the
    values as they are and in the overlay's order. *)
Theorem deepMerge_empty (record : Data) :
  distinct (keys record) = true ->
  deepMerge record [] = record /\
  deepMerge [] record = filter (fun kv => negb (blocked (fst kv))) record.
Proof.
  intros Hd. apply distinct_NoDup in Hd. split; [reflexivity|].
  rewrite deepMerge_loop. now rewrite fold_mergeStep_fresh.
Qed.

Lemma deepMerge_empty_witness :
  distinct (keys Samples.pollutedOverlay) = true /\
  deepMerge [] Samples.pollutedOverlay = [("title", VStr "T")].
Proof.
  split; [reflexivity|].
  destruct (deepMerge_empty Samples.pollutedOverlay eq_refl) as [_ H].
  rewrite H. reflexivity.
Defined.





(** X6.  Merging a record over itself gives the record back. *)
Theorem deepMerge_self (record : Data) :
  wfData record = true -> deepMerge record record = record.
Proof.
  intros Hwf. now destruct (deepMerge_again_value (VObj record) Hwf) as [H _].
Qed.

Lemma deepMerge_self_witness :
  wfData Samples.sampleBase = true /\
  deepMerge Samples.sampleBase Samples.sampleBase = Samples.sampleBase.
Proof.
  split; [reflexivity | apply (deepMerge_self Samples.sampleBase); reflexivity].
Defined.

Lemma assign_nonrecord (tVal : option Value) (sVal : Value) :
  isPlainObject sVal = false -> assign tVal sVal = sVal.
Proof.
  intros H. unfold assign.
  destruct tVal as [[]|]; destruct sVal; try reflexivity; discriminate.
Qed.

(** X7.  The cascade of the loader, [deepMerge(deepMerge(central, perDir),
    file)]: under a key that is not blocked, a value of the file that is
    not a record wins; failing that, such a value of the per-directory
    record; with neither, what the centralized record holds.  Records
    held by all three are merged in that order. *)
Theorem deepMerge_cascade (central perDir file : Data) (k : string) :
  distinct (keys perDir) = true -> distinct (keys file) = true ->
  blocked k = false ->
  let result := deepMerge (deepMerge central perDir) file in
  (forall v, lookup k file = Some v -> isPlainObject v = false ->
             lookup k result = Some v) /\
  (forall v, lookup k file = None -> lookup k perDir = Some v ->
             isPlainObject v = false -> lookup k result = Some v) /\
  (lookup k file = None -> lookup k perDir = None ->
   lookup k result = lookup k central) /\
  (forall c d f,
     lookup k central = Some (VObj c) -> lookup k perDir = Some (VObj d) ->
     lookup k file = Some (VObj f) ->
     lookup k result = Some (VObj (deepMerge (deepMerge c d) f))).
Proof.
  intros Hd Hf Hb result. subst result.
  apply distinct_NoDup in Hd. apply distinct_NoDup in Hf.
  rewrite (lookup_deepMerge _ file) by assumption.
  rewrite (lookup_deepMerge central perDir) by assumption. rewrite Hb.
  split; [|split; [|split]].
  - intros v -> Hv. f_equal. now apply assign_nonrecord.
  - intros v -> -> Hv. f_equal. now apply assign_nonrecord.
  - now intros -> ->.
  - now intros c d f -> -> ->.
Qed.

Lemma deepMerge_cascade_witness :
  distinct (keys [("title", VStr "PerDir"); ("slug", VStr "s")]) = true /\
  lookup "title"
    (deepMerge (deepMerge [("title", VStr "Central"); ("description", VStr "d")]
                  [("title", VStr "PerDir"); ("slug", VStr "s")])
       [("title", VStr "File")])
  = Some (VStr "File").
Proof.
  split; [reflexivity|].
  destruct (deepMerge_cascade
              [("title", VStr "Central"); ("description", VStr "d")]
              [("title", VStr "PerDir"); ("slug", VStr "s")]
              [("title", VStr "File")] "title" eq_refl eq_refl eq_refl)
    as [H _].
  apply H; reflexivity.
Defined.

End MergeMore.

(* ================================================================== *)
(** * Further properties of [extractH1] and [stripH1Html] *)
(* ================================================================== *)

Module H1More.
Import Text TextFacts H1 H1Spec.

(** What a match looks like. *)
Lemma extractH1_shape (markdown : string) (r : H1Result) :
  extractH1 markdown = Some r ->
  exists blanks text tail,
    markdown = blanks ++ "# " ++ text ++ tail /\
    BlankLines blanks /\ text <> "" /\ allChars isDot text = true /\
    endsLine tail = true /\
    title r = flattenInlineMarkdown text /\
    body r = dropNewline (dropNewline tail).
Proof.
  destruct (decomposition_exists markdown) as (blanks & rest & -> & Hb & Hr).
  unfold extractH1.
  destruct (H1_RE_exec (blanks ++ rest)) as [[rawTitle afterMatch]|] eqn:E;
    [|discriminate].
  intros [= <-].
  destruct (H1_RE_exec_inv _ _ _ _ Hb Hr E) as (tail & (-> & Hne & Hdot & Hend) & ->).
  exists blanks, rawTitle, tail. repeat split; assumption.
Qed.

Lemma BlankLines_space (blanks : string) :
  BlankLines blanks -> allChars isSpace blanks = true.
Proof.
  induction 1 as [|ws rest Hws _ IH]; [reflexivity|].
  rewrite !allChars_app, IH.
  rewrite (allChars_weaken isHSpace isSpace ws); [reflexivity | | assumption].
  intros c Hc. unfold isHSpace in Hc. now apply andb_true_iff in Hc.
Qed.

(** ** [trim] *)

Lemma trimEnd_idempotent (s : string) : trimEnd (trimEnd s) = trimEnd s.
Proof.
  induction s as [|c s IH]; [reflexivity|]. cbn [trimEnd].
  destruct (trimEnd s) as [|c' r] eqn:E.
  - destruct (isSpace c) eqn:Hc; [reflexivity|]. cbn [trimEnd]. now rewrite Hc.
  - cbn [trimEnd]. cbn [trimEnd] in IH. now rewrite IH.
Qed.

Lemma stopsAt_trimEnd (s : string) :
  stopsAt isSpace s = true -> stopsAt isSpace (trimEnd s) = true.
Proof.
  destruct s as [|c s]; [reflexivity|]. cbn [stopsAt trimEnd]. intros Hc.
  destruct (trimEnd s); [|exact Hc].
  apply negb_true_iff in Hc. rewrite Hc. cbn [stopsAt]. now rewrite Hc.
Qed.

Lemma trim_idempotent (s : string) : trim (trim s) = trim s.
Proof.
  unfold trim.
  rewrite (dropWhile_stop isSpace (trimEnd (dropWhile isSpace s)))
    by (apply stopsAt_trimEnd, stopsAt_dropWhile).
  apply trimEnd_idempotent.
Qed.

Lemma allChars_dropWhile (p q : ascii -> bool) (s : string) :
  allChars p s = true -> allChars p (dropWhile q s) = true.
Proof.
  induction s as [|c s IH]; [reflexivity|]. simpl.
  rewrite andb_true_iff. intros [Hc Hs].
  destruct (q c); [now apply IH | simpl; now rewrite Hc, Hs].
Qed.

Lemma allChars_trimEnd (p : ascii -> bool) (s : string) :
  allChars p s = true -> allChars p (trimEnd s) = true.
Proof.
  induction s as [|c s IH]; [reflexivity|]. simpl.
  rewrite andb_true_iff. intros [Hc Hs]. specialize (IH Hs).
  destruct (trimEnd s).
  - destruct (isSpace c); [reflexivity | simpl; now rewrite Hc].
  - cbn [allChars]. cbn [allChars] in IH. now rewrite Hc, IH.
Qed.

(** ** The replacements only cut *)

Lemma replaceAllFrom_allChars f (p : ascii -> bool) :
  cuts f ->
  forall n s, allChars p s = true -> allChars p (replaceAllFrom f n s) = true.
Proof.
  intros Hf. induction n as [|n IH]; intros s Hs; [exact Hs|].
  cbn [replaceAllFrom]. destruct (f s) as [[r rest]|] eqn:E.
  - destruct (Hf _ _ _ E) as (x & y & ->).
    rewrite !allChars_app in Hs. rewrite !andb_true_iff in Hs.
    destruct Hs as (_ & Hr & _ & Hrest).
    rewrite allChars_app, Hr. now apply IH.
  - destruct s as [|c s]; [reflexivity|]. simpl in *.
    apply andb_true_iff in Hs. destruct Hs as [Hc Hs]. rewrite Hc.
    now apply IH.
Qed.

Lemma bracketed_cuts (lit s s1 s2 rest : string) (c : ascii) :
  stripPrefix lit s = Some s1 ->
  stripPrefix "](" (dropWhile (isNot "]") s1) = Some s2 ->
  dropWhile (isNot ")") s2 = String c rest ->
  s = lit ++ takeWhile (isNot "]") s1
      ++ ("](" ++ takeWhile (isNot ")") s2 ++ String c "") ++ rest.
Proof.
  intros H1 H2 H3. apply stripPrefix_Some in H1. apply stripPrefix_Some in H2.
  rewrite H1. f_equal.
  rewrite <- (takeWhile_dropWhile (isNot "]") s1) at 1. f_equal.
  rewrite H2. rewrite !app_assoc. f_equal.
  rewrite <- (takeWhile_dropWhile (isNot ")") s2) at 1. now rewrite H3.
Qed.

Lemma imageAt_cuts : cuts imageAt.
Proof.
  intros s r rest. unfold imageAt.
  destruct (stripPrefix "![" s) as [s1|] eqn:E1; [|discriminate].
  destruct (stripPrefix "](" (dropWhile (isNot "]") s1)) as [s2|] eqn:E2;
    [|discriminate].
  destruct (dropWhile (isNot ")") s2) as [|c rest'] eqn:E3; [discriminate|].
  intros [= <- <-]. eexists _, _. exact (bracketed_cuts _ _ _ _ _ _ E1 E2 E3).
Qed.

Lemma linkAt_cuts : cuts linkAt.
Proof.
  intros s r rest. unfold linkAt.
  destruct (stripPrefix "[" s) as [s1|] eqn:E1; [|discriminate].
  destruct (stripPrefix "](" (dropWhile (isNot "]") s1)) as [s2|] eqn:E2;
    [|discriminate].
  destruct (dropWhile (isNot ")") s2) as [|c rest'] eqn:E3; [discriminate|].
  intros [= <- <-]. eexists _, _. exact (bracketed_cuts _ _ _ _ _ _ E1 E2 E3).
Qed.

Lemma delimitedAt_cuts (delim : string) : cuts (delimitedAt delim).
Proof.
  intros s r rest. unfold delimitedAt.
  destruct (stripPrefix delim s) as [s1|] eqn:E1; [|discriminate].
  intros E2. apply stripPrefix_Some in E1. apply lazyUntil_Some in E2.
  exists delim, delim. now rewrite E1, E2.
Qed.

Lemma boldAt_cuts : cuts boldAt.
Proof.
  intros s r rest. unfold boldAt.
  destruct (stripPrefix "**" s); apply delimitedAt_cuts.
Qed.

Lemma italicAt_cuts : cuts italicAt.
Proof.
  intros s r rest. unfold italicAt.
  destruct (stripPrefix "*" s); apply delimitedAt_cuts.
Qed.

Lemma codeAt_cuts : cuts codeAt.
Proof.
  intros s r rest. unfold codeAt.
  destruct (stripPrefix "`" s) as [s1|] eqn:E1; [|discriminate].
  destruct (takeWhile (isNot "`") s1) as [|c inner] eqn:E2; [discriminate|].
  destruct (dropWhile (isNot "`") s1) as [|c' rest'] eqn:E3; [discriminate|].
  intros [= <- <-]. apply stripPrefix_Some in E1.
  exists "`", (String c' ""). rewrite E1. f_equal.
  rewrite <- (takeWhile_dropWhile (isNot "`") s1), E2, E3. reflexivity.
Qed.

Lemma flattenInlineMarkdown_allChars (p : ascii -> bool) (text : string) :
  allChars p text = true -> allChars p (flattenInlineMarkdown text) = true.
Proof.
  intros H. unfold flattenInlineMarkdown, trim, replaceAll.
  apply allChars_trimEnd, allChars_dropWhile.
  apply (replaceAllFrom_allChars _ _ codeAt_cuts).
  apply (replaceAllFrom_allChars _ _ (delimitedAt_cuts "~~")).
  apply (replaceAllFrom_allChars _ _ italicAt_cuts).
  apply (replaceAllFrom_allChars _ _ boldAt_cuts).
  apply (replaceAllFrom_allChars _ _ linkAt_cuts).
  now apply (replaceAllFrom_allChars _ _ imageAt_cuts).
Qed.

(** ** What is left after deleting characters *)

Lemma Subseq_refl (s : string) : Subseq s s.
Proof. induction s; now constructor. Qed.

Lemma Subseq_empty (s : string) : Subseq "" s.
Proof. induction s; now constructor. Qed.

Lemma Subseq_app (a b a' b' : string) :
  Subseq a b -> Subseq a' b' -> Subseq (a ++ a') (b ++ b').
Proof.
  intros H H'. induction H; cbn [append]; [assumption | | ]; now constructor.
Qed.

Lemma Subseq_prefix (a b : string) : Subseq a (a ++ b).
Proof.
  induction a as [|c a IH]; cbn [append]; [apply Subseq_empty | now constructor].
Qed.

Lemma Subseq_trans (a b c : string) : Subseq a b -> Subseq b c -> Subseq a c.
Proof.
  intros Hab Hbc. revert a Hab.
  induction Hbc as [|x b c Hbc IH|x b c Hbc IH]; intros a Hab.
  - assumption.
  - inversion Hab; subst; constructor; now apply IH.
  - constructor. now apply IH.
Qed.

Lemma Subseq_length (a b : string) :
  Subseq a b -> String.length a <= String.length b.
Proof. induction 1; simpl; lia. Qed.

Lemma Subseq_dropWhile (p : ascii -> bool) (s : string) : Subseq (dropWhile p s) s.
Proof.
  induction s as [|c s IH]; [constructor|]. cbn [dropWhile].
  destruct (p c); [now constructor | apply Subseq_refl].
Qed.

Lemma Subseq_trimEnd (s : string) : Subseq (trimEnd s) s.
Proof.
  induction s as [|c s IH]; [constructor|]. cbn [trimEnd].
  destruct (trimEnd s) as [|x r].
  - destruct (isSpace c); [apply Subseq_empty|].
    constructor. apply Subseq_empty.
  - now constructor.
Qed.

Lemma Subseq_replaceAllFrom f :
  cuts f -> forall n s, Subseq (replaceAllFrom f n s) s.
Proof.
  intros Hf. induction n as [|n IH]; intros s; [apply Subseq_refl|].
  cbn [replaceAllFrom]. destruct (f s) as [[r rest]|] eqn:E.
  - destruct (Hf _ _ _ E) as (x & y & ->).
    apply (Subseq_app "" x); [apply Subseq_empty|].
    apply Subseq_app; [apply Subseq_refl|].
    apply (Subseq_app "" y); [apply Subseq_empty | apply IH].
  - destruct s as [|c s]; [constructor|]. constructor. apply IH.
Qed.

Lemma Subseq_flattenInlineMarkdown (text : string) :
  Subseq (flattenInlineMarkdown text) text.
Proof.
  unfold flattenInlineMarkdown, trim, replaceAll.
  eapply Subseq_trans; [apply Subseq_trimEnd|].
  eapply Subseq_trans; [apply Subseq_dropWhile|].
  eapply Subseq_trans; [apply (Subseq_replaceAllFrom _ codeAt_cuts)|].
  eapply Subseq_trans; [apply (Subseq_replaceAllFrom _ (delimitedAt_cuts "~~"))|].
  eapply Subseq_trans; [apply (Subseq_replaceAllFrom _ italicAt_cuts)|].
  eapply Subseq_trans; [apply (Subseq_replaceAllFrom _ boldAt_cuts)|].
  eapply Subseq_trans; [apply (Subseq_replaceAllFrom _ linkAt_cuts)|].
  apply (Subseq_replaceAllFrom _ imageAt_cuts).
Qed.

(** X14.  Flattening only deletes: the title is what is left of the
    heading text after deleting some of its characters, none added and
    none moved, so never longer than the heading text; and the title
    that [extractH1] returns is made in this way from the markdown. *)
Theorem flattenInlineMarkdown_only_deletes (text : string) :
  Subseq (flattenInlineMarkdown text) text /\
  String.length (flattenInlineMarkdown text) <= String.length text /\
  (forall markdown r,
     extractH1 markdown = Some r -> Subseq (title r) markdown).
Proof.
  split; [apply Subseq_flattenInlineMarkdown|].
  split; [apply Subseq_length, Subseq_flattenInlineMarkdown|].
  intros markdown r H.
  destruct (extractH1_shape _ _ H)
    as (blanks & line & tail & -> & _ & _ & _ & _ & -> & _).
  apply Subseq_trans with line; [apply Subseq_flattenInlineMarkdown|].
  apply (Subseq_app "" blanks); [apply Subseq_empty|].
  apply (Subseq_app "" "# "); [apply Subseq_empty|].
  apply Subseq_prefix.
Qed.

Lemma flattenInlineMarkdown_only_deletes_witness :
  Subseq "Hello world"
    ("# **Hello** [world](https://example.com)" ++ nl ++ "Body").
Proof.
  apply (proj2 (proj2 (flattenInlineMarkdown_only_deletes ""))
           ("# **Hello** [world](https://example.com)" ++ nl ++ "Body")
           {| title := "Hello world"; body := "Body" |}).
  reflexivity.
Defined.

(** X8.  [extractH1] only cuts: the body that it returns is the end of
    the markdown that it was given, character for character. *)
Theorem extractH1_body_is_suffix (markdown : string) (r : H1Result) :
  extractH1 markdown = Some r ->
  exists cut, markdown = cut ++ body r.
Proof.
  intros H.
  destruct (extractH1_shape _ _ H)
    as (blanks & text & tail & -> & _ & _ & _ & _ & _ & ->).
  destruct (dropNewline_twice tail) as (dropped & Ht & _).
  exists (blanks ++ "# " ++ text ++ dropped).
  rewrite !app_assoc. do 3 f_equal. exact Ht.
Qed.

Lemma extractH1_body_is_suffix_witness :
  extractH1 ("# First" ++ nl ++ nl ++ "# Second" ++ nl ++ nl ++ "Body")
  = Some {| title := "First"; body := "# Second" ++ nl ++ nl ++ "Body" |} /\
  exists cut,
    "# First" ++ nl ++ nl ++ "# Second" ++ nl ++ nl ++ "Body"
    = cut ++ "# Second" ++ nl ++ nl ++ "Body".
Proof.
  split; [reflexivity|].
  apply (extractH1_body_is_suffix
           ("# First" ++ nl ++ nl ++ "# Second" ++ nl ++ nl ++ "Body")
           {| title := "First"; body := "# Second" ++ nl ++ nl ++ "Body" |}).
  reflexivity.
Defined.

(** X9.  The title that [extractH1] returns is a single line without
    white space at either end: it holds no line terminator, and [trim]
    leaves it as it is. *)
Theorem extractH1_title_is_trimmed_line (markdown : string) (r : H1Result) :
  extractH1 markdown = Some r ->
  allChars isDot (title r) = true /\ trim (title r) = title r.
Proof.
  intros H.
  destruct (extractH1_shape _ _ H)
    as (blanks & text & tail & _ & _ & _ & Hdot & _ & -> & _).
  split.
  - now apply flattenInlineMarkdown_allChars.
  - unfold flattenInlineMarkdown. apply trim_idempotent.
Qed.

Lemma extractH1_title_is_trimmed_line_witness :
  extractH1 ("# My **Bold** Title  " ++ cr ++ nl ++ "Content.")
  = Some {| title := "My Bold Title"; body := cr ++ nl ++ "Content." |} /\
  allChars isDot "My Bold Title" = true /\ trim "My Bold Title" = "My Bold Title".
Proof.
  split; [reflexivity|].
  apply (extractH1_title_is_trimmed_line
           ("# My **Bold** Title  " ++ cr ++ nl ++ "Content.")
           {| title := "My Bold Title"; body := cr ++ nl ++ "Content." |}).
  reflexivity.
Defined.

(** X10.  A heading is found only at the first character that is not
    white space: when the markdown, leading white space skipped, does not
    start with [# ], the result is absent. *)
Theorem extractH1_needs_leading_marker (markdown : string) :
  stripPrefix "# " (dropWhile isSpace markdown) = None ->
  extractH1 markdown = None.
Proof.
  intros Hnone. destruct (extractH1 markdown) as [r|] eqn:E; [|reflexivity].
  destruct (extractH1_shape _ _ E) as (blanks & text & tail & -> & Hb & _).
  rewrite (dropWhile_app isSpace blanks) in Hnone by now apply BlankLines_space.
  discriminate Hnone.
Qed.

Lemma extractH1_needs_leading_marker_witness :
  stripPrefix "# " (dropWhile isSpace ("Text." ++ nl ++ nl ++ "# Title")) = None /\
  extractH1 ("Text." ++ nl ++ nl ++ "# Title") = None.
Proof.
  split; [reflexivity|].
  apply (extractH1_needs_leading_marker ("Text." ++ nl ++ nl ++ "# Title")).
  reflexivity.
Defined.

(** ** [stripH1Html] *)

Lemma contains_false (lit : string) (c : ascii) (s : string) :
  contains lit (String c s) = false ->
  stripPrefix lit (String c s) = None /\ contains lit s = false.
Proof.
  cbn [contains]. destruct (stripPrefix lit (String c s)); [discriminate|].
  auto.
Qed.

(** A literal that does not stand at the start of a text long enough to
    hold it does not stand there when the text goes on. *)
Lemma stripPrefix_longer (lit x y : string) :
  stripPrefix lit x = None -> String.length lit <= String.length x ->
  stripPrefix lit (x ++ y) = None.
Proof.
  revert x. induction lit as [|a lit IH]; intros x Hnone Hlen.
  - now destruct x.
  - destruct x as [|b x]; [simpl in Hlen; lia|].
    cbn [stripPrefix append] in *. destruct (Ascii.eqb a b); [|reflexivity].
    apply IH; [assumption | simpl in Hlen; lia].
Qed.

Lemma not_before (init : string) (z c : ascii) (a rest : string) :
  contains (init ++ String z "") (String c a ++ init) = false ->
  stripPrefix (init ++ String z "") (String c a ++ init ++ String z "" ++ rest)
  = None.
Proof.
  intros H. apply contains_false in H. destruct H as [H _].
  replace (String c a ++ init ++ String z "" ++ rest)
    with ((String c a ++ init) ++ String z "" ++ rest)
    by (now rewrite app_assoc).
  apply stripPrefix_longer; [exact H|].
  rewrite !length_app. simpl. lia.
Qed.

Lemma lazyUntil_here (p : ascii -> bool) (lit s rest : string) :
  stripPrefix lit s = Some rest -> lazyUntil p lit s = Some ("", rest).
Proof. intros H. destruct s; cbn [lazyUntil]; now rewrite H. Qed.

(** The lazy run ends at the first occurrence of the literal. *)
Lemma lazyUntil_first (init : string) (z : ascii) (a rest : string) :
  contains (init ++ String z "") (a ++ init) = false ->
  lazyUntil anyChar (init ++ String z "") (a ++ (init ++ String z "") ++ rest)
  = Some (a, rest).
Proof.
  induction a as [|c a IH]; intros H.
  - cbn [append]. apply lazyUntil_here. apply stripPrefix_app.
  - pose proof (not_before init z c a rest H) as Hnone.
    rewrite <- (app_assoc init (String z "") rest) in Hnone.
    apply contains_false in H. destruct H as [_ H].
    cbn [append lazyUntil]. cbn [append] in Hnone. rewrite Hnone.
    cbn [anyChar]. now rewrite (IH H).
Qed.

Lemma h1ElementAt_without_marker (s : string) :
  stripPrefix "<h1" s = None -> h1ElementAt s = None.
Proof. intros H. unfold h1ElementAt. now rewrite H. Qed.

Lemma h1ElementAt_shape (s replacement rest : string) :
  h1ElementAt s = Some (replacement, rest) ->
  replacement = "" /\ exists inside, s = "<h1" ++ inside ++ rest.
Proof.
  unfold h1ElementAt.
  destruct (stripPrefix "<h1" s) as [s1|] eqn:E1; [|discriminate].
  destruct (dropWhile (isNot ">") s1) as [|c s2] eqn:E2; [discriminate|].
  destruct (lazyUntil anyChar "</h1>" s2) as [[run rest0]|] eqn:E3;
    [|discriminate].
  intros [= <- <-]. split; [reflexivity|].
  apply stripPrefix_Some in E1. apply lazyUntil_Some in E3.
  exists (takeWhile (isNot ">") s1 ++ String c "" ++ run ++ "</h1>"
          ++ takeWhile isNewline rest0).
  rewrite E1. f_equal.
  rewrite <- (takeWhile_dropWhile (isNot ">") s1) at 1.
  rewrite E2, E3. rewrite !app_assoc. do 2 f_equal. cbn [append]. f_equal.
  do 6 f_equal. symmetry. apply takeWhile_dropWhile.
Qed.

(** X11.  [stripH1Html] only cuts: it removes one piece of the HTML, which
    is empty or starts with the characters [<h1], and leaves what stands
    before and after that piece as it is. *)
Theorem stripH1Html_only_cuts (html : string) :
  exists before removed after,
    html = before ++ removed ++ after /\
    stripH1Html html = before ++ after /\
    (removed = "" \/ exists inside, removed = "<h1" ++ inside).
Proof.
  unfold stripH1Html. induction html as [|c html IH].
  - exists "", "", "". auto.
  - cbn [replaceFirst].
    destruct (h1ElementAt (String c html)) as [[r rest]|] eqn:E.
    + destruct (h1ElementAt_shape _ _ _ E) as (-> & inside & Hs).
      exists "", ("<h1" ++ inside), rest. split; [|split].
      * rewrite Hs. now rewrite !app_assoc.
      * reflexivity.
      * right. now exists inside.
    + destruct IH as (before & removed & after & Hh & Hs & Hr).
      exists (String c before), removed, after. split; [|split].
      * cbn [append]. now rewrite <- Hh.
      * cbn [append]. now rewrite Hs.
      * exact Hr.
Qed.

(** X12.  HTML in which [<h1] does not occur comes back unchanged. *)
Theorem stripH1Html_without_h1 (html : string) :
  contains "<h1" html = false -> stripH1Html html = html.
Proof.
  unfold stripH1Html. induction html as [|c html IH]; intros H; [reflexivity|].
  apply contains_false in H. destruct H as [Hnone Hrest].
  cbn [replaceFirst]. rewrite (h1ElementAt_without_marker _ Hnone).
  now rewrite (IH Hrest).
Qed.

Lemma stripH1Html_without_h1_witness :
  contains "<h1" ("<h2>Subtitle</h2>" ++ nl ++ "<p>Content.</p>") = false /\
  stripH1Html ("<h2>Subtitle</h2>" ++ nl ++ "<p>Content.</p>")
  = "<h2>Subtitle</h2>" ++ nl ++ "<p>Content.</p>".
Proof.
  split; [reflexivity|].
  apply (stripH1Html_without_h1 ("<h2>Subtitle</h2>" ++ nl ++ "<p>Content.</p>")).
  reflexivity.
Defined.

Lemma h1ElementAt_found (attrs inner newlines rest : string) :
  allChars (isNot ">") attrs = true ->
  contains "</h1>" (inner ++ "</h1") = false ->
  allChars isNewline newlines = true -> stopsAt isNewline rest = true ->
  h1ElementAt ("<h1" ++ attrs ++ ">" ++ inner ++ "</h1>" ++ newlines ++ rest)
  = Some ("", rest).
Proof.
  intros Hattrs Hinner Hnl Hrest. unfold h1ElementAt.
  rewrite stripPrefix_app.
  destruct (takeWhile_split (isNot ">") attrs
              (">" ++ inner ++ "</h1>" ++ newlines ++ rest) Hattrs eq_refl)
    as [_ ->].
  pose proof (lazyUntil_first "</h1" ">" inner (newlines ++ rest) Hinner) as Hlazy.
  cbn [append] in Hlazy. cbn [append]. rewrite Hlazy.
  now destruct (takeWhile_split isNewline newlines rest Hnl Hrest) as [_ ->].
Qed.

Lemma replaceFirst_before_h1 (before tail : string) :
  contains "<h1" (before ++ "<h") = false ->
  replaceFirst h1ElementAt (before ++ "<h1" ++ tail)
  = before ++ replaceFirst h1ElementAt ("<h1" ++ tail).
Proof.
  induction before as [|c before IH]; intros H; [reflexivity|].
  pose proof (not_before "<h" "1" c before tail H) as Hnone.
  apply contains_false in H. destruct H as [_ H].
  cbn [append replaceFirst]. cbn [append] in Hnone.
  rewrite (h1ElementAt_without_marker _ Hnone). cbn [append] in IH.
  now rewrite (IH H).
Qed.

(** X13.  [stripH1Html] removes the first level-1 heading element with
    the line feeds that follow it, and nothing else: when the first
    [<h1] of the HTML stands after [before], its tag is closed by the
    first [>] after [attrs], and the first [</h1>] after that stands
    after [inner], the result is [before] followed by what comes after
    the line feeds. *)
Theorem stripH1Html_removes_first (before attrs inner newlines rest : string) :
  contains "<h1" (before ++ "<h") = false ->
  allChars (isNot ">") attrs = true ->
  contains "</h1>" (inner ++ "</h1") = false ->
  allChars isNewline newlines = true -> stopsAt isNewline rest = true ->
  stripH1Html (before ++ "<h1" ++ attrs ++ ">" ++ inner ++ "</h1>"
               ++ newlines ++ rest)
  = before ++ rest.
Proof.
  intros Hbefore Hattrs Hinner Hnl Hrest. unfold stripH1Html.
  rewrite (replaceFirst_before_h1 before _ Hbefore).
  f_equal.
  pose proof (h1ElementAt_found attrs inner newlines rest Hattrs Hinner Hnl Hrest)
    as Hfound.
  cbn [append] in Hfound. cbn [append replaceFirst]. now rewrite Hfound.
Qed.

Lemma stripH1Html_removes_first_witness :
  contains "<h1" ("<p>Intro.</p>" ++ "<h") = false /\
  stripH1Html ("<p>Intro.</p>" ++ "<h1" ++ " id='t'" ++ ">"
               ++ "My <strong>Bold</strong> Title" ++ "</h1>" ++ nl ++ nl
               ++ "<h1>Second</h1>")
  = "<p>Intro.</p>" ++ "<h1>Second</h1>".
Proof.
  split; [|apply (stripH1Html_removes_first "<p>Intro.</p>" " id='t'"
                    "My <strong>Bold</strong> Title" (nl ++ nl)
                    "<h1>Second</h1>")]; reflexivity.
Defined.

End H1More.

(* ================================================================== *)
(** * Further properties of the frontmatter map *)
(* ================================================================== *)

Module FrontmatterMapMore.
Import Fs FrontmatterMap FrontmatterMapSpec.

(** ** The walk *)

Lemma walkFrontmatterFiles_Dir (d : string) (entries : list (string * Node)) :
  walkFrontmatterFiles d (Dir entries)
  = (firstFrontmatterFile d entries FRONTMATTER_FILENAMES
     ++ flat_map (fun entry =>
                    if descends entry
                    then walkFrontmatterFiles (Path.join d (fst entry)) (snd entry)
                    else [])
          entries)%list.
Proof.
  cbn [walkFrontmatterFiles]. f_equal.
  induction entries as [|[entryName child] rest IH]; [reflexivity|].
  cbn [flat_map fst snd]. unfold descends at 1. cbn [fst snd]. now rewrite IH.
Qed.

Lemma descends_true (entryName : string) (child : Node) :
  descends (entryName, child) = true <->
  isDirectory child = true /\ startsWith entryName "." = false /\
  entryName <> "node_modules".
Proof.
  unfold descends. cbn [fst snd].
  rewrite !andb_true_iff, !negb_true_iff, String.eqb_neq. tauto.
Qed.

Lemma walk_visits (at_dir : Node) :
  forall d y,
    In y (walkFrontmatterFiles d at_dir) ->
    exists d' entries',
      Visits d at_dir d' entries' /\
      In y (firstFrontmatterFile d' entries' FRONTMATTER_FILENAMES).
Proof.
  induction at_dir as [content|entries IH] using Node_deep_ind;
    intros d y Hin; [contradiction|].
  rewrite walkFrontmatterFiles_Dir in Hin. apply in_app_or in Hin.
  destruct Hin as [Hin | Hin].
  - exists d, entries. split; [constructor | assumption].
  - apply in_flat_map in Hin. destruct Hin as ([entryName child] & Hentry & Hy).
    destruct (descends (entryName, child)) eqn:Hd; [|contradiction].
    apply descends_true in Hd. destruct Hd as (Hdir & Hdot & Hnm).
    rewrite Forall_forall in IH. cbn [fst snd] in Hy.
    destruct (IH _ Hentry _ _ Hy) as (d' & entries' & Hv & Hfirst).
    exists d', entries'. split; [|assumption].
    now apply (Visits_below d entries entryName child).
Qed.

Lemma visits_walk (d : string) (at_dir : Node) (d' : string)
  (entries' : list (string * Node)) (y : Yielded) :
  Visits d at_dir d' entries' ->
  In y (firstFrontmatterFile d' entries' FRONTMATTER_FILENAMES) ->
  In y (walkFrontmatterFiles d at_dir).
Proof.
  intros Hv Hy.
  induction Hv as [d entries
                  | d entries entryName child d' entries' Hin Hdir Hdot Hnm Hv IH];
    rewrite walkFrontmatterFiles_Dir; apply in_or_app.
  - now left.
  - right. apply in_flat_map. exists (entryName, child). split; [assumption|].
    assert (Hd : descends (entryName, child) = true)
      by (apply descends_true; auto).
    rewrite Hd. now apply IH.
Qed.

(** Which document of a directory is taken. *)
Lemma firstFrontmatterFile_chosen (d : string) (entries : list (string * Node))
  (names : list string) (y : Yielded) :
  In y (firstFrontmatterFile d entries names) ->
  exists before after,
    names = (before ++ name y :: after)%list /\
    (forall n, In n before -> lookup n entries = None) /\
    lookup (name y) entries = Some (found y) /\
    dir y = d /\ filePath y = Path.join d (name y).
Proof.
  induction names as [|n names IH]; [contradiction|]. cbn [firstFrontmatterFile].
  destruct (lookup n entries) as [node|] eqn:E.
  - intros [<- | []]. exists [], names. cbn.
    repeat split; try reflexivity; try assumption. intros m [].
  - intros Hin. destruct (IH Hin) as (before & after & -> & Hnone & Hrest).
    exists (n :: before), after. split; [reflexivity|]. split; [|exact Hrest].
    intros m [<- | Hm]; [assumption | now apply Hnone].
Qed.

Lemma firstFrontmatterFile_length (d : string) (entries : list (string * Node))
  (names : list string) :
  List.length (firstFrontmatterFile d entries names) <= 1.
Proof.
  induction names as [|n names IH]; cbn [firstFrontmatterFile]; [simpl; lia|].
  destruct (lookup n entries); [simpl; lia | exact IH].
Qed.

(** X15.  What [walkFrontmatterFiles] yields is what it finds in the
    directories it visits: the start directory and everything reached
    from it through entries that are directories, whose name does not
    start with a dot and is not [node_modules].  Nothing below a hidden
    directory or below [node_modules] is yielded, and nothing in a
    visited directory is missed. *)
Theorem walkFrontmatterFiles_visits (d : string) (at_dir : Node) (y : Yielded) :
  In y (walkFrontmatterFiles d at_dir) <->
  exists d' entries',
    Visits d at_dir d' entries' /\
    In y (firstFrontmatterFile d' entries' FRONTMATTER_FILENAMES).
Proof.
  split.
  - apply walk_visits.
  - intros (d' & entries' & Hv & Hy). now apply (visits_walk d at_dir d' entries').
Qed.

Lemma walkFrontmatterFiles_visits_witness :
  In {| dir := "/site/docs/guides";
        filePath := "/site/docs/guides/frontmatter.json";
        name := "frontmatter.json";
        found := File Samples.guidesJson |}
     (walkFrontmatterFiles "/site/docs" Samples.docsTree) /\
  map filePath (walkFrontmatterFiles "/site/docs" Samples.docsTree)
  = ["/site/docs/frontmatter.yml"; "/site/docs/guides/frontmatter.json"].
Proof.
  split; [|reflexivity].
  apply (proj2 (walkFrontmatterFiles_visits "/site/docs" Samples.docsTree _)).
  exists "/site/docs/guides",
    [("frontmatter.json", File Samples.guidesJson);
     ("installation.md", File "# Installation Guide")].
  split; [|left; reflexivity].
  apply (Visits_below "/site/docs" _ "guides"
           (Dir [("frontmatter.json", File Samples.guidesJson);
                 ("installation.md", File "# Installation Guide")])).
  - right. right. left. reflexivity.
  - reflexivity.
  - reflexivity.
  - discriminate.
  - apply Visits_here.
Defined.

(** X16.  In a directory at most one document is taken: the first of the
    recognised names, in their order [frontmatter.yml],
    [frontmatter.yaml], [frontmatter.json], that exists there.  The names
    before it do not exist in the directory, and the path yielded is the
    directory joined with the name. *)
Theorem firstFrontmatterFile_priority (d : string) (entries : list (string * Node)) :
  List.length (firstFrontmatterFile d entries FRONTMATTER_FILENAMES) <= 1 /\
  (forall y,
     In y (firstFrontmatterFile d entries FRONTMATTER_FILENAMES) ->
     exists before after,
       FRONTMATTER_FILENAMES = (before ++ name y :: after)%list /\
       (forall n, In n before -> lookup n entries = None) /\
       lookup (name y) entries = Some (found y) /\
       dir y = d /\ filePath y = Path.join d (name y)) /\
  (forall node,
     lookup "frontmatter.yml" entries = None ->
     lookup "frontmatter.yaml" entries = Some node ->
     firstFrontmatterFile d entries FRONTMATTER_FILENAMES
     = [{| dir := d; filePath := Path.join d "frontmatter.yaml";
           name := "frontmatter.yaml"; found := node |}]).
Proof.
  split; [apply firstFrontmatterFile_length|]. split.
  - intros y. apply firstFrontmatterFile_chosen.
  - intros node Hyml Hyaml. unfold FRONTMATTER_FILENAMES.
    cbn [firstFrontmatterFile]. now rewrite Hyml, Hyaml.
Qed.

Lemma firstFrontmatterFile_priority_witness :
  firstFrontmatterFile "docs"
    [("frontmatter.json", File "{}"); ("frontmatter.yaml", File "a: 1")]
    FRONTMATTER_FILENAMES
  = [{| dir := "docs"; filePath := "docs/frontmatter.yaml";
        name := "frontmatter.yaml"; found := File "a: 1" |}].
Proof.
  apply (proj2 (proj2 (firstFrontmatterFile_priority "docs"
           [("frontmatter.json", File "{}"); ("frontmatter.yaml", File "a: 1")])));
    reflexivity.
Defined.

Section WithParsers.
Context {parsers : Parsers}.

(** ** Failures *)





(** ** Maps without common paths *)

Lemma overlayPerDir_fresh (perDirMap centralMap : list (string * Data)) :
  NoDup (keys perDirMap) ->
  (forall k, In k (keys perDirMap) -> lookup k centralMap = None) ->
  overlayPerDir centralMap perDirMap = (centralMap ++ perDirMap)%list.
Proof.
  unfold overlayPerDir. revert centralMap.
  induction perDirMap as [|[key value] rest IH]; intros acc Hnd Hfresh.
  - simpl. now rewrite app_nil_r.
  - inversion Hnd as [|? ? Hkey Hrest]; subst.
    assert (Hnone : lookup key acc = None) by (apply Hfresh; now left).
    cbn [fold_left fst snd]. rewrite Hnone.
    rewrite (MergeMore.set_fresh _ _ _ Hnone).
    rewrite IH; [now rewrite <- app_assoc | assumption |].
    intros k Hk. apply MergeMore.lookup_app_fresh.
    + intros ->. contradiction.
    + apply Hfresh. now right.
Qed.

(** X19.  When no path of the per-directory map is a path of the
    centralized map, the combined map is the centralized map followed by
    the per-directory map, every record as it is and in the order of
    insertion.  Hence without a centralized file (none given, or none at
    the path) the result is the per-directory map, and without any
    document below the base path it is the centralized map. *)
Theorem loadFrontmatterMap_separate_sources (opts : LoadMapOptions) :
  (forall centralMap perDirMap,
     centralMapOf opts = Ok centralMap ->
     perDirMapOf opts = Ok perDirMap ->
     (forall path, In path (keys perDirMap) -> lookup path centralMap = None) ->
     loadFrontmatterMap opts = Ok (centralMap ++ perDirMap)%list) /\
  (centralFile opts = None \/ at_centralFile opts = None ->
   loadFrontmatterMap opts = perDirMapOf opts) /\
  (walkFrom (basePath opts) (at_basePath opts) = [] ->
   loadFrontmatterMap opts = centralMapOf opts).
Proof.
  split; [|split].
  - intros centralMap perDirMap Hc Hp Hfresh. unfold loadFrontmatterMap.
    rewrite Hc, Hp. cbn [bind]. f_equal.
    apply overlayPerDir_fresh; [now apply perDirMapOf_NoDup with opts | assumption].
  - intros Hnone.
    assert (Hc : centralMapOf opts = Ok []).
    { unfold centralMapOf, parseCentralFile.
      destruct Hnone as [-> | ->]; [reflexivity|].
      destruct (centralFile opts) as [file|]; [|reflexivity].
      now destruct (String.eqb file ""). }
    unfold loadFrontmatterMap. rewrite Hc. cbn [bind].
    destruct (perDirMapOf opts) as [perDirMap|e] eqn:Hp; [|reflexivity].
    cbn [bind]. f_equal. rewrite overlayPerDir_fresh; [reflexivity | | reflexivity].
    now apply perDirMapOf_NoDup with opts.
  - intros Hwalk.
    assert (Hp : perDirMapOf opts = Ok []).
    { unfold perDirMapOf, discoverPerDirFiles. rewrite Hwalk.
      now destruct (existsSync (at_basePath opts)). }
    unfold loadFrontmatterMap. rewrite Hp.
    now destruct (centralMapOf opts).
Qed.

(** ** The last document to spell a path *)

Lemma under_inj (prefix key key' : string) :
  under prefix key = under prefix key' -> key = key'.
Proof.
  unfold under. destruct (String.eqb prefix ""); [auto|].
  intros H. apply TextFacts.app_inv_head in H.
  now apply (TextFacts.app_inv_head "/") in H.
Qed.

Lemma lookup_addEntries_other (relDir path : string) (data : Data)
  (map : list (string * Data)) :
  (forall key props, In (key, VObj props) data -> under relDir key <> path) ->
  lookup path (addEntries relDir data map) = lookup path map.
Proof.
  unfold addEntries. revert map.
  induction data as [|[key value] rest IH]; intros map H; [reflexivity|].
  cbn [fold_left fst snd].
  rewrite IH by (intros k p Hin; apply (H k p); now right).
  destruct value as [|b|n| |text|items|props]; try reflexivity.
  apply lookup_set_ne. intros ->. now apply (H key props); [left|].
Qed.

Lemma lookup_addEntries_last (relDir key : string) (props : Data) (data : Data)
  (map : list (string * Data)) :
  NoDup (keys data) -> In (key, VObj props) data ->
  lookup (under relDir key) (addEntries relDir data map) = Some props.
Proof.
  revert map. induction data as [|[key0 value0] rest IH]; intros map Hnd Hin;
    [contradiction|].
  inversion Hnd as [|? ? Hkey Hrest]; subst.
  destruct Hin as [[= -> ->] | Hin].
  - change (addEntries relDir ((key, VObj props) :: rest) map)
      with (addEntries relDir rest (set (under relDir key) props map)).
    rewrite lookup_addEntries_other; [apply lookup_set_eq|].
    intros k p Hk Heq. apply under_inj in Heq. subst k.
    apply Hkey. exact (in_map fst rest (key, VObj p) Hk).
  - change (addEntries relDir ((key0, value0) :: rest) map)
      with (addEntries relDir rest
              (match value0 with
               | VObj p => set (under relDir key0) p map
               | _ => map
               end)).
    now apply IH.
Qed.

Lemma discoverLoop_other (basePath path : string) (yielded : list Yielded)
  (map result : list (string * Data)) :
  discoverLoop basePath yielded map = Ok result ->
  (forall y data key props,
     In y yielded ->
     parseDataFile (filePath y) (Some (found y)) = Ok data ->
     In (key, VObj props) data ->
     under (Path.relative basePath (dir y)) key <> path) ->
  lookup path result = lookup path map.
Proof.
  revert map. induction yielded as [|y0 more IH]; intros map Hres H.
  - now injection Hres as <-.
  - cbn [discoverLoop] in Hres.
    destruct (parseDataFile (filePath y0) (Some (found y0))) as [data|e0] eqn:E;
      [|discriminate].
    cbn [bind] in Hres. rewrite (IH _ Hres).
    + apply lookup_addEntries_other. intros key props Hin.
      apply (H y0 data key props); [now left | assumption | assumption].
    + intros y data' key props Hy. apply H. now right.
Qed.

Lemma discoverLoop_app (basePath : string) (first second : list Yielded)
  (map : list (string * Data)) :
  discoverLoop basePath (first ++ second)%list map
  = (reached <- discoverLoop basePath first map ;;
     discoverLoop basePath second reached).
Proof.
  revert map. induction first as [|y more IH]; intros map; [reflexivity|].
  cbn [discoverLoop List.app].
  destruct (parseDataFile (filePath y) (Some (found y))); cbn [bind];
    [apply IH | reflexivity].
Qed.

(** X20.  The last document to spell a path decides its record: when a
    document that the walk yields has a record under a key, and no
    document yielded after it has a record-valued key that spells the
    same path, the map of [discoverPerDirFiles] holds under that path
    the record of that document, whatever earlier documents hold there.
    Records of different documents are not merged with each other. *)
Theorem discoverPerDirFiles_last_wins (basePath : string) (at_base : option Node)
  (map : list (string * Data)) (before after : list Yielded) (y : Yielded)
  (data : Data) (key : string) (props : Data) :
  discoverPerDirFiles basePath at_base = Ok map ->
  walkFrom basePath at_base = (before ++ y :: after)%list ->
  parseDataFile (filePath y) (Some (found y)) = Ok data ->
  distinct (keys data) = true ->
  In (key, VObj props) data ->
  (forall y' data' key' props',
     In y' after ->
     parseDataFile (filePath y') (Some (found y')) = Ok data' ->
     In (key', VObj props') data' ->
     under (Path.relative basePath (dir y')) key'
     <> under (Path.relative basePath (dir y)) key) ->
  lookup (under (Path.relative basePath (dir y)) key) map = Some props.
Proof.
  intros Hmap Hwalk Hparse Hd Hin Hafter. apply distinct_NoDup in Hd.
  unfold discoverPerDirFiles in Hmap. rewrite Hwalk, discoverLoop_app in Hmap.
  destruct (discoverLoop basePath before []) as [reached|e]; [|discriminate].
  cbn [bind discoverLoop] in Hmap. rewrite Hparse in Hmap. cbn [bind] in Hmap.
  rewrite (discoverLoop_other _ _ _ _ _ Hmap Hafter).
  now apply lookup_addEntries_last.
Qed.

End WithParsers.



Lemma loadFrontmatterMap_separate_sources_witness :
  loadFrontmatterMap (parsers := Samples.sampleParsers)
    {| centralFile := None; at_centralFile := None;
       basePath := "/site/docs"; at_basePath := Some Samples.docsTree |}
  = Ok [("README.md", [("title", VStr "Home")]);
        ("notes.txt", [("pinned", VBool true)]);
        ("guides/installation.md", [("sidebar", VObj [("order", VNum 1)])])] /\
  loadFrontmatterMap (parsers := Samples.sampleParsers)
    {| centralFile := Some "/site/frontmatter.yml";
       at_centralFile := Some (File Samples.centralYaml);
       basePath := "/site/docs"; at_basePath := None |}
  = Ok [("guides/installation.md",
         [("description", VStr "d");
          ("sidebar", VObj [("order", VNum 9); ("label", VStr "Guide")])]);
        ("about.md", [("title", VStr "About")])].
Proof.
  split.
  - rewrite (proj1 (proj2 (loadFrontmatterMap_separate_sources
                             (parsers := Samples.sampleParsers) _)));
      [reflexivity | now left].
  - rewrite (proj2 (proj2 (loadFrontmatterMap_separate_sources
                             (parsers := Samples.sampleParsers) _)));
      reflexivity.
Defined.

Lemma discoverPerDirFiles_last_wins_witness :
  exists map,
    discoverPerDirFiles (parsers := Samples.overridingParsers)
      "/site/docs" (Some Samples.overridingTree) = Ok map /\
    lookup "guides/installation.md" map
    = Some [("sidebar", VObj [("order", VNum 1)])] /\
    lookup "README.md" map = Some [("title", VStr "Home")].
Proof.
  eexists. split; [reflexivity|]. split.
  - apply (discoverPerDirFiles_last_wins (parsers := Samples.overridingParsers)
             "/site/docs" (Some Samples.overridingTree) _
             [{| dir := "/site/docs"; filePath := "/site/docs/frontmatter.yaml";
                 name := "frontmatter.yaml"; found := File Samples.flatYaml |}]
             []
             {| dir := "/site/docs/guides";
                filePath := "/site/docs/guides/frontmatter.json";
                name := "frontmatter.json"; found := File Samples.guidesJson |}
             Samples.guidesData "installation.md");
      try reflexivity.
    + left. reflexivity.
    + intros y' data' key' props' [].
  - apply (discoverPerDirFiles_last_wins (parsers := Samples.overridingParsers)
             "/site/docs" (Some Samples.overridingTree) _
             []
             [{| dir := "/site/docs/guides";
                 filePath := "/site/docs/guides/frontmatter.json";
                 name := "frontmatter.json"; found := File Samples.guidesJson |}]
             {| dir := "/site/docs"; filePath := "/site/docs/frontmatter.yaml";
                name := "frontmatter.yaml"; found := File Samples.flatYaml |}
             Samples.flatData "README.md");
      try reflexivity.
    + right. left. reflexivity.
    + intros y' data' key' props' [<- | []] Hparse Hin.
      injection Hparse as <-.
      destruct Hin as [[= <- <-] | []]. discriminate.
Defined.

(** X21.  [collectFrontmatterFilePaths] lists the centralized file, when
    one is given and exists, and then one path for every directory that
    the walk visits and that holds a recognised document: the directory
    joined with the first recognised name present.  Every document from
    which [discoverPerDirFiles] takes an entry is in the list. *)
Theorem collectFrontmatterFilePaths_paths {parsers : Parsers}
  (basePath : string) (at_base : option Node)
  (centralFile : option string) (at_central : option Node) :
  (forall p,
     In p (collectFrontmatterFilePaths basePath at_base centralFile at_central) <->
     (centralFile = Some p /\ p <> "" /\ existsSync at_central = true) \/
     (exists node d' entries' y,
        at_base = Some node /\ Visits basePath node d' entries' /\
        In y (firstFrontmatterFile d' entries' FRONTMATTER_FILENAMES) /\
        In (name y) FRONTMATTER_FILENAMES /\
        p = Path.join d' (name y))) /\
  (forall map path record,
     discoverPerDirFiles basePath at_base = Ok map ->
     lookup path map = Some record ->
     exists y data key,
       In (filePath y)
          (collectFrontmatterFilePaths basePath at_base centralFile at_central) /\
       parseDataFile (filePath y) (Some (found y)) = Ok data /\
       In (key, VObj record) data /\
       path = under (Path.relative basePath (dir y)) key).
Proof.
  unfold collectFrontmatterFilePaths. split.
  - intros p. rewrite in_app_iff, in_map_iff. split.
    + intros [Hc | (y & <- & Hy)].
      * left. destruct centralFile as [file|]; [|contradiction].
        destruct (String.eqb file "") eqn:Hf; [contradiction|].
        destruct (existsSync at_central); [|contradiction].
        destruct Hc as [<- | []]. apply String.eqb_neq in Hf. auto.
      * right. destruct at_base as [node|]; [|contradiction].
        apply walk_visits in Hy.
        destruct Hy as (d' & entries' & Hv & Hy).
        destruct (firstFrontmatterFile_chosen _ _ _ _ Hy)
          as (pre & post & Hnames & _ & _ & Hdir & Hpath).
        exists node, d', entries', y. repeat split; try assumption.
        rewrite Hnames. apply in_or_app. right. now left.
    + intros [(-> & Hne & Hex) | (node & d' & entries' & y & -> & Hv & Hy & _ & ->)].
      * left. apply String.eqb_neq in Hne. rewrite Hne, Hex. now left.
      * right. exists y. split.
        -- now destruct (firstFrontmatterFile_chosen _ _ _ _ Hy)
             as (_ & _ & _ & _ & _ & _ & ->).
        -- now apply (visits_walk basePath node d' entries').
  - intros map path record Hmap Hl.
    destruct (discoverLoop_inv _ _ _ _ Hmap _ _ Hl)
      as [H | (relDir & data & key & (y & Hy & Hp & ->) & Hin & ->)];
      [discriminate|].
    exists y, data, key. split; [|auto].
    apply in_or_app. right. now apply in_map.
Qed.

Lemma collectFrontmatterFilePaths_paths_witness :
  In "/site/docs/guides/frontmatter.json"
     (collectFrontmatterFilePaths "/site/docs" (Some Samples.docsTree)
        (Some "/site/frontmatter.yml") (Some (File Samples.centralYaml))) /\
  collectFrontmatterFilePaths "/site/docs" (Some Samples.docsTree)
    (Some "/site/frontmatter.yml") (Some (File Samples.centralYaml))
  = ["/site/frontmatter.yml"; "/site/docs/frontmatter.yml";
     "/site/docs/guides/frontmatter.json"].
Proof.
  split; [|reflexivity].
  apply (proj2 (proj1 (collectFrontmatterFilePaths_paths
                         (parsers := Samples.sampleParsers)
                         "/site/docs" (Some Samples.docsTree)
                         (Some "/site/frontmatter.yml")
                         (Some (File Samples.centralYaml))) _)).
  right.
  exists Samples.docsTree, "/site/docs/guides",
    [("frontmatter.json", File Samples.guidesJson);
     ("installation.md", File "# Installation Guide")],
    {| dir := "/site/docs/guides";
       filePath := "/site/docs/guides/frontmatter.json";
       name := "frontmatter.json"; found := File Samples.guidesJson |}.
  split; [reflexivity|]. split.
  - apply (Visits_below "/site/docs" _ "guides"
             (Dir [("frontmatter.json", File Samples.guidesJson);
                   ("installation.md", File "# Installation Guide")])).
    + right. right. left. reflexivity.
    + reflexivity.
    + reflexivity.
    + discriminate.
    + apply Visits_here.
  - split; [left; reflexivity|]. split; [|reflexivity].
    right. right. left. reflexivity.
Defined.

End FrontmatterMapMore.

(* ================================================================== *)
(** * Further properties of the loader wrappers *)
(* ================================================================== *)

Module LoaderMore.
Import Text TextFacts Loader.

(** ** The frontmatter fence *)

Lemma lazyUntil_absent (p : ascii -> bool) (lit s : string) :
  contains lit s = false -> lazyUntil p lit s = None.
Proof.
  induction s as [|c s IH]; intros H.
  - cbn [contains] in H. cbn [lazyUntil].
    now destruct (stripPrefix lit "").
  - apply H1More.contains_false in H. destruct H as [Hnone Hrest].
    cbn [lazyUntil]. rewrite Hnone. destruct (p c); [|reflexivity].
    now rewrite (IH Hrest).
Qed.

Lemma dropNewline_suffix (s : string) : exists cut, s = cut ++ dropNewline s.
Proof.
  destruct s as [|c s]; [now exists ""|]. cbn [dropNewline].
  destruct (isNewline c); [now exists (String c "") | now exists ""].
Qed.

Lemma fenceAt_suffix (raw rest : string) :
  fenceAt raw = Some rest -> exists cut, raw = cut ++ rest.
Proof.
  unfold fenceAt.
  destruct (stripPrefix ("---" ++ nl) raw) as [inside|] eqn:Hopen; [|discriminate].
  destruct (lazyUntil anyChar (nl ++ "---") inside) as [[run after]|] eqn:Hclose;
    [|discriminate].
  intros [= <-]. apply stripPrefix_Some in Hopen. apply lazyUntil_Some in Hclose.
  destruct (dropNewline_suffix after) as [cut Hcut].
  exists (("---" ++ nl) ++ run ++ (nl ++ "---") ++ cut).
  rewrite Hopen, Hclose. rewrite Hcut at 1. now rewrite !app_assoc.
Qed.

Lemma fenceAt_closed (inside rest : string) :
  contains (nl ++ "---") (inside ++ nl ++ "--") = false ->
  fenceAt ("---" ++ nl ++ inside ++ nl ++ "---" ++ rest) = Some (dropNewline rest).
Proof.
  intros H. unfold fenceAt.
  change ("---" ++ nl ++ inside ++ nl ++ "---" ++ rest)
    with (("---" ++ nl) ++ inside ++ nl ++ "---" ++ rest).
  rewrite stripPrefix_app.
  pose proof (H1More.lazyUntil_first (nl ++ "--") "-" inside rest) as Hlazy.
  change ((nl ++ "--") ++ String "-" "") with (nl ++ "---") in Hlazy.
  change (inside ++ (nl ++ "---") ++ rest)
    with (inside ++ nl ++ "---" ++ rest) in Hlazy.
  now rewrite (Hlazy H).
Qed.

(** X22.  The body that the title is looked for in is a trailing piece of
    the file.  A file that does not begin with a line [---] is taken
    whole, and so is one whose opening [---] line is not followed by a
    line feed and [---].  Otherwise the fence ends at the first line feed
    followed by [---] after the opening line, and the body is what comes
    after it, less one line feed. *)
Theorem bodyOf_fence (raw : string) :
  (exists cut, raw = cut ++ bodyOf raw) /\
  (stripPrefix ("---" ++ nl) raw = None -> bodyOf raw = raw) /\
  (forall inside,
     raw = "---" ++ nl ++ inside ->
     contains (nl ++ "---") inside = false ->
     bodyOf raw = raw) /\
  (forall inside rest,
     raw = "---" ++ nl ++ inside ++ nl ++ "---" ++ rest ->
     contains (nl ++ "---") (inside ++ nl ++ "--") = false ->
     bodyOf raw = dropNewline rest).
Proof.
  split; [|split; [|split]].
  - unfold bodyOf. destruct (fenceAt raw) as [rest|] eqn:E.
    + now apply fenceAt_suffix.
    + now exists "".
  - intros H. unfold bodyOf, fenceAt. now rewrite H.
  - intros inside -> H. unfold bodyOf, fenceAt.
    change ("---" ++ nl ++ inside) with (("---" ++ nl) ++ inside).
    rewrite stripPrefix_app. now rewrite (lazyUntil_absent _ _ _ H).
  - intros inside rest -> H. unfold bodyOf. now rewrite (fenceAt_closed _ _ H).
Qed.

Lemma bodyOf_fence_witness :
  bodyOf Samples.withH1File = nl ++ "# Installation Guide" ++ nl ++ nl ++ "Steps." /\
  bodyOf ("---" ++ nl ++ "---" ++ nl ++ "# Title") = "---" ++ nl ++ "---" ++ nl ++ "# Title".
Proof.
  split.
  - apply (proj2 (proj2 (proj2 (bodyOf_fence Samples.withH1File)))
             ("title: ''" ++ nl ++ "draft: true")
             (nl ++ nl ++ "# Installation Guide" ++ nl ++ nl ++ "Steps."));
      reflexivity.
  - apply (proj1 (proj2 (proj2 (bodyOf_fence
             ("---" ++ nl ++ "---" ++ nl ++ "# Title"))))
             ("---" ++ nl ++ "# Title")); reflexivity.
Defined.

(** ** A file that the frontmatter map does not know *)

Lemma lookup_filter (f : string -> bool) (k : string) (record : Data) :
  lookup k (filter (fun kv => f (fst kv)) record)
  = if f k then lookup k record else None.
Proof.
  induction record as [|[key value] rest IH]; [now destruct (f k)|].
  cbn [filter fst]. destruct (String.eqb k key) eqn:E.
  - apply String.eqb_eq in E. subst key.
    destruct (f k) eqn:Hf; cbn [lookup].
    + now rewrite String.eqb_refl.
    + rewrite IH. now rewrite ?Hf.
  - destruct (f key); cbn [lookup]; rewrite ?E; exact IH.
Qed.

(** X23.  Without a file path the argument of [parseData] is passed on as
    it is, and the frontmatter map is not consulted.  With a file path
    that the map has no entry for, the record passed on is the file's
    own record less its top-level blocked keys ([__proto__],
    [constructor]), in its order; the title injection is tried on it
    exactly when the file's own title is absent or falsy. *)
Theorem wrappedParseData_unmapped (fmMap : list (string * Data))
  (rootDir normalizedBase : string) (at_file : option Fs.Node)
  (props : ParseDataProps) :
  (filePath props = None \/ filePath props = Some "" ->
   wrappedParseData fmMap rootDir normalizedBase at_file props = props) /\
  (forall file,
     filePath props = Some file -> file <> "" ->
     lookup (Path.relative normalizedBase file) fmMap = None ->
     distinct (keys (data props)) = true ->
     let own := filter (fun kv => negb (Merge.blocked (fst kv))) (data props) in
     data (wrappedParseData fmMap rootDir normalizedBase at_file props)
     = if truthy (lookup "title" (data props)) then own
       else injectTitle own (Path.join rootDir file) at_file).
Proof.
  split.
  - unfold wrappedParseData. now intros [-> | ->].
  - intros file Hfile Hne Hnone Hd own. apply distinct_NoDup in Hd.
    unfold wrappedParseData. rewrite Hfile.
    apply String.eqb_neq in Hne. rewrite Hne. cbn [data].
    unfold externalDataOf. rewrite Hnone.
    assert (Hown : Merge.deepMerge [] (data props) = own).
    { rewrite MergeSpec.deepMerge_loop.
      now rewrite MergeMore.fold_mergeStep_fresh. }
    rewrite Hown. unfold own at 1.
    rewrite (lookup_filter (fun k => negb (Merge.blocked k)) "title").
    change (negb (Merge.blocked "title")) with true. cbv iota.
    now destruct (truthy (lookup "title" (data props))).
Qed.

Lemma wrappedParseData_unmapped_witness :
  data (wrappedParseData [] "/site" "docs" (Some (Fs.File Samples.withH1File))
          {| id := "guides/with-h1";
             data := [("constructor", VStr "x"); ("title", VStr "Own");
                      ("draft", VBool true)];
             filePath := Some "docs/guides/with-h1.md" |})
  = [("title", VStr "Own"); ("draft", VBool true)].
Proof.
  apply (proj2 (wrappedParseData_unmapped [] "/site" "docs"
                  (Some (Fs.File Samples.withH1File))
                  {| id := "guides/with-h1";
                     data := [("constructor", VStr "x"); ("title", VStr "Own");
                              ("draft", VBool true)];
                     filePath := Some "docs/guides/with-h1.md" |})
           "docs/guides/with-h1.md");
    try reflexivity.
  discriminate.
Defined.

(** ** [parseData] and [store.set] together *)

Lemma stripBody_heading (text : string) (h1 : H1.H1Result) :
  H1.extractH1 text = Some h1 -> stripBody (Some text) = Some (H1.body h1).
Proof.
  intros H. unfold stripBody.
  destruct (String.eqb text "") eqn:E.
  - apply String.eqb_eq in E. subst text. discriminate.
  - now rewrite H.
Qed.

(** X24.  The two wrappers work on the same heading.  When the merged
    record has no truthy title and the body of the file has a leading
    heading, the title passed on by [parseData] is the text of that
    heading, and [store.set] on an entry with that body stores the body
    without that heading (what [extractH1] returns as body), leaving the
    entry's id and data as they are. *)
Theorem injected_title_is_stripped_heading (fmMap : list (string * Data))
  (rootDir normalizedBase : string) (props : ParseDataProps) (file raw : string)
  (h1 : H1.H1Result) (entry : Entry) :
  filePath props = Some file -> file <> "" ->
  truthy (lookup "title"
            (Merge.deepMerge (externalDataOf fmMap normalizedBase file)
               (data props))) = false ->
  H1.extractH1 (bodyOf raw) = Some h1 ->
  body entry = Some (bodyOf raw) ->
  lookup "title"
    (data (wrappedParseData fmMap rootDir normalizedBase
             (Some (Fs.File raw)) props))
  = Some (VStr (H1.title h1)) /\
  body (wrappedSet entry) = Some (H1.body h1) /\
  entryId (wrappedSet entry) = entryId entry /\
  entryData (wrappedSet entry) = entryData entry.
Proof.
  intros Hfile Hne Htitle Hh1 Hbody. split; [|split; [|split]].
  - unfold wrappedParseData. rewrite Hfile.
    apply String.eqb_neq in Hne. rewrite Hne. cbn [data].
    rewrite Htitle. cbn [negb]. unfold injectTitle.
    cbn [Fs.readFileSync]. rewrite Hh1. apply lookup_set_eq.
  - unfold wrappedSet. cbn [body]. rewrite Hbody. now apply stripBody_heading.
  - reflexivity.
  - reflexivity.
Qed.

Lemma injected_title_is_stripped_heading_witness :
  lookup "title"
    (data (wrappedParseData Samples.sampleMap "/site" "docs"
             (Some (Fs.File Samples.withH1File)) Samples.untitledProps))
  = Some (VStr "Installation Guide") /\
  body (wrappedSet {| entryId := "guides/with-h1";
                      entryData := [("draft", VBool true)];
                      body := Some (bodyOf Samples.withH1File);
                      rendered := None |})
  = Some "Steps.".
Proof.
  destruct (injected_title_is_stripped_heading Samples.sampleMap "/site" "docs"
              Samples.untitledProps "docs/guides/with-h1.md" Samples.withH1File
              {| H1.title := "Installation Guide"; H1.body := "Steps." |}
              {| entryId := "guides/with-h1";
                 entryData := [("draft", VBool true)];
                 body := Some (bodyOf Samples.withH1File);
                 rendered := None |})
    as (Htitle & Hbody & _); try reflexivity; [discriminate|].
  split; assumption.
Defined.

End LoaderMore.

(* ================================================================== *)
(** * Which keys are content files *)
(* ================================================================== *)

Module ContentFileMore.
Import Text Path FrontmatterMap.

Lemma list_ascii_app (a b : string) :
  list_ascii_of_string (a ++ b)
  = (list_ascii_of_string a ++ list_ascii_of_string b)%list.
Proof. induction a as [|c a IH]; simpl; [reflexivity | now rewrite IH]. Qed.

Lemma differs_chars (x : ascii) (s : string) :
  allChars (isNot x) s = true ->
  Forall (fun c => Ascii.eqb c x = false) (list_ascii_of_string s).
Proof.
  induction s as [|c s IH]; simpl; [constructor|].
  rewrite andb_true_iff. unfold isNot at 1. rewrite negb_true_iff.
  intros [Hc Hs]. constructor; auto.
Qed.

Lemma substring_whole (s : string) : substring 0 (String.length s) s = s.
Proof. induction s as [|c s IH]; simpl; [reflexivity | now rewrite IH]. Qed.

Lemma substring_after (a b : string) :
  substring (String.length a) (String.length b) (a ++ b) = b.
Proof. induction a as [|c a IH]; simpl; [apply substring_whole | exact IH]. Qed.

(** The characters of a name, once the end of the name is known and
    before any dot: the loop passes over them. *)
Lemma extnameScan_name (l more : list ascii) (st : ExtnameState) (e : nat) :
  Forall (fun c => Ascii.eqb c "/" = false) l ->
  Forall (fun c => Ascii.eqb c "." = false) l ->
  startDot st = None -> endPos st = Some e ->
  forall i,
    extnameScan (l ++ more) i st = extnameScan more (i - List.length l) st.
Proof.
  intros Hs Hd Hsd He. induction l as [|x l IH]; intros i.
  - simpl. now rewrite Nat.sub_0_r.
  - inversion Hs as [|? ? Hx Hs']; inversion Hd as [|? ? Hx' Hd']; subst.
    cbn [List.app extnameScan]. rewrite Hx, Hx', He, Hsd.
    rewrite (IH Hs' Hd'). f_equal. simpl. lia.
Qed.

(** After a dot and a character other than a dot before it, the dot
    found and the end stay, and the state is never the initial one. *)
Lemma extnameScan_settled (l : list ascii) :
  forall i st sd e,
    startDot st = Some sd -> endPos st = Some e -> preDotState st <> 0%Z ->
    startDot (extnameScan l i st) = Some sd /\
    endPos (extnameScan l i st) = Some e /\
    preDotState (extnameScan l i st) <> 0%Z.
Proof.
  induction l as [|x l IH]; intros i st sd e Hsd He Hp; [now simpl|].
  cbn [extnameScan]. destruct (Ascii.eqb x "/").
  - destruct (matchedSlash st); cbn [negb]; [now apply IH|].
    cbn [startDot endPos preDotState]. auto.
  - rewrite He, Hsd.
    destruct (Ascii.eqb x "."); apply IH;
      cbn [startDot endPos preDotState]; auto; discriminate.
Qed.

Section Extension.
Variable ext : string.
Hypothesis ext_given : ext <> "".
Hypothesis ext_no_slash : allChars (isNot "/") ext = true.
Hypothesis ext_no_dot : allChars (isNot ".") ext = true.

(** The loop over the extension and the dot before it, from the end of
    a path of length [len]. *)
Lemma extnameScan_extension (more : list ascii) (len : nat) :
  String.length ext < len ->
  extnameScan
    (rev (list_ascii_of_string ext) ++ "."%char :: more) (len - 1)
    {| startDot := None; startPart := 0; endPos := None;
       matchedSlash := true; preDotState := 0 |}
  = extnameScan more (len - String.length ext - 2)
      {| startDot := Some (len - String.length ext - 1); startPart := 0;
         endPos := Some len; matchedSlash := false; preDotState := 0 |}.
Proof.
  intros Hlen.
  pose proof (differs_chars _ _ ext_no_slash) as Hs.
  pose proof (differs_chars _ _ ext_no_dot) as Hd.
  apply Forall_rev in Hs. apply Forall_rev in Hd.
  assert (Hl : List.length (rev (list_ascii_of_string ext)) = String.length ext).
  { rewrite length_rev. clear. induction ext; simpl; congruence. }
  destruct (rev (list_ascii_of_string ext)) as [|x l] eqn:E.
  - destruct ext; [contradiction | discriminate].
  - inversion Hs as [|? ? Hx Hs']; inversion Hd as [|? ? Hx' Hd']; subst.
    cbn [List.app extnameScan endPos startDot matchedSlash preDotState startPart].
    rewrite Hx, Hx'.
    cbn [endPos startDot matchedSlash preDotState startPart].
    rewrite (extnameScan_name l _ _ (len - 1 + 1));
      [| assumption | assumption | reflexivity | reflexivity].
    cbn [extnameScan endPos startDot matchedSlash preDotState startPart].
    change (Ascii.eqb "." "/") with false. change (Ascii.eqb "." ".") with true.
    cbv iota. simpl in Hl.
    replace (len - 1 - 1 - List.length l - 1) with (len - String.length ext - 2) by lia.
    replace (len - 1 - 1 - List.length l) with (len - String.length ext - 1) by lia.
    replace (len - 1 + 1) with len by lia.
    reflexivity.
Qed.

Lemma extname_after_name (stem : string) (c : ascii) :
  c <> "/"%char -> c <> "."%char ->
  extname (stem ++ String c ("." ++ ext)) = "." ++ ext.
Proof.
  intros Hslash Hdot.
  apply Ascii.eqb_neq in Hslash. apply Ascii.eqb_neq in Hdot.
  unfold extname.
  assert (Hlen : String.length (stem ++ String c ("." ++ ext))
                 = String.length stem + String.length ext + 2).
  { rewrite TextFacts.length_app. simpl. lia. }
  assert (Hchars : rev (list_ascii_of_string (stem ++ String c ("." ++ ext)))
                   = (rev (list_ascii_of_string ext)
                      ++ "."%char :: c :: rev (list_ascii_of_string stem))%list).
  { rewrite list_ascii_app. cbn [append list_ascii_of_string].
    rewrite rev_app_distr. simpl. now rewrite <- !app_assoc. }
  rewrite Hchars, extnameScan_extension by lia.
  cbn [extnameScan endPos startDot matchedSlash preDotState startPart].
  rewrite Hslash, Hdot.
  cbn [endPos startDot matchedSlash preDotState startPart].
  match goal with
  | |- context [extnameScan ?l ?i ?st] =>
      destruct (extnameScan_settled l i st
                  (String.length (stem ++ String c ("." ++ ext))
                   - String.length ext - 1)
                  (String.length (stem ++ String c ("." ++ ext))))
        as (Hsd & He & Hp); [reflexivity | reflexivity | discriminate |];
      rewrite Hsd, He
  end.
  apply Z.eqb_neq in Hp. rewrite Hp. cbn [orb].
  assert (Hend : Nat.eqb
            (String.length (stem ++ String c ("." ++ ext)) - String.length ext - 1)
            (String.length (stem ++ String c ("." ++ ext)) - 1) = false).
  { apply Nat.eqb_neq. rewrite Hlen. destruct ext; [contradiction | simpl; lia]. }
  rewrite Hend, andb_false_r. cbn [andb].
  replace (String.length (stem ++ String c ("." ++ ext)) - String.length ext - 1)
    with (String.length (stem ++ String c "")) at 1 2
    by (rewrite Hlen, TextFacts.length_app; simpl; lia).
  replace (String.length (stem ++ String c ("." ++ ext))
           - String.length (stem ++ String c ""))
    with (String.length ("." ++ ext))
    by (rewrite Hlen, !TextFacts.length_app; simpl; lia).
  replace (stem ++ String c ("." ++ ext)) with ((stem ++ String c "") ++ "." ++ ext)
    by (now rewrite TextFacts.app_assoc).
  apply substring_after.
Qed.

Lemma extname_hidden (before : string) :
  before = "" \/ (exists dir, before = dir ++ "/") ->
  extname (before ++ "." ++ ext) = "".
Proof.
  intros Hbefore. unfold extname.
  assert (Hlen : String.length (before ++ "." ++ ext)
                 = String.length before + String.length ext + 1).
  { rewrite TextFacts.length_app. simpl. lia. }
  assert (Hchars : rev (list_ascii_of_string (before ++ "." ++ ext))
                   = (rev (list_ascii_of_string ext)
                      ++ "."%char :: rev (list_ascii_of_string before))%list).
  { rewrite list_ascii_app. cbn [append list_ascii_of_string].
    rewrite rev_app_distr. simpl. now rewrite <- !app_assoc. }
  rewrite Hchars, extnameScan_extension by lia.
  destruct Hbefore as [-> | [dir ->]].
  - reflexivity.
  - rewrite list_ascii_app, rev_app_distr. reflexivity.
Qed.

End Extension.

(** X25.  A key is a content file by its extension as [path.extname]
    sees it.  For an extension without dots and slashes: a key that ends
    with a character other than a dot or a slash, a dot and the
    extension has that extension, so it is a content file exactly when
    the extension is [md], [mdx] or [mdoc], whatever comes before; a key
    that is only a dot and the extension, or ends with a slash, a dot
    and the extension (a hidden file such as [.md]), has no extension
    and is not a content file. *)
Theorem isContentFile_by_extension (ext : string) :
  ext <> "" ->
  allChars (isNot "/") ext = true -> allChars (isNot ".") ext = true ->
  (forall stem c,
     c <> "/"%char -> c <> "."%char ->
     extname (stem ++ String c ("." ++ ext)) = "." ++ ext /\
     isContentFile (stem ++ String c ("." ++ ext))
     = existsb (String.eqb ("." ++ ext)) CONTENT_EXTENSIONS) /\
  isContentFile ("." ++ ext) = false /\
  (forall dir, isContentFile (dir ++ "/." ++ ext) = false).
Proof.
  intros Hext Hslash Hdot. split; [|split].
  - intros stem c Hc Hc'. unfold isContentFile.
    now rewrite (extname_after_name ext Hext Hslash Hdot stem c Hc Hc').
  - unfold isContentFile. change ("." ++ ext) with ("" ++ "." ++ ext).
    rewrite (extname_hidden ext Hext Hslash Hdot "") by now left.
    reflexivity.
  - intros dir. unfold isContentFile.
    replace (dir ++ "/." ++ ext) with ((dir ++ "/") ++ "." ++ ext)
      by (now rewrite TextFacts.app_assoc).
    rewrite (extname_hidden ext Hext Hslash Hdot (dir ++ "/"))
      by (right; now exists dir).
    reflexivity.
Qed.

Lemma isContentFile_by_extension_witness :
  isContentFile "guides/v1.2/installation.mdx" = true /\
  isContentFile "guides/installation.txt" = false /\
  isContentFile "guides/.md" = false.
Proof.
  split; [|split].
  - destruct (isContentFile_by_extension "mdx") as (H & _);
      [discriminate | reflexivity | reflexivity |].
    apply (H "guides/v1.2/installatio" "n"%char); discriminate.
  - destruct (isContentFile_by_extension "txt") as (H & _);
      [discriminate | reflexivity | reflexivity |].
    apply (H "guides/installatio" "n"%char); discriminate.
  - destruct (isContentFile_by_extension "md") as (_ & _ & H);
      [discriminate | reflexivity | reflexivity |].
    apply (H "guides").
Defined.

End ContentFileMore.
